(** * ChirpStack device adder: the wizard and its CSV importer

    A shallow embedding of [main.go]: the terminal wizard that logs into a
    ChirpStack server, lets the operator pick a tenant, an application and a
    device profile, and then creates one device per row of a CSV file.

    The remote gRPC services, the file system and the terminal widgets are
    interfaces in the Go program; they are type classes here.  Everything the
    program does to the outside world goes through a small state-and-panic
    monad [M] over [Sys], which also keeps the trace of the calls issued. *)

From Stdlib Require Import List String Ascii ZArith Zbitwise Bool Lia PeanoNat.
Import ListNotations.
Local Open Scope string_scope.
Local Open Scope Z_scope.

(** ** Go primitives *)

(** Go's [int] on a 64-bit platform: arithmetic wraps around. *)
Module GoInt.
Definition min : Z := - 2 ^ 63.
Definition max : Z := 2 ^ 63 - 1.
Definition wrap (z : Z) : Z := (z + 2 ^ 63) mod 2 ^ 64 - 2 ^ 63.
Definition add (x y : Z) : Z := wrap (x + y).
Definition sub (x y : Z) : Z := wrap (x - y).
Definition fits (z : Z) : Prop := min <= z <= max.
End GoInt.

(** A Go string is a sequence of bytes; [for _, c := range s] walks it rune
    by rune, decoding UTF-8.  A byte sequence that is not a valid encoding
    yields [RuneError] and advances by one byte. *)
Module Utf8.
Definition RuneError : Z := 65533.

Definition bytes (s : string) : list Z :=
  map (fun a => Z.of_N (N_of_ascii a)) (list_ascii_of_string s).

Definition between (lo hi b : Z) : bool := (lo <=? b) && (b <=? hi).
Definition continuation (b : Z) : bool := between 128 191 b.

(** For a leading byte above 0x7F: the length of the sequence and the range
    the second byte must lie in (overlong forms and surrogates are
    excluded by narrowing that range). *)
Definition lead (b0 : Z) : option (nat * Z * Z) :=
  if between 194 223 b0 then Some (2%nat, 128, 191)
  else if b0 =? 224 then Some (3%nat, 160, 191)
  else if between 225 236 b0 then Some (3%nat, 128, 191)
  else if b0 =? 237 then Some (3%nat, 128, 159)
  else if between 238 239 b0 then Some (3%nat, 128, 191)
  else if b0 =? 240 then Some (4%nat, 144, 191)
  else if between 241 243 b0 then Some (4%nat, 128, 191)
  else if b0 =? 244 then Some (4%nat, 128, 143)
  else None.

Definition low (bits b : Z) : Z := Z.land b (Z.ones bits).

Fixpoint decode (bs : list Z) : list Z :=
  match bs with
  | [] => []
  | b0 :: t0 =>
    if b0 <? 128 then b0 :: decode t0
    else
      match lead b0, t0 with
      | Some (sz, lo, hi), b1 :: t1 =>
        if between lo hi b1 then
          match sz, t1 with
          | 2%nat, _ =>
            Z.lor (Z.shiftl (low 5 b0) 6) (low 6 b1) :: decode t1
          | 3%nat, b2 :: t2 =>
            if continuation b2 then
              Z.lor (Z.shiftl (low 4 b0) 12)
                    (Z.lor (Z.shiftl (low 6 b1) 6) (low 6 b2)) :: decode t2
            else RuneError :: decode t0
          | _, b2 :: b3 :: t3 =>
            if continuation b2 && continuation b3 then
              Z.lor (Z.shiftl (low 3 b0) 18)
                    (Z.lor (Z.shiftl (low 6 b1) 12)
                           (Z.lor (Z.shiftl (low 6 b2) 6) (low 6 b3))) :: decode t3
            else RuneError :: decode t0
          | _, _ => RuneError :: decode t0
          end
        else RuneError :: decode t0
      | _, _ => RuneError :: decode t0
      end
  end.

Definition runes (s : string) : list Z := decode (bytes s).
End Utf8.

(** ** [isHexString] *)

(** The loop body's test on one rune [c]. *)
Definition isHexRune (c : Z) : bool :=
  ((48 <=? c) && (c <=? 57))        (* c >= '0' && c <= '9' *)
  || ((97 <=? c) && (c <=? 102))    (* c >= 'a' && c <= 'f' *)
  || ((65 <=? c) && (c <=? 70)).    (* c >= 'A' && c <= 'F' *)

(** [for _, c := range s { if !(...) { return false } }; return true] *)
Fixpoint allHexRunes (cs : list Z) : bool :=
  match cs with
  | [] => true
  | c :: rest => if negb (isHexRune c) then false else allHexRunes rest
  end.

Definition isHexString (s : string) : bool :=
  if (String.length s =? 0)%nat then false
  else allHexRunes (Utf8.runes s).

(** ** The outside world *)

(** What the program is linked against.  [World] is the state of everything
    outside the process (the ChirpStack server, the file system); the other
    carriers are the Go values the program only passes around. *)
Class Platform : Type := {
  World : Type;
  Err : Type;                      (* values of Go's [error] *)
  Conn : Type;                     (* [*grpc.ClientConn] *)
  File : Type;                     (* [*os.File], opened for reading *)
  Key : Type;                      (* [tea.KeyMsg] *)
  keyString : Key -> string;       (* [tea.KeyMsg.String()] *)
  Foreign : Type;                  (* messages private to the widgets' packages *)
  foreignError : Foreign -> option Err;
                                   (* such a message as an [error], when its
                                      type has an [Error()] method *)
  WidgetCmd : Type                 (* a [tea.Cmd] returned by a widget *)
}.

(** The records of the ChirpStack API, with the fields the program reads or
    writes; every other field keeps its zero value. *)
Record TenantListItem : Type := {
  Tenant_Id : string;
  Tenant_Name : string }.

Record ApplicationListItem : Type := {
  Application_Id : string;
  Application_Name : string;
  Application_Description : string }.

Record DeviceProfileListItem : Type := {
  DeviceProfile_Id : string;
  DeviceProfile_Name : string }.

Record ListTenantsRequest : Type := {
  ListTenants_Limit : Z }.

Record ListApplicationsRequest : Type := {
  ListApplications_TenantId : string;
  ListApplications_Limit : Z }.

Record ListDeviceProfilesRequest : Type := {
  ListDeviceProfiles_TenantId : string;
  ListDeviceProfiles_Limit : Z }.

Record Device : Type := {
  DevEui : string;
  Name : string;
  Description : string;
  ApplicationId : string;
  DeviceProfileId : string;
  IsDisabled : bool }.

(** The four service clients, [grpc.Dial], [os.Open] with [csv.ReadAll], and
    the one error the program builds itself.  Every call receives the value
    of the [authorization] metadata of its context. *)
Class Services {P : Platform} : Type := {
  grpc_Dial : string -> World -> (Err + Conn) * World;
  Conn_Close : Conn -> World -> World;
  TenantService_List :
    Conn -> string -> ListTenantsRequest -> World -> (Err + list TenantListItem) * World;
  ApplicationService_List :
    Conn -> string -> ListApplicationsRequest -> World ->
    (Err + list ApplicationListItem) * World;
  DeviceProfileService_List :
    Conn -> string -> ListDeviceProfilesRequest -> World ->
    (Err + list DeviceProfileListItem) * World;
  DeviceService_Create : Conn -> string -> Device -> World -> option Err * World;
  os_Open : string -> World -> Err + File;
  csv_ReadAll : File -> Err + list (list string);
  connectError : string -> Err -> Err
}.

(** ** Application states, list items and messages *)

Inductive state : Type :=
| stateConnecting
| stateTenantSelect
| stateApplicationSelect
| stateDeviceProfileSelect
| stateFileSelect
| stateProcessing
| stateComplete
| stateError.

Record item : Type := {
  title : string;
  desc : string;
  id : string }.

Section Messages.
Context {P : Platform}.

(** [tea.Msg], as far as [Update] tells messages apart. *)
Inductive Msg : Type :=
| WindowSizeMsg (Width Height : Z)
| KeyMsg (k : Key)
| connectMsg
| tenantsLoadedMsg (items : list item)
| appsLoadedMsg (items : list item)
| profilesLoadedMsg (items : list item)
| devicesCreatedMsg (n : Z)
| errorMsg (e : Err)
| ForeignMsg (f : Foreign).

End Messages.

(** The three bubbles widgets.  [list_Items] is [None] for the nil slice of a
    list that was never built. *)
Class Widgets {P : Platform} : Type := {
  TextInput : Type;
  textinput_New : TextInput;
  textinput_Value : TextInput -> string;
  textinput_Update : TextInput -> Msg -> TextInput * option WidgetCmd;
  ListModel : Type;
  list_zero : ListModel;
  list_New : list item -> Z -> Z -> ListModel;
  list_SetTitle : string -> ListModel -> ListModel;
  list_SetSize : Z -> Z -> ListModel -> ListModel;
  list_Items : ListModel -> option (list item);
  list_SelectedItem : ListModel -> option item;
  list_Update : ListModel -> Msg -> ListModel * option WidgetCmd;
  FilePicker : Type;
  filepicker_New : FilePicker;
  filepicker_Init : FilePicker -> option WidgetCmd;
  filepicker_Update : FilePicker -> Msg -> FilePicker * option WidgetCmd;
  filepicker_DidSelectFile : FilePicker -> Msg -> bool * string;
  textinput_Blink : WidgetCmd
}.

(** ** The model *)

Section Model.
Context {P : Platform} {W : Widgets}.

(** The service clients are stubs around the connection they were made from;
    [None] is the nil interface value. *)
Record model : Type := {
  mstate : state;
  client : option Conn;
  tenantClient : option Conn;
  appClient : option Conn;
  deviceClient : option Conn;
  profileClient : option Conn;
  apiToken : string;
  serverAddr : string;
  width : Z;
  height : Z;
  tenantList : ListModel;
  appList : ListModel;
  profileList : ListModel;
  selectedTenant : string;
  selectedApp : string;
  selectedProfile : string;
  filepicker : FilePicker;
  tokenInput : TextInput;
  status : string;
  err : option Err;
  devicesCreated : Z }.

Definition initialModel : model := {|
  mstate := stateConnecting;
  client := None;
  tenantClient := None;
  appClient := None;
  deviceClient := None;
  profileClient := None;
  apiToken := "";
  serverAddr := "localhost:8081";
  width := 80;
  height := 24;
  tenantList := list_zero;
  appList := list_zero;
  profileList := list_zero;
  selectedTenant := "";
  selectedApp := "";
  selectedProfile := "";
  filepicker := filepicker_New;
  tokenInput := textinput_New;
  status := "Enter your ChirpStack API token";
  err := None;
  devicesCreated := 0 |}.

(** Assignments to the fields of [m]. *)
Definition set_mstate (v : state) (m : model) : model :=
  {| mstate := v; client := client m; tenantClient := tenantClient m;
     appClient := appClient m; deviceClient := deviceClient m;
     profileClient := profileClient m; apiToken := apiToken m;
     serverAddr := serverAddr m; width := width m; height := height m;
     tenantList := tenantList m; appList := appList m; profileList := profileList m;
     selectedTenant := selectedTenant m; selectedApp := selectedApp m;
     selectedProfile := selectedProfile m; filepicker := filepicker m;
     tokenInput := tokenInput m; status := status m; err := err m;
     devicesCreated := devicesCreated m |}.

Definition set_clients (c : Conn) (m : model) : model :=
  {| mstate := mstate m; client := Some c; tenantClient := Some c;
     appClient := Some c; deviceClient := Some c;
     profileClient := Some c; apiToken := apiToken m;
     serverAddr := serverAddr m; width := width m; height := height m;
     tenantList := tenantList m; appList := appList m; profileList := profileList m;
     selectedTenant := selectedTenant m; selectedApp := selectedApp m;
     selectedProfile := selectedProfile m; filepicker := filepicker m;
     tokenInput := tokenInput m; status := status m; err := err m;
     devicesCreated := devicesCreated m |}.

Definition set_apiToken (v : string) (m : model) : model :=
  {| mstate := mstate m; client := client m; tenantClient := tenantClient m;
     appClient := appClient m; deviceClient := deviceClient m;
     profileClient := profileClient m; apiToken := v;
     serverAddr := serverAddr m; width := width m; height := height m;
     tenantList := tenantList m; appList := appList m; profileList := profileList m;
     selectedTenant := selectedTenant m; selectedApp := selectedApp m;
     selectedProfile := selectedProfile m; filepicker := filepicker m;
     tokenInput := tokenInput m; status := status m; err := err m;
     devicesCreated := devicesCreated m |}.

Definition set_size (w h : Z) (m : model) : model :=
  {| mstate := mstate m; client := client m; tenantClient := tenantClient m;
     appClient := appClient m; deviceClient := deviceClient m;
     profileClient := profileClient m; apiToken := apiToken m;
     serverAddr := serverAddr m; width := w; height := h;
     tenantList := tenantList m; appList := appList m; profileList := profileList m;
     selectedTenant := selectedTenant m; selectedApp := selectedApp m;
     selectedProfile := selectedProfile m; filepicker := filepicker m;
     tokenInput := tokenInput m; status := status m; err := err m;
     devicesCreated := devicesCreated m |}.

Definition set_tenantList (v : ListModel) (m : model) : model :=
  {| mstate := mstate m; client := client m; tenantClient := tenantClient m;
     appClient := appClient m; deviceClient := deviceClient m;
     profileClient := profileClient m; apiToken := apiToken m;
     serverAddr := serverAddr m; width := width m; height := height m;
     tenantList := v; appList := appList m; profileList := profileList m;
     selectedTenant := selectedTenant m; selectedApp := selectedApp m;
     selectedProfile := selectedProfile m; filepicker := filepicker m;
     tokenInput := tokenInput m; status := status m; err := err m;
     devicesCreated := devicesCreated m |}.

Definition set_appList (v : ListModel) (m : model) : model :=
  {| mstate := mstate m; client := client m; tenantClient := tenantClient m;
     appClient := appClient m; deviceClient := deviceClient m;
     profileClient := profileClient m; apiToken := apiToken m;
     serverAddr := serverAddr m; width := width m; height := height m;
     tenantList := tenantList m; appList := v; profileList := profileList m;
     selectedTenant := selectedTenant m; selectedApp := selectedApp m;
     selectedProfile := selectedProfile m; filepicker := filepicker m;
     tokenInput := tokenInput m; status := status m; err := err m;
     devicesCreated := devicesCreated m |}.

Definition set_profileList (v : ListModel) (m : model) : model :=
  {| mstate := mstate m; client := client m; tenantClient := tenantClient m;
     appClient := appClient m; deviceClient := deviceClient m;
     profileClient := profileClient m; apiToken := apiToken m;
     serverAddr := serverAddr m; width := width m; height := height m;
     tenantList := tenantList m; appList := appList m; profileList := v;
     selectedTenant := selectedTenant m; selectedApp := selectedApp m;
     selectedProfile := selectedProfile m; filepicker := filepicker m;
     tokenInput := tokenInput m; status := status m; err := err m;
     devicesCreated := devicesCreated m |}.

Definition set_selectedTenant (v : string) (m : model) : model :=
  {| mstate := mstate m; client := client m; tenantClient := tenantClient m;
     appClient := appClient m; deviceClient := deviceClient m;
     profileClient := profileClient m; apiToken := apiToken m;
     serverAddr := serverAddr m; width := width m; height := height m;
     tenantList := tenantList m; appList := appList m; profileList := profileList m;
     selectedTenant := v; selectedApp := selectedApp m;
     selectedProfile := selectedProfile m; filepicker := filepicker m;
     tokenInput := tokenInput m; status := status m; err := err m;
     devicesCreated := devicesCreated m |}.

Definition set_selectedApp (v : string) (m : model) : model :=
  {| mstate := mstate m; client := client m; tenantClient := tenantClient m;
     appClient := appClient m; deviceClient := deviceClient m;
     profileClient := profileClient m; apiToken := apiToken m;
     serverAddr := serverAddr m; width := width m; height := height m;
     tenantList := tenantList m; appList := appList m; profileList := profileList m;
     selectedTenant := selectedTenant m; selectedApp := v;
     selectedProfile := selectedProfile m; filepicker := filepicker m;
     tokenInput := tokenInput m; status := status m; err := err m;
     devicesCreated := devicesCreated m |}.

Definition set_selectedProfile (v : string) (m : model) : model :=
  {| mstate := mstate m; client := client m; tenantClient := tenantClient m;
     appClient := appClient m; deviceClient := deviceClient m;
     profileClient := profileClient m; apiToken := apiToken m;
     serverAddr := serverAddr m; width := width m; height := height m;
     tenantList := tenantList m; appList := appList m; profileList := profileList m;
     selectedTenant := selectedTenant m; selectedApp := selectedApp m;
     selectedProfile := v; filepicker := filepicker m;
     tokenInput := tokenInput m; status := status m; err := err m;
     devicesCreated := devicesCreated m |}.

Definition set_filepicker (v : FilePicker) (m : model) : model :=
  {| mstate := mstate m; client := client m; tenantClient := tenantClient m;
     appClient := appClient m; deviceClient := deviceClient m;
     profileClient := profileClient m; apiToken := apiToken m;
     serverAddr := serverAddr m; width := width m; height := height m;
     tenantList := tenantList m; appList := appList m; profileList := profileList m;
     selectedTenant := selectedTenant m; selectedApp := selectedApp m;
     selectedProfile := selectedProfile m; filepicker := v;
     tokenInput := tokenInput m; status := status m; err := err m;
     devicesCreated := devicesCreated m |}.

Definition set_tokenInput (v : TextInput) (m : model) : model :=
  {| mstate := mstate m; client := client m; tenantClient := tenantClient m;
     appClient := appClient m; deviceClient := deviceClient m;
     profileClient := profileClient m; apiToken := apiToken m;
     serverAddr := serverAddr m; width := width m; height := height m;
     tenantList := tenantList m; appList := appList m; profileList := profileList m;
     selectedTenant := selectedTenant m; selectedApp := selectedApp m;
     selectedProfile := selectedProfile m; filepicker := filepicker m;
     tokenInput := v; status := status m; err := err m;
     devicesCreated := devicesCreated m |}.

Definition set_err (v : Err) (m : model) : model :=
  {| mstate := mstate m; client := client m; tenantClient := tenantClient m;
     appClient := appClient m; deviceClient := deviceClient m;
     profileClient := profileClient m; apiToken := apiToken m;
     serverAddr := serverAddr m; width := width m; height := height m;
     tenantList := tenantList m; appList := appList m; profileList := profileList m;
     selectedTenant := selectedTenant m; selectedApp := selectedApp m;
     selectedProfile := selectedProfile m; filepicker := filepicker m;
     tokenInput := tokenInput m; status := status m; err := Some v;
     devicesCreated := devicesCreated m |}.

Definition set_devicesCreated (v : Z) (m : model) : model :=
  {| mstate := mstate m; client := client m; tenantClient := tenantClient m;
     appClient := appClient m; deviceClient := deviceClient m;
     profileClient := profileClient m; apiToken := apiToken m;
     serverAddr := serverAddr m; width := width m; height := height m;
     tenantList := tenantList m; appList := appList m; profileList := profileList m;
     selectedTenant := selectedTenant m; selectedApp := selectedApp m;
     selectedProfile := selectedProfile m; filepicker := filepicker m;
     tokenInput := tokenInput m; status := status m; err := err m;
     devicesCreated := v |}.

(** [tea.Cmd]: the closures the program hands to the runtime, by the function
    that builds them and the values they capture. *)
Inductive Cmd : Type :=
| CmdNil                                        (* [nil] *)
| CmdQuit                                       (* [tea.Quit] *)
| CmdConnect                                    (* returns [connectMsg{}] *)
| CmdConnectFailed (addr : string) (e : Err)    (* returns the dial error *)
| CmdLoadTenants (m : model)
| CmdLoadApplications (m : model)
| CmdLoadDeviceProfiles (m : model)
| CmdProcessCSV (m : model) (filepath : string)
| CmdWidget (c : WidgetCmd).

Definition widgetCmd (c : option WidgetCmd) : Cmd :=
  match c with
  | Some c => CmdWidget c
  | None => CmdNil
  end.

End Model.

(** ** Effects *)

Section Effects.
Context {P : Platform}.

(** What the program did to the outside, in the order it did it. *)
Inductive Event : Type :=
| EvCreate (authorization : string) (device : Device) (result : option Err)
| EvLog (devEui : string) (e : Err)   (* "Failed to create device %s: %v" *)
| EvClose (c : Conn).

Record Sys : Type := {
  remote : World;
  events : list Event }.

Inductive Panic : Type :=
| IndexOutOfRange
| NilDereference.

Inductive Outcome (A : Type) : Type :=
| Returned (a : A)
| Panicked (p : Panic).
Arguments Returned {A} a.
Arguments Panicked {A} p.

Definition M (A : Type) : Type := Sys -> Outcome A * Sys.

Definition ret {A : Type} (a : A) : M A := fun s => (Returned a, s).

Definition bind {A B : Type} (c : M A) (k : A -> M B) : M B :=
  fun s =>
    match c s with
    | (Returned a, s') => k a s'
    | (Panicked p, s') => (Panicked p, s')
    end.

Definition panic {A : Type} (p : Panic) : M A := fun s => (Panicked p, s).

(** A call that may change the outside world. *)
Definition call {A : Type} (f : World -> A * World) : M A :=
  fun s =>
    let (a, w) := f (remote s) in
    (Returned a, {| remote := w; events := events s |}).

(** A look at the outside world. *)
Definition peek {A : Type} (f : World -> A) : M A :=
  fun s => (Returned (f (remote s)), s).

Definition emit (e : Event) : M unit :=
  fun s => (Returned tt, {| remote := remote s; events := events s ++ [e] |}).

(** [l[i]], bounds-checked as Go does. *)
Definition index {A : Type} (l : list A) (i : nat) : M A :=
  match nth_error l i with
  | Some a => ret a
  | None => panic IndexOutOfRange
  end.

(** A method call through an interface value. *)
Definition stub (c : option Conn) : M Conn :=
  match c with
  | Some conn => ret conn
  | None => panic NilDereference
  end.

End Effects.

Arguments Returned {A} a.
Arguments Panicked {A} p.

Notation "x <- c ;; k" := (bind c (fun x => k))
  (at level 61, c at next level, right associativity).
Notation "c ;;; k" := (bind c (fun _ => k))
  (at level 61, right associativity).

(** ** The commands *)

Section Commands.
Context {P : Platform} {W : Widgets} {Svc : Services}.

(** The outgoing context of a call: its [authorization] metadata. *)
Definition outgoingContext (m : model) : string := "Bearer " ++ apiToken m.

Definition loadTenants (m : model) : M Msg :=
  let ctx := outgoingContext m in
  c <- stub (tenantClient m) ;;
  resp <- call (TenantService_List c ctx {| ListTenants_Limit := 100 |}) ;;
  match resp with
  | inl e => ret (errorMsg e)
  | inr result =>
    let items :=
      fold_left
        (fun items tenant =>
           (items ++ [{| title := Tenant_Name tenant;
                        desc := Tenant_Name tenant;
                        id := Tenant_Id tenant |}])%list)
        result [] in
    ret (tenantsLoadedMsg items)
  end.

Definition loadApplications (m : model) : M Msg :=
  let ctx := outgoingContext m in
  c <- stub (appClient m) ;;
  resp <- call (ApplicationService_List c ctx
                  {| ListApplications_TenantId := selectedTenant m;
                     ListApplications_Limit := 100 |}) ;;
  match resp with
  | inl e => ret (errorMsg e)
  | inr result =>
    let items :=
      fold_left
        (fun items app =>
           (items ++ [{| title := Application_Name app;
                        desc := Application_Description app;
                        id := Application_Id app |}])%list)
        result [] in
    ret (appsLoadedMsg items)
  end.

Definition loadDeviceProfiles (m : model) : M Msg :=
  let ctx := outgoingContext m in
  c <- stub (profileClient m) ;;
  resp <- call (DeviceProfileService_List c ctx
                  {| ListDeviceProfiles_TenantId := selectedTenant m;
                     ListDeviceProfiles_Limit := 100 |}) ;;
  match resp with
  | inl e => ret (errorMsg e)
  | inr result =>
    let items :=
      fold_left
        (fun items profile =>
           (items ++ [{| title := DeviceProfile_Name profile;
                        desc := DeviceProfile_Name profile;
                        id := DeviceProfile_Id profile |}])%list)
        result [] in
    ret (profilesLoadedMsg items)
  end.

(** The start index: 1 when row 0 is a header. *)
Definition headerStart (records : list (list string)) : M nat :=
  if (0 <? List.length records)%nat then
    row0 <- index records 0 ;;
    cell <- index row0 0 ;;
    if negb (isHexString cell) then ret 1%nat else ret 0%nat
  else ret 0%nat.

(** The body of the loop over the rows, for one [record]. *)
Definition createRow (m : model) (ctx : string) (record : list string)
  (created : Z) : M Z :=
  if (List.length record <? 2)%nat then ret created
  else
    devEui <- index record 0 ;;
    name <- index record 1 ;;
    description <- (if (2 <? List.length record)%nat then index record 2 else ret "") ;;
    let device :=
      {| DevEui := devEui;
         Name := name;
         Description := description;
         ApplicationId := selectedApp m;
         DeviceProfileId := selectedProfile m;
         IsDisabled := false |} in
    c <- stub (deviceClient m) ;;
    result <- call (DeviceService_Create c ctx device) ;;
    emit (EvCreate ctx device result) ;;;
    match result with
    | Some e => emit (EvLog devEui e) ;;; ret created
    | None => ret (GoInt.add created 1)
    end.

(** [for i := start; i < len(records); i++]; [fuel] bounds the number of
    iterations and is [len(records)] at the call. *)
Fixpoint rowsLoop (fuel : nat) (m : model) (ctx : string)
  (records : list (list string)) (i : nat) (created : Z) : M Z :=
  match fuel with
  | O => ret created
  | S fuel' =>
    if (i <? List.length records)%nat then
      record <- index records i ;;
      created' <- createRow m ctx record created ;;
      rowsLoop fuel' m ctx records (S i) created'
    else ret created
  end.

(** The closure [processCSV] returns.  The file is opened for reading and
    closed when the closure returns ([defer file.Close()]), which nothing
    here observes. *)
Definition processCSV (m : model) (filepath : string) : M Msg :=
  opened <- peek (os_Open filepath) ;;
  match opened with
  | inl e => ret (errorMsg e)
  | inr file =>
    match csv_ReadAll file with
    | inl e => ret (errorMsg e)
    | inr records =>
      let ctx := outgoingContext m in
      start <- headerStart records ;;
      created <- rowsLoop (List.length records) m ctx records start 0 ;;
      ret (devicesCreatedMsg created)
    end
  end.

(** ** [Update] *)

Definition handleEnter (m : model) : model * Cmd :=
  match mstate m with
  | stateConnecting =>
    if negb (textinput_Value (tokenInput m) =? "")%string then
      let m := set_apiToken (textinput_Value (tokenInput m)) m in
      (m, CmdConnect)
    else (m, CmdNil)
  | stateTenantSelect =>
    match list_SelectedItem (tenantList m) with
    | Some item =>
      let m := set_selectedTenant (id item) m in
      (m, CmdLoadApplications m)
    | None => (m, CmdNil)
    end
  | stateApplicationSelect =>
    match list_SelectedItem (appList m) with
    | Some item =>
      let m := set_selectedApp (id item) m in
      (m, CmdLoadDeviceProfiles m)
    | None => (m, CmdNil)
    end
  | stateDeviceProfileSelect =>
    match list_SelectedItem (profileList m) with
    | Some item =>
      let m := set_selectedProfile (id item) m in
      let m := set_mstate stateFileSelect m in
      (m, widgetCmd (filepicker_Init (filepicker m)))
    | None => (m, CmdNil)
    end
  | _ => (m, CmdNil)
  end.

Definition handleConnect (m : model) : M (model * Cmd) :=
  dialled <- call (grpc_Dial (serverAddr m)) ;;
  match dialled with
  | inl e => ret (m, CmdConnectFailed (serverAddr m) e)
  | inr conn =>
    let m := set_clients conn m in
    ret (m, CmdLoadTenants m)
  end.

(** [if l.Items() != nil { l.SetSize(w-4, h-8) }] *)
Definition resize (w h : Z) (l : ListModel) : ListModel :=
  match list_Items l with
  | Some _ => list_SetSize (GoInt.sub w 4) (GoInt.sub h 8) l
  | None => l
  end.

Definition newList (name : string) (items : list item) (m : model) : ListModel :=
  list_SetTitle name
    (list_New items (GoInt.sub (width m) 4) (GoInt.sub (height m) 8)).

(** The second [switch]: the message goes to the widget of the state. *)
Definition updateFocused (m : model) (msg : Msg) : model * Cmd :=
  match mstate m with
  | stateConnecting =>
    let (w, cmd) := textinput_Update (tokenInput m) msg in
    (set_tokenInput w m, widgetCmd cmd)
  | stateTenantSelect =>
    let (w, cmd) := list_Update (tenantList m) msg in
    (set_tenantList w m, widgetCmd cmd)
  | stateApplicationSelect =>
    let (w, cmd) := list_Update (appList m) msg in
    (set_appList w m, widgetCmd cmd)
  | stateDeviceProfileSelect =>
    let (w, cmd) := list_Update (profileList m) msg in
    (set_profileList w m, widgetCmd cmd)
  | stateFileSelect =>
    let (w, cmd) := filepicker_Update (filepicker m) msg in
    let m := set_filepicker w m in
    let (didSelect, path) := filepicker_DidSelectFile (filepicker m) msg in
    if didSelect then (m, CmdProcessCSV m path) else (m, widgetCmd cmd)
  | _ => (m, CmdNil)
  end.

Definition closeClient (m : model) : M unit :=
  match client m with
  | Some c =>
    call (fun w => (tt, Conn_Close c w)) ;;; emit (EvClose c)
  | None => ret tt
  end.

Definition Update (m : model) (msg : Msg) : M (model * Cmd) :=
  match msg with
  | WindowSizeMsg w h =>
    let m := set_size w h m in
    let m := set_tenantList (resize w h (tenantList m)) m in
    let m := set_appList (resize w h (appList m)) m in
    let m := set_profileList (resize w h (profileList m)) m in
    ret (m, CmdNil)
  | KeyMsg k =>
    if ((keyString k =? "ctrl+c") || (keyString k =? "q"))%string then
      closeClient m ;;; ret (m, CmdQuit)
    else if (keyString k =? "enter")%string then ret (handleEnter m)
    else ret (updateFocused m msg)
  | connectMsg => handleConnect m
  | tenantsLoadedMsg items =>
    let m := set_tenantList (newList "Select Tenant" items m) m in
    let m := set_mstate stateTenantSelect m in
    ret (m, CmdNil)
  | appsLoadedMsg items =>
    let m := set_appList (newList "Select Application" items m) m in
    let m := set_mstate stateApplicationSelect m in
    ret (m, CmdNil)
  | profilesLoadedMsg items =>
    let m := set_profileList (newList "Select Device Profile" items m) m in
    let m := set_mstate stateDeviceProfileSelect m in
    ret (m, CmdNil)
  | devicesCreatedMsg n =>
    let m := set_devicesCreated n m in
    let m := set_mstate stateComplete m in
    ret (m, CmdNil)
  | errorMsg e =>
    let m := set_err e m in
    let m := set_mstate stateError m in
    ret (m, CmdNil)
  | ForeignMsg f =>
    (* [errorMsg] is the interface [error]: its case takes every message
       with an [Error()] method, whatever package it comes from *)
    match foreignError f with
    | Some e =>
      let m := set_err e m in
      let m := set_mstate stateError m in
      ret (m, CmdNil)
    | None => ret (updateFocused m msg)
    end
  end.

Definition Init (m : model) : Cmd := CmdWidget textinput_Blink.

(** ** [View]

    What [View] puts on the screen, before styling: the text of the title,
    the body, and the text of the help line ([""] where there is none). *)
Inductive Body : Type :=
| TokenInputView (t : TextInput)
| ListView (l : ListModel)
| FilePickerView (f : FilePicker)
| StatusText (text : string)
| CreatedText (n : Z)              (* "Successfully created %d devices" *)
| ErrorText (e : option Err).      (* "Error: %v" *)

Record Screen : Type := {
  heading : string;
  body : Body;
  help : string }.

Definition View (m : model) : Screen :=
  match mstate m with
  | stateConnecting =>
    {| heading := "ChirpStack Device Manager";
       body := TokenInputView (tokenInput m);
       help := "Press Enter to connect • Press q to quit" |}
  | stateTenantSelect =>
    {| heading := "ChirpStack Device Manager";
       body := ListView (tenantList m);
       help := "↑/↓: navigate • Enter: select • q: quit" |}
  | stateApplicationSelect =>
    {| heading := "ChirpStack Device Manager";
       body := ListView (appList m);
       help := "↑/↓: navigate • Enter: select • q: quit" |}
  | stateDeviceProfileSelect =>
    {| heading := "ChirpStack Device Manager";
       body := ListView (profileList m);
       help := "↑/↓: navigate • Enter: select • q: quit" |}
  | stateFileSelect =>
    {| heading := "Select CSV File";
       body := FilePickerView (filepicker m);
       help := "Navigate and press Enter to select • Press q to quit" |}
  | stateProcessing =>
    {| heading := "Processing...";
       body := StatusText "Creating devices from CSV file...";
       help := "" |}
  | stateComplete =>
    {| heading := "Complete!";
       body := CreatedText (devicesCreated m);
       help := "Press q to quit" |}
  | stateError =>
    {| heading := "Error";
       body := ErrorText (err m);
       help := "Press q to quit" |}
  end.

End Commands.

(** ** The runtime *)

Section Runtime.
Context {P : Platform} {W : Widgets} {Svc : Services}.

(** What running a pending command sends back to [Update].  [tea.Quit] ends
    the event loop instead, and what a widget's command sends is a message of
    the widget's own package: it arrives as an outside message.  A command
    runs on its own goroutine; here it runs in one piece, at the moment its
    message is delivered. *)
Definition runCmd (cmd : Cmd) : option (M Msg) :=
  match cmd with
  | CmdNil => None
  | CmdQuit => None
  | CmdConnect => Some (ret connectMsg)
  | CmdConnectFailed addr e => Some (ret (errorMsg (connectError addr e)))
  | CmdLoadTenants m => Some (loadTenants m)
  | CmdLoadApplications m => Some (loadApplications m)
  | CmdLoadDeviceProfiles m => Some (loadDeviceProfiles m)
  | CmdProcessCSV m filepath => Some (processCSV m filepath)
  | CmdWidget _ => None
  end.

Inductive Phase : Type :=
| Running
| Exited
| Crashed (p : Panic).

(** The program between two messages: the model, the commands handed to the
    runtime that have not completed, and the outside. *)
Record Program : Type := {
  current : model;
  pending : list Cmd;
  system : Sys;
  phase : Phase }.

Definition start (w : World) : Program :=
  {| current := initialModel;
     pending := [Init initialModel];
     system := {| remote := w; events := [] |};
     phase := Running |}.

Definition enqueue (cmd : Cmd) (q : list Cmd) : list Cmd :=
  match cmd with
  | CmdNil => q
  | _ => (q ++ [cmd])%list
  end.

(** One message through [Update]. *)
Definition feed (p : Program) (msg : Msg) : Program :=
  match Update (current p) msg (system p) with
  | (Returned (m, cmd), s) =>
    {| current := m; pending := enqueue cmd (pending p); system := s; phase := Running |}
  | (Panicked e, s) =>
    {| current := current p; pending := pending p; system := s; phase := Crashed e |}
  end.

(** The [k]-th pending command completes. *)
Definition complete (p : Program) (k : nat) : Program :=
  match nth_error (pending p) k with
  | None => p
  | Some cmd =>
    let rest := (firstn k (pending p) ++ skipn (S k) (pending p))%list in
    match cmd with
    | CmdQuit =>
      {| current := current p; pending := rest; system := system p; phase := Exited |}
    | _ =>
      match runCmd cmd with
      | None =>
        {| current := current p; pending := rest; system := system p; phase := Running |}
      | Some run =>
        match run (system p) with
        | (Returned msg, s) =>
          feed {| current := current p; pending := rest; system := s; phase := Running |} msg
        | (Panicked e, s) =>
          {| current := current p; pending := rest; system := s; phase := Crashed e |}
        end
      end
    end
  end.

(** The messages that come from outside the program: the terminal and the
    widgets' own commands.  The other message types are private to the
    program, so only its own commands make them. *)
Definition external (msg : Msg) : bool :=
  match msg with
  | WindowSizeMsg _ _ => true
  | KeyMsg _ => true
  | ForeignMsg _ => true
  | _ => false
  end.

(** The widget messages that are errors: [case errorMsg] takes them. *)
Definition widgetError (msg : Msg) : option Err :=
  match msg with
  | ForeignMsg f => foreignError f
  | _ => None
  end.

Inductive step : Program -> Program -> Prop :=
| step_input (p : Program) (msg : Msg) :
    phase p = Running -> external msg = true -> step p (feed p msg)
| step_complete (p : Program) (k : nat) :
    phase p = Running -> (k < List.length (pending p))%nat -> step p (complete p k).

Inductive reachable (w : World) : Program -> Prop :=
| reach_start : reachable w (start w)
| reach_step (p q : Program) : reachable w p -> step p q -> reachable w q.

(** A schedule: what happens next, step by step. *)
Inductive Action : Type :=
| Input (msg : Msg)
| Complete (k : nat).

Definition act (p : Program) (a : Action) : Program :=
  match a with
  | Input msg => feed p msg
  | Complete k => complete p k
  end.

Definition permitted (p : Program) (a : Action) : bool :=
  match phase p, a with
  | Running, Input msg => external msg
  | Running, Complete k => (k <? List.length (pending p))%nat
  | _, _ => false
  end.

Fixpoint run (p : Program) (schedule : list Action) : option Program :=
  match schedule with
  | [] => Some p
  | a :: rest => if permitted p a then run (act p a) rest else None
  end.

(** The states the model goes through along a schedule. *)
Fixpoint statesAlong (p : Program) (schedule : list Action) : list state :=
  match schedule with
  | [] => [mstate (current p)]
  | a :: rest => mstate (current p) :: statesAlong (act p a) rest
  end.

End Runtime.

(** ** What the specification talks about *)

(** The characters [0-9], [a-f], [A-F]. *)
Definition hexDigits : list Z := Utf8.runes "0123456789abcdefABCDEF".

(** A non-empty string consisting solely of hexadecimal digits. *)
Definition pureHex (s : string) : Prop :=
  s <> "" /\ Forall (fun c => In c hexDigits) (Utf8.runes s).

(** The rows [encoding/csv] returns have at least one cell each; this is
    that property for row 0, the only row the header test looks into. *)
Definition headerInBounds (records : list (list string)) : Prop :=
  forall rest, records <> [] :: rest.

(** A row with at least 2 cells. *)
Definition qualifies (row : list string) : bool := (2 <=? List.length row)%nat.

(** The create-device request the specification prescribes for a row. *)
Definition specDevice (applicationId deviceProfileId : string)
  (row : list string) : Device :=
  {| DevEui := nth 0 row "";
     Name := nth 1 row "";
     Description := if (3 <=? List.length row)%nat then nth 2 row "" else "";
     ApplicationId := applicationId;
     DeviceProfileId := deviceProfileId;
     IsDisabled := false |}.

Section Observations.
Context {P : Platform}.

(** The create calls of a trace, with their results, and its log lines. *)
Fixpoint createCalls (es : list Event) : list (Device * option Err) :=
  match es with
  | [] => []
  | EvCreate _ device result :: rest => (device, result) :: createCalls rest
  | _ :: rest => createCalls rest
  end.

Fixpoint logLines (es : list Event) : list (string * Err) :=
  match es with
  | [] => []
  | EvLog devEui e :: rest => (devEui, e) :: logLines rest
  | _ :: rest => logLines rest
  end.

Definition succeeded (c : Device * option Err) : bool :=
  match snd c with
  | None => true
  | Some _ => false
  end.

(** The failed calls, as the log reports them. *)
Fixpoint failures (calls : list (Device * option Err)) : list (string * Err) :=
  match calls with
  | [] => []
  | (device, Some e) :: rest => (DevEui device, e) :: failures rest
  | (_, None) :: rest => failures rest
  end.

(** The events of a batch are create calls under the batch's context and
    log lines. *)
Definition batchEvent (ctx : string) (e : Event) : Prop :=
  match e with
  | EvCreate c _ _ => c = ctx
  | EvLog _ _ => True
  | EvClose _ => False
  end.

End Observations.

(** The loop over the rows without its index: the body, row after row. *)
Section Rows.
Context {P : Platform} {W : Widgets} {Svc : Services}.

Fixpoint forRows (m : model) (ctx : string) (rows : list (list string))
  (created : Z) : M Z :=
  match rows with
  | [] => ret created
  | record :: rest =>
    created' <- createRow m ctx record created ;;
    forRows m ctx rest created'
  end.

End Rows.

(** The create-device calls of the specification: the requests sent to the
    service one after the other under one context, each to the world the call
    before it left.  The results in order, and the world after the last
    call. *)
Section Service.
Context {P : Platform} {Svc : Services}.

Fixpoint served (conn : Conn) (ctx : string) (requests : list Device)
  (w : World) : list (option Err) * World :=
  match requests with
  | [] => ([], w)
  | device :: rest =>
    let (result, w1) := DeviceService_Create conn ctx device w in
    let (results, w2) := served conn ctx rest w1 in
    (result :: results, w2)
  end.

End Service.

(** What the proofs about whole runs assume of the widgets and the server. *)
Section Assumptions.
Context {P : Platform} {W : Widgets} {Svc : Services}.

(** A list widget shows the items it was built from, and selects among them. *)
Class ListLaws : Prop := {
  list_New_Items :
    forall items w h, list_Items (list_New items w h) = Some items;
  list_SetTitle_Items :
    forall name l, list_Items (list_SetTitle name l) = list_Items l;
  list_SetSize_Items :
    forall w h l, list_Items (list_SetSize w h l) = list_Items l;
  list_Update_Items :
    forall l msg, list_Items (fst (list_Update l msg)) = list_Items l;
  list_zero_Items : list_Items list_zero = None;
  list_SelectedItem_Items :
    forall l it, list_SelectedItem l = Some it ->
                 exists items, list_Items l = Some items /\ In it items
}.

(** The server never returns a record with an empty id. *)
Class ServerIds : Prop := {
  tenant_ids :
    forall c ctx req w result w',
      TenantService_List c ctx req w = (inr result, w') ->
      Forall (fun t => Tenant_Id t <> "") result;
  application_ids :
    forall c ctx req w result w',
      ApplicationService_List c ctx req w = (inr result, w') ->
      Forall (fun a => Application_Id a <> "") result;
  profile_ids :
    forall c ctx req w result w',
      DeviceProfileService_List c ctx req w = (inr result, w') ->
      Forall (fun d => DeviceProfile_Id d <> "") result
}.

(** The file picker never reports the empty path. *)
Class PickerPaths : Prop := {
  picked_path :
    forall fp msg path, filepicker_DidSelectFile fp msg = (true, path) -> path <> ""
}.

(** The file picker as [filepicker.New] builds it, with the keys it comes
    with: a file is selected by a key press that reads "enter", the key bound
    to Select, and by no other message. *)
Class StockPicker : Prop := {
  select_on_enter :
    forall fp msg path,
      filepicker_DidSelectFile fp msg = (true, path) ->
      exists k, msg = KeyMsg k /\ keyString k = "enter"
}.

End Assumptions.

(** The item each loader makes of a record. *)
Definition tenantItem (t : TenantListItem) : item :=
  {| title := Tenant_Name t; desc := Tenant_Name t; id := Tenant_Id t |}.

Definition applicationItem (a : ApplicationListItem) : item :=
  {| title := Application_Name a;
     desc := Application_Description a;
     id := Application_Id a |}.

Definition profileItem (d : DeviceProfileListItem) : item :=
  {| title := DeviceProfile_Name d;
     desc := DeviceProfile_Name d;
     id := DeviceProfile_Id d |}.

(** ** How far a model has come

    The facts the selections accumulate, by the step that establishes them:
    1 for the clients, 2 for the tenant, 3 for the application, 4 for the
    device profile. *)
Section Stages.
Context {P : Platform} {W : Widgets}.

Definition connected (m : model) : Prop :=
  client m <> None /\ tenantClient m <> None /\ appClient m <> None
  /\ deviceClient m <> None /\ profileClient m <> None.

Definition stage (n : nat) (m : model) : Prop :=
  ((1 <=? n)%nat = true -> connected m)
  /\ ((2 <=? n)%nat = true -> selectedTenant m <> "")
  /\ ((3 <=? n)%nat = true -> selectedApp m <> "")
  /\ ((4 <=? n)%nat = true -> selectedProfile m <> "").

Definition stateStage (st : state) : nat :=
  match st with
  | stateTenantSelect => 1
  | stateApplicationSelect => 2
  | stateDeviceProfileSelect => 3
  | stateFileSelect => 4
  | _ => 0
  end.

Definition cmdStage (cmd : Cmd) : nat :=
  match cmd with
  | CmdLoadTenants _ => 1
  | CmdLoadApplications _ => 2
  | CmdLoadDeviceProfiles _ => 3
  | CmdProcessCSV _ _ => 4
  | _ => 0
  end.

Definition msgStage (msg : Msg) : nat :=
  match msg with
  | tenantsLoadedMsg _ => 1
  | appsLoadedMsg _ => 2
  | profilesLoadedMsg _ => 3
  | _ => 0
  end.

(** What a command captured when it was built. *)
Definition cmdOk (cmd : Cmd) : Prop :=
  match cmd with
  | CmdLoadTenants m => stage 1 m
  | CmdLoadApplications m => stage 2 m
  | CmdLoadDeviceProfiles m => stage 3 m
  | CmdProcessCSV m path => stage 4 m /\ mstate m = stateFileSelect /\ path <> ""
  | _ => True
  end.

Definition named (it : item) : Prop := id it <> "".

Definition goodList (l : ListModel) : Prop :=
  forall items, list_Items l = Some items -> Forall named items.

Definition goodLists (m : model) : Prop :=
  goodList (tenantList m) /\ goodList (appList m) /\ goodList (profileList m).

Definition goodMsg (msg : Msg) : Prop :=
  match msg with
  | tenantsLoadedMsg items => Forall named items
  | appsLoadedMsg items => Forall named items
  | profilesLoadedMsg items => Forall named items
  | _ => True
  end.

Definition sound (m : model) : Prop :=
  goodLists m /\ stage (stateStage (mstate m)) m.

(** Nothing established is lost from [m] to [m']. *)
Definition advanced (m m' : model) : Prop :=
  (connected m -> connected m')
  /\ (selectedTenant m <> "" -> selectedTenant m' <> "")
  /\ (selectedApp m <> "" -> selectedApp m' <> "")
  /\ (selectedProfile m <> "" -> selectedProfile m' <> "").

End Stages.

Section ProgramInvariant.
Context {P : Platform} {W : Widgets} {Svc : Services}.

Definition Inv (p : Program) : Prop :=
  sound (current p)
  /\ Forall (fun cmd => cmdOk cmd /\ stage (cmdStage cmd) (current p)) (pending p).

End ProgramInvariant.

(** ** The start of an import *)
Section Importing.
Context {P : Platform} {W : Widgets} {Svc : Services}.

Definition isImport (cmd : Cmd) : bool :=
  match cmd with
  | CmdProcessCSV _ _ => true
  | _ => false
  end.


(** Nothing imported and nothing to import. *)
Definition Idle (p : Program) : Prop :=
  mstate (current p) <> stateComplete
  /\ Forall (fun cmd => isImport cmd = false) (pending p).

End Importing.

(** ** A small installation

    A server with a fixed catalogue that refuses a DevEUI it already has, a
    disk with a few files, and widgets reduced to what the program asks of
    them.  Its file picker is not the one [initialModel] builds: it reports
    the path that a message of its own package carries, so that a run can
    reach the import.  [Stock] has the picker with the keys it ships with. *)
Module Demo.

Record world : Type := {
  registered : list string;
  disk : list (string * option (list (list string))) }.

Record catalogue : Type := {
  tenants : list TenantListItem;
  applications : list (string * ApplicationListItem);
  profiles : list (string * DeviceProfileListItem) }.

(** A widget message that reports a failure to read, as the [errorMsg] of
    the file picker's package does, is an error; its text is the error's. *)
Definition failure (f : string) : option string :=
  if String.prefix "open " f then Some f else None.

Definition platform : Platform :=
  {| World := world;
     Err := string;
     Conn := string;
     File := option (list (list string));
     Key := string;
     keyString := fun k => k;
     Foreign := string;
     foreignError := failure;
     WidgetCmd := unit |}.

Definition typed (t : string) (msg : @Msg platform) : string :=
  match msg with
  | KeyMsg k => if (String.length k =? 1)%nat then t ++ k else t
  | _ => t
  end.

Definition moved (l : option (list item) * nat) (msg : @Msg platform)
  : option (list item) * nat :=
  match msg with
  | KeyMsg k =>
    if (k =? "down")%string then (fst l, S (snd l))
    else if (k =? "up")%string then (fst l, Nat.pred (snd l))
    else l
  | _ => l
  end.

Definition selected (l : option (list item) * nat) : option item :=
  match fst l with
  | Some items => nth_error items (snd l)
  | None => None
  end.

Definition picked (msg : @Msg platform) : bool * string :=
  match msg with
  | ForeignMsg path => if (path =? "")%string then (false, "") else (true, path)
  | _ => (false, "")
  end.

Definition widgets : @Widgets platform :=
  {| TextInput := string;
     textinput_New := "";
     textinput_Value := fun t => t;
     textinput_Update := fun t msg => (typed t msg, None);
     ListModel := option (list item) * nat;
     list_zero := (None, 0%nat);
     list_New := fun items _ _ => (Some items, 0%nat);
     list_SetTitle := fun _ l => l;
     list_SetSize := fun _ _ l => l;
     list_Items := fun l => fst l;
     list_SelectedItem := selected;
     list_Update := fun l msg => (moved l msg, None);
     FilePicker := unit;
     filepicker_New := tt;
     filepicker_Init := fun _ => Some tt;
     filepicker_Update := fun fp _ => (fp, None);
     filepicker_DidSelectFile := fun _ msg => picked msg;
     textinput_Blink := tt |}.

Fixpoint lookup {A : Type} (key : string) (l : list (string * A)) : option A :=
  match l with
  | [] => None
  | (k, v) :: rest => if (k =? key)%string then Some v else lookup key rest
  end.

Definition owned {A : Type} (tenant : string) (l : list (string * A)) : list A :=
  map snd (filter (fun e => (fst e =? tenant)%string) l).

Definition create (d : Device) (w : world) : option string * world :=
  if existsb (String.eqb (DevEui d)) (registered w)
  then (Some "object already exists", w)
  else (None, {| registered := (registered w ++ [DevEui d])%list; disk := disk w |}).

Definition dial (addr : string) (w : world) : (string + string) * world :=
  if (addr =? "localhost:8081")%string then (inr addr, w)
  else (inl "connection refused", w).

Definition open (path : string) (w : world)
  : string + option (list (list string)) :=
  match lookup path (disk w) with
  | Some f => inr f
  | None => inl "open: no such file or directory"
  end.

(** A file on this disk holds its records, and they are returned as they
    are; [Outage.readRecords] is the reader that, as [encoding/csv], returns
    neither a record without a cell nor records of unequal length. *)
Definition readAll (f : option (list (list string)))
  : string + list (list string) :=
  match f with
  | Some rows => inr rows
  | None => inl "record on line 1: wrong number of fields"
  end.

Definition newline : string := String (Ascii.ascii_of_nat 10) EmptyString.

(** The error of [handleConnect], in its two lines. *)
Definition connectError (addr e : string) : string :=
  "failed to connect to ChirpStack at " ++ addr ++ ": " ++ e ++ newline
  ++ "Make sure ChirpStack gRPC API is running on this address".

Definition services (cat : catalogue) : @Services platform :=
  @Build_Services platform
    dial
    (fun _ w => w)
    (fun _ _ _ w => (inr (tenants cat), w))
    (fun _ _ req w =>
       (inr (owned (ListApplications_TenantId req) (applications cat)), w))
    (fun _ _ req w =>
       (inr (owned (ListDeviceProfiles_TenantId req) (profiles cat)), w))
    (fun _ _ d w => create d w)
    open
    readAll
    connectError.

Definition tenantId : string := "52f14cd4-c6f1-4fbd-8f87-4025e1d49242".
Definition applicationId : string := "b1a9c0de-7d3a-4c2e-9a51-0c6f2e8d4f10".
Definition profileId : string := "9e3f6a72-15b8-4d0c-8f2b-6a7c1d5e9b34".

Definition office : catalogue :=
  {| tenants := [{| Tenant_Id := tenantId; Tenant_Name := "ChirpStack" |}];
     applications :=
       [(tenantId, {| Application_Id := applicationId;
                      Application_Name := "office";
                      Application_Description := "sensors of the office" |})];
     profiles :=
       [(tenantId, {| DeviceProfile_Id := profileId;
                      DeviceProfile_Name := "EU868 class A" |})] |}.

(** The same catalogue from a server that leaves the tenant's id out. *)
Definition sloppy : catalogue :=
  {| tenants := [{| Tenant_Id := ""; Tenant_Name := "ChirpStack" |}];
     applications :=
       [("", {| Application_Id := applicationId;
                Application_Name := "office";
                Application_Description := "sensors of the office" |})];
     profiles :=
       [("", {| DeviceProfile_Id := profileId;
                DeviceProfile_Name := "EU868 class A" |})] |}.

(** A header and five data rows; the third repeats the DevEUI of the first. *)
Definition devices : list (list string) :=
  [ ["dev_eui"; "name"; "description"];
    ["0102030405060701"; "sensor-1"; "hallway unit"];
    ["0102030405060702"; "sensor-2"; "lobby"];
    ["0102030405060701"; "sensor-3"; "stairs"];
    ["0102030405060704"; "sensor-4"; "roof"];
    ["0102030405060705"; "sensor-5"; "garage"] ].

Definition names : list (list string) :=
  [ ["04ABEF0123456789"; "sensor-1"];
    ["04ABEF012345678A"; "sensor-2"] ].

Definition home : world :=
  {| registered := [];
     disk := [ ("/home/op/devices.csv", Some devices);
               ("/home/op/names.csv", Some names);
               ("/home/op/euis.csv", Some [["04ABEF0123456789"]; ["04ABEF012345678A"]]);
               ("/home/op/blank.csv", Some [[]; ["04ABEF0123456789"; "sensor-1"]]);
               ("/home/op/notes.csv", None) ] |}.

(** A model past the three selections, as [handleEnter] leaves it. *)
Definition ready : @model platform widgets :=
  set_mstate stateFileSelect
    (set_selectedProfile profileId
       (set_selectedApp applicationId
          (set_selectedTenant tenantId
             (@set_clients platform widgets "localhost:8081"
                (set_apiToken "secret" initialModel))))).

Definition fresh : @Sys platform := @Build_Sys platform home [].

(** The model while the token is being typed. *)
Definition typing : @model platform widgets :=
  @set_tokenInput platform widgets "secre" initialModel.

Definition boot : @Program platform widgets := @start platform widgets home.

Definition officeServices : @Services platform := services office.
Definition sloppyServices : @Services platform := services sloppy.

Definition key (k : string) : @Msg platform := @KeyMsg platform k.
Definition listing (path : string) : @Msg platform := @ForeignMsg platform path.

(** The operator's session: token, Enter, and the selections as they load. *)
Definition session : list (@Action platform) :=
  [ Input (key "s"); Input (key "k"); Input (key "enter");
    Complete 1%nat;                    (* connectMsg *)
    Complete 1%nat;                    (* tenants loaded *)
    Input (key "enter");
    Complete 1%nat;                    (* applications loaded *)
    Input (key "enter");
    Complete 1%nat;                    (* device profiles loaded *)
    Input (key "enter");
    Input (listing "/home/op/devices.csv") ].

End Demo.

(** ** What a call needs

    The facts a model must have gathered before it may call the server, by
    the step that establishes them: 1 for the token, 2 for the clients. *)
Section Wiring.
Context {P : Platform} {W : Widgets}.

Definition level (n : nat) (m : model) : Prop :=
  ((1 <=? n)%nat = true -> apiToken m <> "")
  /\ ((2 <=? n)%nat = true -> connected m).

Definition stateLevel (st : state) : nat :=
  match st with
  | stateTenantSelect => 2
  | stateApplicationSelect => 2
  | stateDeviceProfileSelect => 2
  | stateFileSelect => 2
  | _ => 0
  end.

Definition cmdLevel (cmd : Cmd) : nat :=
  match cmd with
  | CmdConnect => 1
  | CmdLoadTenants _ => 2
  | CmdLoadApplications _ => 2
  | CmdLoadDeviceProfiles _ => 2
  | CmdProcessCSV _ _ => 2
  | _ => 0
  end.

Definition msgLevel (msg : Msg) : nat :=
  match msg with
  | connectMsg => 1
  | tenantsLoadedMsg _ => 2
  | appsLoadedMsg _ => 2
  | profilesLoadedMsg _ => 2
  | _ => 0
  end.

(** The model a command captured can make the command's calls. *)
Definition cmdWired (cmd : Cmd) : Prop :=
  match cmd with
  | CmdLoadTenants m => level 2 m
  | CmdLoadApplications m => level 2 m
  | CmdLoadDeviceProfiles m => level 2 m
  | CmdProcessCSV m _ => level 2 m
  | _ => True
  end.

(** Nothing established is lost from [m] to [m']. *)
Definition keeps (m m' : model) : Prop :=
  (apiToken m <> "" -> apiToken m' <> "")
  /\ (connected m -> connected m').

(** An event of the import that model [m] runs under context [ctx]. *)
Definition rowEvent (m : model) (ctx : string) (e : Event) : Prop :=
  match e with
  | EvCreate c d _ =>
    c = ctx
    /\ ApplicationId d = selectedApp m
    /\ DeviceProfileId d = selectedProfile m
    /\ IsDisabled d = false
  | EvLog _ _ => True
  | EvClose _ => False
  end.

(** A create call made under a bearer token that is not empty, for a device
    that is not disabled. *)
Definition authorised (e : Event) : Prop :=
  match e with
  | EvCreate c d _ =>
    (exists token, token <> "" /\ c = "Bearer " ++ token) /\ IsDisabled d = false
  | _ => True
  end.

(** A create call that names an application and a device profile. *)
Definition addressed (e : Event) : Prop :=
  match e with
  | EvCreate _ d _ => ApplicationId d <> "" /\ DeviceProfileId d <> ""
  | _ => True
  end.

End Wiring.

Section ProgramWiring.
Context {P : Platform} {W : Widgets} {Svc : Services}.

Definition Wired (p : Program) : Prop :=
  level (stateLevel (mstate (current p))) (current p)
  /\ Forall (fun cmd => cmdWired cmd /\ level (cmdLevel cmd) (current p)) (pending p).

End ProgramWiring.

(** ** An installation with troubles

    The office's installation with a server that cannot be reached, and with
    one that refuses every list call. *)
Module Outage.

Definition unreachable : @Services Demo.platform :=
  @Build_Services Demo.platform
    (fun _ w => (inl "connection refused", w))
    (fun _ w => w)
    (fun _ _ _ w => (inr (Demo.tenants Demo.office), w))
    (fun _ _ req w =>
       (inr (Demo.owned (ListApplications_TenantId req)
               (Demo.applications Demo.office)), w))
    (fun _ _ req w =>
       (inr (Demo.owned (ListDeviceProfiles_TenantId req)
               (Demo.profiles Demo.office)), w))
    (fun _ _ d w => Demo.create d w)
    Demo.open
    Demo.readAll
    Demo.connectError.

Definition unauthenticated : @Services Demo.platform :=
  @Build_Services Demo.platform
    Demo.dial
    (fun _ w => w)
    (fun _ _ _ w => (inl "authentication failed", w))
    (fun _ _ _ w => (inl "authentication failed", w))
    (fun _ _ _ w => (inl "authentication failed", w))
    (fun _ _ d w => Demo.create d w)
    Demo.open
    Demo.readAll
    Demo.connectError.

(** The file picker's report that it cannot read its directory: a message
    of its package that is an error. *)
Definition unreadable : @Msg Demo.platform :=
  @ForeignMsg Demo.platform "open /home/op: permission denied".

(** Enter pressed twice on the token, the selections, a directory that the
    picker cannot read, and then the second connection. *)
Definition impatient : list (@Action Demo.platform) :=
  [ Input (Demo.key "s"); Input (Demo.key "enter"); Input (Demo.key "enter");
    Complete 1%nat;                    (* the first connectMsg *)
    Complete 2%nat;                    (* tenants loaded *)
    Input (Demo.key "enter");
    Complete 2%nat;                    (* applications loaded *)
    Input (Demo.key "enter");
    Complete 2%nat;                    (* device profiles loaded *)
    Input (Demo.key "enter");          (* the file selection opens *)
    Input unreadable;                  (* taken for an [errorMsg]: Error *)
    Complete 1%nat ].                  (* the second connectMsg *)

(** A program with one command pending. *)
Definition waiting (cmd : @Cmd Demo.platform Demo.widgets)
  : @Program Demo.platform Demo.widgets :=
  {| current := Demo.ready; pending := [cmd]; system := Demo.fresh; phase := Running |}.

(** A reader that, as [encoding/csv], leaves out the blank lines, so that
    no record is without a cell, and fails on a record that has not as many
    fields as the first. *)
Definition readRecords (f : option (list (list string)))
  : string + list (list string) :=
  match f with
  | Some rows =>
    let records := filter (fun row => negb (List.length row =? 0)%nat) rows in
    match records with
    | [] => inr []
    | first :: rest =>
      if forallb (fun row => (List.length row =? List.length first)%nat) rest
      then inr records
      else inl "record on line 2: wrong number of fields"
    end
  | None => inl "record on line 1: wrong number of fields"
  end.

Definition careful : @Services Demo.platform :=
  @Build_Services Demo.platform
    Demo.dial
    (fun _ w => w)
    (fun _ _ _ w => (inr (Demo.tenants Demo.office), w))
    (fun _ _ req w =>
       (inr (Demo.owned (ListApplications_TenantId req)
               (Demo.applications Demo.office)), w))
    (fun _ _ req w =>
       (inr (Demo.owned (ListDeviceProfiles_TenantId req)
               (Demo.profiles Demo.office)), w))
    (fun _ _ d w => Demo.create d w)
    Demo.open
    readRecords
    Demo.connectError.

(** Where a schedule takes the program from its start. *)
Definition outcome (Svc : @Services Demo.platform)
  (schedule : list (@Action Demo.platform)) : @Program Demo.platform Demo.widgets :=
  match @run Demo.platform Demo.widgets Svc Demo.boot schedule with
  | Some p => p
  | None => Demo.boot
  end.

(** The operator's session up to its [n]-th step. *)
Definition after (n : nat) : @Program Demo.platform Demo.widgets :=
  outcome Demo.officeServices (firstn n Demo.session).

(** The session with the import of [devices.csv] completed. *)
Definition through : list (@Action Demo.platform) :=
  (Demo.session ++ [Complete 2%nat])%list.

(** The session with [blank.csv] chosen and imported. *)
Definition blank : list (@Action Demo.platform) :=
  (firstn 10 Demo.session
   ++ [Input (Demo.listing "/home/op/blank.csv"); Complete 2%nat])%list.

End Outage.

(** ** The installation with the file picker as shipped

    The widgets of [Demo] with a file picker that, as the one of
    [filepicker.New], selects the file under the cursor on the key "enter"
    and on nothing else. *)
Module Stock.

Definition picked (fp : string) (msg : @Msg Demo.platform) : bool * string :=
  match msg with
  | KeyMsg k => if (k =? "enter")%string then (true, fp) else (false, "")
  | _ => (false, "")
  end.

Definition widgets : @Widgets Demo.platform :=
  {| TextInput := string;
     textinput_New := "";
     textinput_Value := fun t => t;
     textinput_Update := fun t msg => (Demo.typed t msg, None);
     ListModel := option (list item) * nat;
     list_zero := (None, 0%nat);
     list_New := fun items _ _ => (Some items, 0%nat);
     list_SetTitle := fun _ l => l;
     list_SetSize := fun _ _ l => l;
     list_Items := fun l => fst l;
     list_SelectedItem := Demo.selected;
     list_Update := fun l msg => (Demo.moved l msg, None);
     FilePicker := string;             (* the file under the cursor *)
     filepicker_New := "/home/op/devices.csv";
     filepicker_Init := fun _ => Some tt;
     filepicker_Update := fun fp _ => (fp, None);
     filepicker_DidSelectFile := picked;
     textinput_Blink := tt |}.

Definition boot : @Program Demo.platform widgets :=
  @start Demo.platform widgets Demo.home.

(** The operator's session: token, Enter, the selections as they load, and
    Enter on [devices.csv], twice. *)
Definition session : list (@Action Demo.platform) :=
  [ Input (Demo.key "s"); Input (Demo.key "k"); Input (Demo.key "enter");
    Complete 1%nat;                    (* connectMsg *)
    Complete 1%nat;                    (* tenants loaded *)
    Input (Demo.key "enter");
    Complete 1%nat;                    (* applications loaded *)
    Input (Demo.key "enter");
    Complete 1%nat;                    (* device profiles loaded *)
    Input (Demo.key "enter");          (* the file selection opens *)
    Input (Demo.key "enter");          (* Enter on the file *)
    Input (Demo.key "enter") ].

(** Where the session leaves the program. *)
Definition left : @Program Demo.platform widgets :=
  match @run Demo.platform widgets Demo.officeServices boot session with
  | Some p => p
  | None => boot
  end.

End Stock.


(** * Properties *)

(** ** Hexadecimal strings *)

Lemma hexDigits_eq :
  hexDigits = [48; 49; 50; 51; 52; 53; 54; 55; 56; 57;
               97; 98; 99; 100; 101; 102; 65; 66; 67; 68; 69; 70].
Proof. reflexivity. Qed.

Lemma isHexRune_hexDigits (c : Z) : isHexRune c = true <-> In c hexDigits.
Proof.
  rewrite hexDigits_eq. unfold isHexRune. simpl In.
  rewrite !orb_true_iff, !andb_true_iff, !Z.leb_le. lia.
Qed.

Lemma allHexRunes_Forall (cs : list Z) :
  allHexRunes cs = true <-> Forall (fun c => In c hexDigits) cs.
Proof.
  induction cs as [|c cs IH]; simpl.
  - split; [constructor | reflexivity].
  - destruct (isHexRune c) eqn:Hc; simpl.
    + rewrite IH. split.
      * intro H. constructor; [now apply isHexRune_hexDigits | exact H].
      * intro H. now inversion H.
    + split; [discriminate|].
      intro H. inversion H as [|? ? Hin _]; subst.
      apply isHexRune_hexDigits in Hin. congruence.
Qed.

Lemma isHexString_pureHex (s : string) : isHexString s = true <-> pureHex s.
Proof.
  unfold isHexString, pureHex. destruct s as [|a s].
  - simpl. split; [discriminate | intros [H _]; now elim H].
  - cbn [String.length Nat.eqb]. rewrite allHexRunes_Forall.
    split; [intro H; split; [discriminate | exact H] | now intros [_ H]].
Qed.

(** *** Runes and bytes

    The test never accepts a rune above ASCII, and a byte above 0x7F never
    starts the encoding of an ASCII rune: the string passes exactly when it
    is non-empty and each of its bytes is a hexadecimal digit. *)

Lemma lor_lower_l (a b : Z) : 0 <= b -> a <= Z.lor a b.
Proof.
  intro Hb. pose proof (Zbitwise.Z.sub_lor_l_same_l b a) as H.
  assert (0 <= Z.land b (Z.lnot a)) by (apply Z.land_nonneg; now left).
  lia.
Qed.

Lemma lor_lower_r (a b : Z) : 0 <= a -> b <= Z.lor a b.
Proof. intro Ha. rewrite Z.lor_comm. now apply lor_lower_l. Qed.

Lemma low_nonneg (k b : Z) : 0 <= b -> 0 <= Utf8.low k b.
Proof. intro H. unfold Utf8.low. apply Z.land_nonneg. now left. Qed.

Lemma low_mod (k b : Z) : 0 <= k -> Utf8.low k b = b mod 2 ^ k.
Proof. intro H. unfold Utf8.low. now apply Z.land_ones. Qed.

(** The payload bits of a leading byte put the rune above ASCII. *)
Lemma lead_bits (k n b rest : Z) :
  0 <= b -> 0 <= rest -> 0 <= k -> 0 <= n ->
  128 <= (b mod 2 ^ k) * 2 ^ n ->
  128 <= Z.lor (Z.shiftl (Utf8.low k b) n) rest.
Proof.
  intros Hb Hrest Hk Hn Hbits.
  rewrite low_mod, Z.shiftl_mul_pow2 by assumption.
  pose proof (lor_lower_l (b mod 2 ^ k * 2 ^ n) rest Hrest). lia.
Qed.

Ltac nonneg :=
  repeat first [ apply Z.lor_nonneg; split
               | apply Z.shiftl_nonneg
               | apply low_nonneg
               | lia ].

Ltac powers :=
  repeat match goal with
         | |- context [2 ^ ?n] =>
           let v := eval vm_compute in (2 ^ n) in change (2 ^ n) with v
         end.

Ltac division := Z.to_euclidean_division_equations; lia.

Lemma decode_high (b0 : Z) (t0 : list Z) :
  128 <= b0 ->
  Forall (fun b => 0 <= b) t0 ->
  exists r rest, Utf8.decode (b0 :: t0) = r :: rest /\ 128 <= r.
Proof.
  intros Hb0 Ht0.
  assert (Herr : forall l, exists r rest,
               Utf8.RuneError :: l = r :: rest /\ 128 <= r).
  { intro l. exists Utf8.RuneError, l.
    split; [reflexivity | unfold Utf8.RuneError; lia]. }
  cbn [Utf8.decode].
  destruct (b0 <? 128) eqn:Hlow; [apply Z.ltb_lt in Hlow; lia|].
  destruct (Utf8.lead b0) as [[[sz lo] hi]|] eqn:Hlead; [|apply Herr].
  destruct t0 as [|b1 t1]; [apply Herr|].
  destruct (Utf8.between lo hi b1) eqn:Hb1; [|apply Herr].
  inversion Ht0 as [|? ? Hb1pos Ht1]; subst.
  unfold Utf8.lead, Utf8.between in Hlead, Hb1.
  apply andb_true_iff in Hb1. destruct Hb1 as [Hlo Hhi].
  apply Z.leb_le in Hlo, Hhi.
  repeat match type of Hlead with
         | (if ?c then _ else _) = _ =>
           destruct c eqn:?; [inversion Hlead; subst; clear Hlead|]
         end; try discriminate;
    repeat match goal with
           | H : (_ && _)%bool = true |- _ => apply andb_true_iff in H; destruct H
           | H : (_ <=? _) = true |- _ => apply Z.leb_le in H
           | H : (_ =? _) = true |- _ => apply Z.eqb_eq in H
           end.
  all: cbn match.
  all: repeat match goal with
              | |- context [match ?t with [] => _ | _ :: _ => _ end] =>
                destruct t; [try apply Herr|]
              | |- context [if ?c then _ else _] =>
                destruct c; [|try apply Herr]
              end.
  all: try apply Herr.
  all: repeat match goal with
              | H : Forall _ (_ :: _) |- _ => inversion H; subst; clear H
              end.
  all: eexists; eexists; (split; [reflexivity|]).
  all: first
         [ solve [apply lead_bits; [lia | nonneg | lia | lia | powers; division]]
         | (etransitivity; [|apply lor_lower_r; nonneg]);
           apply lead_bits; [lia | nonneg | lia | lia | powers; division] ].
Qed.

Lemma isHexRune_ascii (c : Z) : 128 <= c -> isHexRune c = false.
Proof.
  intro H. unfold isHexRune.
  rewrite !orb_false_iff, !andb_false_iff, !Z.leb_gt. lia.
Qed.

Lemma allHexRunes_decode (bs : list Z) :
  Forall (fun b => 0 <= b) bs ->
  allHexRunes (Utf8.decode bs) = forallb isHexRune bs.
Proof.
  induction bs as [|b0 t0 IH]; intro Hpos; [reflexivity|].
  inversion Hpos as [|? ? Hb0 Ht0]; subst.
  destruct (Z.ltb_spec b0 128) as [Hlow|Hhigh].
  - cbn [Utf8.decode]. apply Z.ltb_lt in Hlow. rewrite Hlow.
    cbn [allHexRunes forallb]. rewrite IH by exact Ht0.
    now destruct (isHexRune b0).
  - destruct (decode_high b0 t0 Hhigh Ht0) as (r & rest & Heq & Hr).
    rewrite Heq. cbn [allHexRunes forallb].
    now rewrite (isHexRune_ascii r Hr), (isHexRune_ascii b0 Hhigh).
Qed.

Lemma bytes_nonneg (s : string) : Forall (fun b => 0 <= b) (Utf8.bytes s).
Proof.
  unfold Utf8.bytes. apply Forall_map. apply Forall_forall.
  intros a _. apply N2Z.is_nonneg.
Qed.

Lemma isHexString_bytes (s : string) :
  isHexString s
  = negb (String.length s =? 0)%nat && forallb isHexRune (Utf8.bytes s).
Proof.
  unfold isHexString, Utf8.runes.
  rewrite allHexRunes_decode by apply bytes_nonneg.
  now destruct (String.length s =? 0)%nat.
Qed.

Example isHexString_header : isHexString "dev_eui" = false.
Proof. reflexivity. Qed.

Example isHexString_eui : isHexString "04ABEF01" = true.
Proof. reflexivity. Qed.

Example isHexString_empty : isHexString "" = false.
Proof. reflexivity. Qed.

(** A character outside ASCII is never a hexadecimal digit. *)
Example isHexString_accent : isHexString (String (ascii_of_nat 195) (String (ascii_of_nat 169) "")) = false.
Proof. reflexivity. Qed.

(** ** The loop over the rows *)

Section Loop.
Context {P : Platform} {W : Widgets} {Svc : Services}.

Lemma skipn_nth_error {A : Type} (l : list A) (i : nat) (a : A) :
  nth_error l i = Some a -> skipn i l = a :: skipn (S i) l.
Proof.
  revert i. induction l as [|x l IH]; intros [|i] H; simpl in *; try discriminate.
  - now inversion H.
  - now apply IH.
Qed.

(** With [len(records)] iterations at hand the loop visits every row from
    [i] on: it is the body run over [records[i:]]. *)
Lemma rowsLoop_forRows (m : model) (ctx : string) (records : list (list string)) :
  forall (fuel i : nat) (created : Z) (s : Sys),
    (List.length records - i <= fuel)%nat ->
    rowsLoop fuel m ctx records i created s
    = forRows m ctx (skipn i records) created s.
Proof.
  induction fuel as [|fuel IH]; intros i created s Hfuel.
  - rewrite skipn_all2 by lia. reflexivity.
  - cbn [rowsLoop]. destruct (i <? List.length records)%nat eqn:Hi.
    + apply Nat.ltb_lt in Hi.
      destruct (nth_error records i) as [record|] eqn:Hrow.
      2:{ apply nth_error_None in Hrow. lia. }
      rewrite (skipn_nth_error _ _ _ Hrow). cbn [forRows].
      unfold bind, index. rewrite Hrow. unfold ret.
      destruct (createRow m ctx record created s) as [[created'|e] s']; [|reflexivity].
      apply IH. lia.
    + apply Nat.ltb_ge in Hi. rewrite skipn_all2 by lia. reflexivity.
Qed.

Lemma processCSV_read (m : model) (path : string) (s : Sys) (file : File)
  (records : list (list string)) :
  os_Open path (remote s) = inr file ->
  csv_ReadAll file = inr records ->
  processCSV m path s
  = (start <- headerStart records ;;
     created <- forRows m (outgoingContext m) (skipn start records) 0 ;;
     ret (devicesCreatedMsg created)) s.
Proof.
  intros Hopen Hread. unfold processCSV, bind, peek. rewrite Hopen, Hread.
  destruct (headerStart records s) as [[start|e] s1]; [|reflexivity].
  rewrite rowsLoop_forRows by lia. reflexivity.
Qed.

Lemma headerStart_empty (s : Sys) : headerStart [] s = (Returned 0%nat, s).
Proof. reflexivity. Qed.

Lemma headerStart_cell (cell : string) (row : list string)
  (rest : list (list string)) (s : Sys) :
  headerStart ((cell :: row) :: rest) s
  = (Returned (if isHexString cell then 0%nat else 1%nat), s).
Proof.
  unfold headerStart, bind, index, ret. simpl.
  now destruct (isHexString cell).
Qed.

Lemma headerStart_blank (rest : list (list string)) (s : Sys) :
  headerStart ([] :: rest) s = (Panicked IndexOutOfRange, s).
Proof. reflexivity. Qed.

Lemma headerStart_returns (records : list (list string)) (s : Sys) :
  headerInBounds records ->
  exists start : nat, headerStart records s = (Returned start, s).
Proof.
  intro Hbounds. destruct records as [|[|cell row] rest].
  - eexists. apply headerStart_empty.
  - now elim (Hbounds rest).
  - eexists. apply headerStart_cell.
Qed.

End Loop.

(** ** One row *)

Lemma GoInt_wrap_fits (z : Z) : GoInt.fits z -> GoInt.wrap z = z.
Proof.
  unfold GoInt.fits, GoInt.min, GoInt.max, GoInt.wrap. intro H.
  rewrite Z.mod_small by lia. lia.
Qed.

Lemma GoInt_add_1 (z : Z) :
  GoInt.min <= z -> z + 1 <= GoInt.max -> GoInt.add z 1 = z + 1.
Proof.
  intros Hlo Hhi. unfold GoInt.add. apply GoInt_wrap_fits.
  unfold GoInt.fits. lia.
Qed.

Section Row.
Context {P : Platform} {W : Widgets} {Svc : Services}.

Lemma sys_eta (s : Sys) : {| remote := remote s; events := (events s ++ [])%list |} = s.
Proof. destruct s. simpl. now rewrite app_nil_r. Qed.

Lemma createRow_short (m : model) (ctx : string) (record : list string)
  (created : Z) (s : Sys) :
  (List.length record < 2)%nat ->
  createRow m ctx record created s = (Returned created, s).
Proof.
  intro H. unfold createRow.
  apply Nat.ltb_lt in H. now rewrite H.
Qed.

Lemma createRow_call (m : model) (ctx : string) (record : list string)
  (created : Z) (s : Sys) (conn : Conn) :
  deviceClient m = Some conn ->
  (2 <= List.length record)%nat ->
  createRow m ctx record created s
  = let device := specDevice (selectedApp m) (selectedProfile m) record in
    match DeviceService_Create conn ctx device (remote s) with
    | (None, w) =>
      (Returned (GoInt.add created 1),
       {| remote := w; events := (events s ++ [EvCreate ctx device None])%list |})
    | (Some e, w) =>
      (Returned created,
       {| remote := w;
          events := (events s ++ [EvCreate ctx device (Some e);
                                  EvLog (DevEui device) e])%list |})
    end.
Proof.
  intros Hconn Hlen.
  destruct record as [|devEui [|name rest]]; simpl in Hlen; try lia.
  unfold createRow, specDevice. rewrite Hconn.
  destruct rest as [|description rest]; simpl;
    unfold bind, call, emit, ret; simpl;
    (match goal with
     | |- context [DeviceService_Create ?c ?x ?d ?w] =>
       destruct (DeviceService_Create c x d w) as [[e|] w1]
     end; simpl; [now rewrite <- app_assoc | reflexivity]).
Qed.

Lemma createRow_nil (m : model) (ctx : string) (record : list string)
  (created : Z) (s : Sys) :
  deviceClient m = None ->
  (2 <= List.length record)%nat ->
  createRow m ctx record created s = (Panicked NilDereference, s).
Proof.
  intros Hconn Hlen.
  destruct record as [|devEui [|name rest]]; simpl in Hlen; try lia.
  unfold createRow. rewrite Hconn.
  destruct rest; reflexivity.
Qed.

(** The guards of the body keep its three index expressions in bounds. *)
Lemma createRow_in_bounds (m : model) (ctx : string) (record : list string)
  (created : Z) (s : Sys) :
  fst (createRow m ctx record created s) <> Panicked IndexOutOfRange.
Proof.
  destruct (Nat.lt_ge_cases (List.length record) 2) as [Hshort|Hlong].
  - rewrite createRow_short by exact Hshort. discriminate.
  - destruct (deviceClient m) as [conn|] eqn:Hconn.
    + rewrite (createRow_call _ _ _ _ _ conn Hconn Hlong). cbv zeta.
      match goal with
      | |- context [DeviceService_Create ?c ?x ?d ?w] =>
        destruct (DeviceService_Create c x d w) as [[e|] w1]
      end; discriminate.
    + rewrite createRow_nil by assumption. discriminate.
Qed.

Lemma forRows_in_bounds (m : model) (ctx : string) (rows : list (list string)) :
  forall (created : Z) (s : Sys),
    fst (forRows m ctx rows created s) <> Panicked IndexOutOfRange.
Proof.
  induction rows as [|record rows IH]; intros created s; cbn [forRows].
  - discriminate.
  - unfold bind.
    pose proof (createRow_in_bounds m ctx record created s) as Hrow.
    destruct (createRow m ctx record created s) as [[created'|[|]] s']; simpl in *.
    + apply IH.
    + congruence.
    + discriminate.
Qed.

End Row.

(** ** Header detection *)

Section Header.
Context {P : Platform} {W : Widgets} {Svc : Services}.

(** C2. Header detection: once the file is read into [records], the rows
    processed are [records] from index [start] on, where [start] is 1 exactly
    when the list is non-empty and the first cell of row 0 is not a non-empty
    string of the characters 0-9, a-f, A-F, and 0 otherwise; a first cell
    "dev_eui" makes row 0 a skipped header and a first cell "04ABEF01" makes
    it data. *)
Theorem header_detection (m : model) (path : string) (s : Sys) (file : File)
  (records : list (list string)) :
  os_Open path (remote s) = inr file ->
  csv_ReadAll file = inr records ->
  headerInBounds records ->
  exists start : nat,
    headerStart records s = (Returned start, s)
    /\ processCSV m path s
       = (created <- forRows m (outgoingContext m) (skipn start records) 0 ;;
          ret (devicesCreatedMsg created)) s
    /\ (start = 1%nat \/ start = 0%nat)
    /\ (start = 1%nat <->
        exists cell row rest, records = (cell :: row) :: rest /\ ~ pureHex cell)
    /\ (forall row rest, records = ("dev_eui" :: row) :: rest -> start = 1%nat)
    /\ (forall row rest, records = ("04ABEF01" :: row) :: rest -> start = 0%nat).
Proof.
  intros Hopen Hread Hbounds.
  destruct records as [|[|cell row] rest].
  - exists 0%nat. repeat split; try discriminate.
    + rewrite (processCSV_read _ _ _ _ _ Hopen Hread). reflexivity.
    + now right.
    + intros (cell & row & rest & H & _). discriminate.
  - now elim (Hbounds rest).
  - exists (if isHexString cell then 0%nat else 1%nat).
    split; [apply headerStart_cell|].
    split.
    { rewrite (processCSV_read _ _ _ _ _ Hopen Hread).
      unfold bind at 1. now rewrite headerStart_cell. }
    destruct (isHexString cell) eqn:Hhex.
    + repeat split; try discriminate.
      * now right.
      * intros (cell' & row' & rest' & Heq & Hnot). inversion Heq; subst.
        elim Hnot. now apply isHexString_pureHex.
      * intros row' rest' Heq. inversion Heq; subst. discriminate.
    + repeat split.
      * now left.
      * intros _. exists cell, row, rest. split; [reflexivity|].
        intro Hpure. apply isHexString_pureHex in Hpure. congruence.
      * intros row' rest' Heq. inversion Heq; subst. discriminate.
Qed.

(** C9. Header-detection indexing safety: [records[0][0]] is guarded by
    [len(records) > 0] alone.  An empty list is not indexed; a first row with
    a cell is indexed in bounds and the import goes on; a first row with no
    cell is the one shape on which the index is out of range, and the only
    way [processCSV] panics with an index out of range. *)
Theorem header_index_safety (m : model) (path : string) (s : Sys) (file : File)
  (records : list (list string)) :
  os_Open path (remote s) = inr file ->
  csv_ReadAll file = inr records ->
  (records = [] -> headerStart records s = (Returned 0%nat, s))
  /\ (forall cell row rest,
        records = (cell :: row) :: rest ->
        exists start, headerStart records s = (Returned start, s))
  /\ (headerStart records s = (Panicked IndexOutOfRange, s) <->
      exists rest, records = [] :: rest)
  /\ (fst (processCSV m path s) = Panicked IndexOutOfRange <->
      exists rest, records = [] :: rest).
Proof.
  intros Hopen Hread.
  split; [intros ->; apply headerStart_empty|].
  split.
  { intros cell row rest ->. eexists. apply headerStart_cell. }
  rewrite (processCSV_read _ _ _ _ _ Hopen Hread).
  destruct records as [|[|cell row] rest].
  - split; (split; [discriminate | intros [rest H]; discriminate]).
  - split; (split; [intros _; now exists rest | reflexivity]).
  - split.
    + rewrite headerStart_cell.
      split; [discriminate | intros [rest' H]; discriminate].
    + unfold bind at 1. rewrite headerStart_cell.
      split; [|intros [rest' H]; discriminate].
      unfold bind.
      pose proof (forRows_in_bounds m (outgoingContext m)
                    (skipn (if isHexString cell then 0%nat else 1%nat)
                           ((cell :: row) :: rest)) 0 s) as Hloop.
      destruct (forRows m (outgoingContext m)
                  (skipn (if isHexString cell then 0%nat else 1%nat)
                         ((cell :: row) :: rest)) 0 s) as [[created|e] s'];
        simpl in *; [discriminate | congruence].
Qed.

(** On the rows [encoding/csv] returns, which have a cell each, the import
    never indexes out of range. *)
Lemma processCSV_in_bounds (m : model) (path : string) (s : Sys) :
  (forall file records,
      csv_ReadAll file = inr records -> Forall (fun row => row <> []) records) ->
  fst (processCSV m path s) <> Panicked IndexOutOfRange.
Proof.
  intro Hcsv.
  destruct (os_Open path (remote s)) as [e|file] eqn:Hopen.
  { unfold processCSV, bind, peek. rewrite Hopen. discriminate. }
  destruct (csv_ReadAll file) as [e|records] eqn:Hread.
  { unfold processCSV, bind, peek. rewrite Hopen, Hread. discriminate. }
  rewrite (processCSV_read _ _ _ _ _ Hopen Hread).
  assert (Hbounds : headerInBounds records).
  { intros rest ->. pose proof (Hcsv _ _ Hread) as Hrows.
    inversion Hrows as [|? ? Hrow _]; subst. now apply Hrow. }
  destruct (headerStart_returns records s Hbounds) as [start Hstart].
  unfold bind at 1. rewrite Hstart. unfold bind.
  pose proof (forRows_in_bounds m (outgoingContext m) (skipn start records) 0 s) as Hloop.
  destruct (forRows m (outgoingContext m) (skipn start records) 0 s) as [[created|e] s'];
    simpl in *; [discriminate | congruence].
Qed.

End Header.

(** ** The batch *)

Section Batch.
Context {P : Platform} {W : Widgets} {Svc : Services}.

Lemma createCalls_app (es1 es2 : list Event) :
  createCalls (es1 ++ es2) = (createCalls es1 ++ createCalls es2)%list.
Proof.
  induction es1 as [|[c d r|d e|c] es1 IH]; simpl; now rewrite ?IH.
Qed.

Lemma logLines_app (es1 es2 : list Event) :
  logLines (es1 ++ es2) = (logLines es1 ++ logLines es2)%list.
Proof.
  induction es1 as [|[c d r|d e|c] es1 IH]; simpl; now rewrite ?IH.
Qed.

(** What the body run over [rows] leaves behind: one create call per row
    with at least 2 cells, in row order and whatever the earlier calls
    returned; one log line per failed call; the counter raised by the number
    of calls that succeeded. *)
Lemma forRows_trace (m : model) (ctx : string) (conn : Conn)
  (rows : list (list string)) :
  deviceClient m = Some conn ->
  forall (created : Z) (s : Sys),
    GoInt.min <= created ->
    created + Z.of_nat (List.length rows) <= GoInt.max ->
    exists (created' : Z) (w : World) (es : list Event),
      forRows m ctx rows created s
      = (Returned created', {| remote := w; events := (events s ++ es)%list |})
      /\ map fst (createCalls es)
         = map (specDevice (selectedApp m) (selectedProfile m))
               (filter qualifies rows)
      /\ created'
         = created + Z.of_nat (List.length (filter succeeded (createCalls es)))
      /\ logLines es = failures (createCalls es)
      /\ Forall (batchEvent ctx) es.
Proof.
  intro Hconn. induction rows as [|record rows IH]; intros created s Hlo Hhi.
  - exists created, (remote s), []. cbn [forRows]. unfold ret.
    rewrite sys_eta. simpl. repeat split; [lia | constructor].
  - cbn [forRows]. unfold bind. cbn [List.length] in Hhi.
    cbn [filter]. unfold qualifies at 1.
    destruct (2 <=? List.length record)%nat eqn:Hq.
    + apply Nat.leb_le in Hq.
      rewrite (createRow_call _ _ _ _ _ conn Hconn Hq). cbv zeta.
      set (device := specDevice (selectedApp m) (selectedProfile m) record).
      destruct (DeviceService_Create conn ctx device (remote s)) as [[e|] w1].
      * destruct (IH created
                    {| remote := w1;
                       events := (events s ++ [EvCreate ctx device (Some e);
                                               EvLog (DevEui device) e])%list |})
          as (created' & w & es & Hrun & Hcalls & Hcount & Hlog & Hctx);
          [lia | lia |].
        exists created', w,
          ([EvCreate ctx device (Some e); EvLog (DevEui device) e] ++ es)%list.
        rewrite Hrun. cbn [events remote]. rewrite <- app_assoc.
        split; [reflexivity|]. simpl.
        rewrite Hcalls, Hlog. repeat split; try assumption.
        repeat constructor. exact Hctx.
      * destruct (IH (GoInt.add created 1)
                    {| remote := w1;
                       events := (events s ++ [EvCreate ctx device None])%list |})
          as (created' & w & es & Hrun & Hcalls & Hcount & Hlog & Hctx);
          [rewrite GoInt_add_1 by lia; lia | rewrite GoInt_add_1 by lia; lia |].
        exists created', w, ([EvCreate ctx device None] ++ es)%list.
        rewrite Hrun. cbn [events remote]. rewrite <- app_assoc.
        split; [reflexivity|]. simpl.
        rewrite Hcalls, Hlog. repeat split; try assumption.
        -- rewrite Hcount, GoInt_add_1 by lia. lia.
        -- repeat constructor. exact Hctx.
    + apply Nat.leb_gt in Hq.
      rewrite createRow_short by exact Hq.
      apply IH; lia.
Qed.

(** The calls in the trace of the loop are the calls the service received:
    sent to it again from the world the loop started in, the requests of the
    trace give the results of the trace and the world the loop left. *)
Lemma forRows_served (m : model) (ctx : string) (conn : Conn)
  (rows : list (list string)) :
  deviceClient m = Some conn ->
  forall (created : Z) (s : Sys),
    exists (created' : Z) (w : World) (es : list Event),
      forRows m ctx rows created s
      = (Returned created', {| remote := w; events := (events s ++ es)%list |})
      /\ served conn ctx (map fst (createCalls es)) (remote s)
         = (map snd (createCalls es), w).
Proof.
  intro Hconn. induction rows as [|record rows IH]; intros created s.
  - exists created, (remote s), []. cbn [forRows]. unfold ret.
    rewrite sys_eta. split; reflexivity.
  - cbn [forRows]. unfold bind.
    destruct (Nat.lt_ge_cases (List.length record) 2) as [Hshort|Hlong].
    + rewrite createRow_short by exact Hshort. apply IH.
    + rewrite (createRow_call _ _ _ _ _ conn Hconn Hlong). cbv zeta.
      set (device := specDevice (selectedApp m) (selectedProfile m) record).
      destruct (DeviceService_Create conn ctx device (remote s)) as [[e|] w1] eqn:Hcall.
      * destruct (IH created
                    {| remote := w1;
                       events := (events s ++ [EvCreate ctx device (Some e);
                                               EvLog (DevEui device) e])%list |})
          as (created' & w & es & Hrun & Hserved).
        exists created', w,
          ([EvCreate ctx device (Some e); EvLog (DevEui device) e] ++ es)%list.
        rewrite Hrun. cbn [events remote] in *. rewrite <- app_assoc.
        split; [reflexivity|]. cbn [app createCalls map fst snd served].
        now rewrite Hcall, Hserved.
      * destruct (IH (GoInt.add created 1)
                    {| remote := w1;
                       events := (events s ++ [EvCreate ctx device None])%list |})
          as (created' & w & es & Hrun & Hserved).
        exists created', w, ([EvCreate ctx device None] ++ es)%list.
        rewrite Hrun. cbn [events remote] in *. rewrite <- app_assoc.
        split; [reflexivity|]. cbn [app createCalls map fst snd served].
        now rewrite Hcall, Hserved.
Qed.

(** A row with fewer than 2 cells changes nothing, wherever it stands. *)
Lemma forRows_skip (m : model) (ctx : string) (record : list string)
  (pre post : list (list string)) :
  (List.length record < 2)%nat ->
  forall (created : Z) (s : Sys),
    forRows m ctx (pre ++ record :: post) created s
    = forRows m ctx (pre ++ post) created s.
Proof.
  intro Hshort. induction pre as [|r pre IH]; intros created s; simpl.
  - unfold bind. now rewrite createRow_short by exact Hshort.
  - unfold bind.
    destruct (createRow m ctx r created s) as [[created'|e] s']; [apply IH | reflexivity].
Qed.

End Batch.

Section Importer.
Context {P : Platform} {W : Widgets} {Svc : Services}.

Lemma calls_split (calls : list (Device * option Err)) :
  List.length calls
  = (List.length (filter succeeded calls) + List.length (failures calls))%nat.
Proof.
  induction calls as [|[d [e|]] calls IH]; simpl; unfold succeeded in *; simpl; lia.
Qed.

(** What the import returns once the file is read and the header test is in
    bounds. *)
Lemma processCSV_trace (m : model) (path : string) (s : Sys) (file : File)
  (records : list (list string)) (conn : Conn) :
  os_Open path (remote s) = inr file ->
  csv_ReadAll file = inr records ->
  headerInBounds records ->
  deviceClient m = Some conn ->
  Z.of_nat (List.length records) <= GoInt.max ->
  exists (start : nat) (created : Z) (w : World) (es : list Event),
    headerStart records s = (Returned start, s)
    /\ processCSV m path s
       = (Returned (devicesCreatedMsg created),
          {| remote := w; events := (events s ++ es)%list |})
    /\ map fst (createCalls es)
       = map (specDevice (selectedApp m) (selectedProfile m))
             (filter qualifies (skipn start records))
    /\ created = Z.of_nat (List.length (filter succeeded (createCalls es)))
    /\ logLines es = failures (createCalls es)
    /\ Forall (batchEvent (outgoingContext m)) es.
Proof.
  intros Hopen Hread Hbounds Hconn Hfits.
  destruct (headerStart_returns records s Hbounds) as (start & Hstart).
  pose proof (processCSV_read m path s file records Hopen Hread) as Hrun.
  unfold bind at 1 in Hrun. rewrite Hstart in Hrun.
  destruct (forRows_trace m (outgoingContext m) conn (skipn start records) Hconn 0 s)
    as (created & w & es & Hrows & Hcalls & Hcount & Hlog & Hctx).
  - unfold GoInt.min. lia.
  - pose proof (firstn_skipn start records) as Hsplit.
    apply (f_equal (@List.length _)) in Hsplit. rewrite length_app in Hsplit. lia.
  - exists start, created, w, es. rewrite Hrun. unfold bind. rewrite Hrows.
    repeat split; assumption.
Qed.

End Importer.

Section Claims.
Context {P : Platform} {W : Widgets} {Svc : Services}.

Lemma Update_devicesCreated (m : model) (n : Z) (s : Sys) :
  Update m (devicesCreatedMsg n) s
  = (Returned (set_mstate stateComplete (set_devicesCreated n m), CmdNil), s).
Proof. reflexivity. Qed.

Lemma Update_error (m : model) (e : Err) (s : Sys) :
  Update m (errorMsg e) s
  = (Returned (set_mstate stateError (set_err e m), CmdNil), s).
Proof. reflexivity. Qed.

(** C1. Best-effort batch: a failed create call never aborts the import.
    Every row from the start index on with at least 2 cells gets its call,
    each failed call is logged, only the calls that succeeded are counted,
    and the import returns that count in a [devicesCreatedMsg], on which the
    wizard goes to Complete; with 5 calls of which 1 failed the count is
    4. *)
Theorem best_effort_batch (m : model) (path : string) (s : Sys) (file : File)
  (records : list (list string)) (conn : Conn) :
  os_Open path (remote s) = inr file ->
  csv_ReadAll file = inr records ->
  headerInBounds records ->
  deviceClient m = Some conn ->
  Z.of_nat (List.length records) <= GoInt.max ->
  exists (start : nat) (created : Z) (w : World) (es : list Event),
    headerStart records s = (Returned start, s)
    /\ processCSV m path s
       = (Returned (devicesCreatedMsg created),
          {| remote := w; events := (events s ++ es)%list |})
    /\ List.length (createCalls es)
       = List.length (filter qualifies (skipn start records))
    /\ created = Z.of_nat (List.length (filter succeeded (createCalls es)))
    /\ logLines es = failures (createCalls es)
    /\ (List.length (createCalls es) = 5%nat ->
        List.length (failures (createCalls es)) = 1%nat -> created = 4)
    /\ (forall (m' : model) (s' : Sys),
          exists m'' : model,
            Update m' (devicesCreatedMsg created) s' = (Returned (m'', CmdNil), s')
            /\ mstate m'' = stateComplete
            /\ devicesCreated m'' = created).
Proof.
  intros Hopen Hread Hbounds Hconn Hfits.
  destruct (processCSV_trace m path s file records conn Hopen Hread Hbounds Hconn Hfits)
    as (start & created & w & es & Hstart & Hrun & Hcalls & Hcount & Hlog & _).
  exists start, created, w, es.
  split; [exact Hstart|]. split; [exact Hrun|].
  split.
  { apply (f_equal (@List.length _)) in Hcalls. now rewrite !length_map in Hcalls. }
  split; [exact Hcount|]. split; [exact Hlog|].
  split.
  - intros Hfive Hone. pose proof (calls_split (createCalls es)) as Hsplit. lia.
  - intros m' s'. eexists. rewrite Update_devicesCreated.
    split; [reflexivity|]. split; reflexivity.
Qed.

Lemma specDevice_cells (applicationId deviceProfileId devEui name : string)
  (rest : list string) :
  specDevice applicationId deviceProfileId (devEui :: name :: rest)
  = {| DevEui := devEui;
       Name := name;
       Description := match rest with
                      | [] => ""
                      | description :: _ => description
                      end;
       ApplicationId := applicationId;
       DeviceProfileId := deviceProfileId;
       IsDisabled := false |}.
Proof. destruct rest; reflexivity. Qed.

(** C3. Per-row create call: the calls of an import are, in order, those of
    the rows from the start index on with at least 2 cells, and the call for
    a row [devEui, name, ...] carries DevEui = cell 0, Name = cell 1,
    Description = cell 2 if there is one and the empty string otherwise, the
    selected application and device-profile ids, and IsDisabled = false.
    These requests are what the service receives, under the bearer token of
    the model and one after the other: the results of the calls and the
    world the import leaves are those of the service on these requests. *)
Theorem create_call_fields (m : model) (path : string) (s : Sys) (file : File)
  (records : list (list string)) (conn : Conn) :
  os_Open path (remote s) = inr file ->
  csv_ReadAll file = inr records ->
  headerInBounds records ->
  deviceClient m = Some conn ->
  Z.of_nat (List.length records) <= GoInt.max ->
  exists (start : nat) (msg : Msg) (w : World) (es : list Event),
    headerStart records s = (Returned start, s)
    /\ processCSV m path s
       = (Returned msg, {| remote := w; events := (events s ++ es)%list |})
    /\ List.length (createCalls es)
       = List.length (filter qualifies (skipn start records))
    /\ (forall (k : nat) (devEui name : string) (rest : list string),
           nth_error (filter qualifies (skipn start records)) k
           = Some (devEui :: name :: rest) ->
           exists result : option Err,
             nth_error (createCalls es) k
             = Some ({| DevEui := devEui;
                        Name := name;
                        Description := match rest with
                                       | [] => ""
                                       | description :: _ => description
                                       end;
                        ApplicationId := selectedApp m;
                        DeviceProfileId := selectedProfile m;
                        IsDisabled := false |}, result))
    /\ served conn ("Bearer " ++ apiToken m) (map fst (createCalls es)) (remote s)
       = (map snd (createCalls es), w).
Proof.
  intros Hopen Hread Hbounds Hconn Hfits.
  destruct (processCSV_trace m path s file records conn Hopen Hread Hbounds Hconn Hfits)
    as (start & created & w & es & Hstart & Hrun & Hcalls & _).
  exists start, (devicesCreatedMsg created), w, es.
  split; [exact Hstart|]. split; [exact Hrun|].
  split.
  { apply (f_equal (@List.length _)) in Hcalls. now rewrite !length_map in Hcalls. }
  split.
  - intros k devEui name rest Hrow.
    apply (map_nth_error (specDevice (selectedApp m) (selectedProfile m))) in Hrow.
    rewrite <- Hcalls in Hrow.
    rewrite nth_error_map in Hrow.
    destruct (nth_error (createCalls es) k) as [[device result]|]; [|discriminate].
    simpl in Hrow. injection Hrow as Hdevice.
    exists result. now rewrite Hdevice, specDevice_cells.
  - pose proof (processCSV_read m path s file records Hopen Hread) as Hread'.
    unfold bind at 1 in Hread'. rewrite Hstart in Hread'.
    destruct (forRows_served m (outgoingContext m) conn (skipn start records)
                Hconn 0 s) as (created' & w' & es' & Hrows & Hserved).
    unfold bind in Hread'. rewrite Hrows in Hread'. unfold ret in Hread'.
    rewrite Hrun in Hread'. inversion Hread' as [[Hcreated Hw Hes]].
    apply app_inv_head in Hes. subst w' es'. exact Hserved.
Qed.

(** C4. Short rows: a row with fewer than 2 cells at or after the start
    index is skipped silently.  The body returns at once with the counter and
    the outside unchanged (no call, no log line, no error), and the import
    returns what it returns on the other rows alone. *)
Theorem short_rows_skipped (m : model) (path : string) (s : Sys) (file : File)
  (records : list (list string)) (start : nat) (record : list string)
  (pre post : list (list string)) :
  os_Open path (remote s) = inr file ->
  csv_ReadAll file = inr records ->
  headerStart records s = (Returned start, s) ->
  skipn start records = (pre ++ record :: post)%list ->
  (List.length record < 2)%nat ->
  (forall (created : Z) (s' : Sys),
      createRow m (outgoingContext m) record created s' = (Returned created, s'))
  /\ processCSV m path s
     = (created <- forRows m (outgoingContext m) (pre ++ post) 0 ;;
        ret (devicesCreatedMsg created)) s.
Proof.
  intros Hopen Hread Hstart Hsplit Hshort. split.
  - intros created s'. now apply createRow_short.
  - rewrite (processCSV_read _ _ _ _ _ Hopen Hread).
    unfold bind at 1. rewrite Hstart, Hsplit.
    unfold bind. now rewrite forRows_skip by exact Hshort.
Qed.

End Claims.

(** ** The wizard's steps *)

Section Wizard.
Context {P : Platform} {W : Widgets} {Svc : Services}.

(** Complete and Error have no case in either [switch] on the state. *)
Lemma handleEnter_idle (m : model) :
  mstate m = stateError \/ mstate m = stateComplete \/ mstate m = stateFileSelect
  \/ mstate m = stateProcessing ->
  handleEnter m = (m, CmdNil).
Proof. unfold handleEnter. intros [H|[H|[H|H]]]; now rewrite H. Qed.

Lemma updateFocused_idle (m : model) (msg : Msg) :
  mstate m = stateError \/ mstate m = stateComplete \/ mstate m = stateProcessing ->
  updateFocused m msg = (m, CmdNil).
Proof. unfold updateFocused. intros [H|[H|H]]; now rewrite H. Qed.

Lemma closeClient_returns (m : model) (s : Sys) :
  closeClient m s
  = (Returned tt,
     match client m with
     | Some c => {| remote := Conn_Close c (remote s);
                    events := (events s ++ [EvClose c])%list |}
     | None => s
     end).
Proof. unfold closeClient. destruct (client m); reflexivity. Qed.

Lemma Update_final (m : model) (msg : Msg) (s : Sys) :
  mstate m = stateError ->
  external msg = true ->
  exists (m' : model) (cmd : Cmd) (s' : Sys),
    Update m msg s = (Returned (m', cmd), s') /\ mstate m' = stateError.
Proof.
  intros Hstate Hext.
  assert (Henter : handleEnter m = (m, CmdNil)) by (apply handleEnter_idle; tauto).
  assert (Hfocus : updateFocused m msg = (m, CmdNil)) by (apply updateFocused_idle; tauto).
  destruct msg as [w h|k| |items|items|items|n|e|f]; try discriminate; cbn [Update].
  - do 3 eexists. split; [reflexivity | exact Hstate].
  - destruct ((keyString k =? "ctrl+c") || (keyString k =? "q"))%string.
    + unfold bind. rewrite closeClient_returns. do 3 eexists.
      split; [reflexivity | exact Hstate].
    + destruct (keyString k =? "enter")%string.
      * rewrite Henter. do 3 eexists. split; [reflexivity | exact Hstate].
      * rewrite Hfocus. do 3 eexists. split; [reflexivity | exact Hstate].
  - destruct (foreignError f) as [e|].
    + do 3 eexists. split; reflexivity.
    + rewrite Hfocus. do 3 eexists. split; [reflexivity | exact Hstate].
Qed.

(** C5. Read failure: when the file cannot be opened or parsed, the import
    returns the error at once, with no row processed and nothing done to the
    outside; on that message the wizard goes to Error, with the error kept
    and no device counted, and no key press or other outside message takes it
    out of Error. *)
Theorem read_failure_is_fatal (m : model) (path : string) (s : Sys) (e : Err) :
  (os_Open path (remote s) = inl e
   \/ exists file, os_Open path (remote s) = inr file /\ csv_ReadAll file = inl e) ->
  processCSV m path s = (Returned (errorMsg e), s)
  /\ (forall (m' : model) (s' : Sys),
        exists m'' : model,
          Update m' (errorMsg e) s' = (Returned (m'', CmdNil), s')
          /\ mstate m'' = stateError
          /\ err m'' = Some e
          /\ devicesCreated m'' = devicesCreated m')
  /\ (forall (m' : model) (msg : Msg) (s' : Sys),
        mstate m' = stateError ->
        external msg = true ->
        exists (m'' : model) (cmd : Cmd) (s'' : Sys),
          Update m' msg s' = (Returned (m'', cmd), s'') /\ mstate m'' = stateError).
Proof.
  intro Hfail. split; [|split].
  - unfold processCSV, bind, peek.
    destruct Hfail as [Hopen|(file & Hopen & Hread)]; rewrite Hopen;
      [|rewrite Hread]; reflexivity.
  - intros m' s'. eexists. rewrite Update_error. repeat split.
  - intros m' msg s' Hstate Hext.
    destruct (Update_final m' msg s' Hstate Hext)
      as (m'' & cmd & s'' & Hupd & Hsame).
    exists m'', cmd, s''. split; [exact Hupd | exact Hsame].
Qed.

(** C10. Global quit: in every state a key that reads "q" or "ctrl+c" is
    taken by the first [switch]: the connection is closed if there is one,
    the command is [tea.Quit], which ends the program, and the model comes
    back as it was, token field included: the key was not passed on to the
    widget of the state. *)
Theorem quit_is_global (m : model) (k : Key) (s : Sys) :
  keyString k = "q" \/ keyString k = "ctrl+c" ->
  exists s' : Sys,
    Update m (KeyMsg k) s = (Returned (m, CmdQuit), s')
    /\ (forall c, client m = Some c ->
                  s' = {| remote := Conn_Close c (remote s);
                          events := (events s ++ [EvClose c])%list |})
    /\ (client m = None -> s' = s)
    /\ (forall p : Program,
          current p = m -> system p = s ->
          current (feed p (KeyMsg k)) = m
          /\ tokenInput (current (feed p (KeyMsg k))) = tokenInput m
          /\ pending (feed p (KeyMsg k)) = (pending p ++ [CmdQuit])%list
          /\ phase (complete (feed p (KeyMsg k)) (List.length (pending p))) = Exited).
Proof.
  intro Hkey.
  assert (Htest : ((keyString k =? "ctrl+c") || (keyString k =? "q"))%string = true).
  { destruct Hkey as [-> | ->]; reflexivity. }
  assert (Hupd : Update m (KeyMsg k) s
                 = (Returned (m, CmdQuit),
                    match client m with
                    | Some c => {| remote := Conn_Close c (remote s);
                                   events := (events s ++ [EvClose c])%list |}
                    | None => s
                    end)).
  { cbn [Update]. rewrite Htest. unfold bind. now rewrite closeClient_returns. }
  eexists. split; [exact Hupd|].
  split; [intros c ->; reflexivity|].
  split; [intros ->; reflexivity|].
  intros p Hm Hs. unfold feed. rewrite Hm, Hs, Hupd. cbn.
  repeat split.
  unfold complete. cbn [pending].
  rewrite nth_error_app2, Nat.sub_diag by lia. reflexivity.
Qed.

End Wizard.

(** ** The selection lists *)

Lemma fold_append_map {A B : Type} (f : A -> B) (l : list A) (acc : list B) :
  fold_left (fun items a => (items ++ [f a])%list) l acc = (acc ++ map f l)%list.
Proof.
  revert acc. induction l as [|a l IH]; intro acc; simpl.
  - now rewrite app_nil_r.
  - now rewrite IH, <- app_assoc.
Qed.

Section Loaders.
Context {P : Platform} {W : Widgets} {Svc : Services}.

Lemma loadTenants_items (m : model) (s : Sys) (c : Conn)
  (result : list TenantListItem) (w : World) :
  tenantClient m = Some c ->
  TenantService_List c (outgoingContext m) {| ListTenants_Limit := 100 |} (remote s)
  = (inr result, w) ->
  loadTenants m s
  = (Returned (tenantsLoadedMsg (map tenantItem result)),
     {| remote := w; events := events s |}).
Proof.
  intros Hc Hlist. unfold loadTenants, bind, call. rewrite Hc. simpl.
  rewrite Hlist. unfold ret. now rewrite (fold_append_map tenantItem).
Qed.

Lemma loadApplications_items (m : model) (s : Sys) (c : Conn)
  (result : list ApplicationListItem) (w : World) :
  appClient m = Some c ->
  ApplicationService_List c (outgoingContext m)
    {| ListApplications_TenantId := selectedTenant m;
       ListApplications_Limit := 100 |} (remote s)
  = (inr result, w) ->
  loadApplications m s
  = (Returned (appsLoadedMsg (map applicationItem result)),
     {| remote := w; events := events s |}).
Proof.
  intros Hc Hlist. unfold loadApplications, bind, call. rewrite Hc. simpl.
  rewrite Hlist. unfold ret. now rewrite (fold_append_map applicationItem).
Qed.

Lemma loadDeviceProfiles_items (m : model) (s : Sys) (c : Conn)
  (result : list DeviceProfileListItem) (w : World) :
  profileClient m = Some c ->
  DeviceProfileService_List c (outgoingContext m)
    {| ListDeviceProfiles_TenantId := selectedTenant m;
       ListDeviceProfiles_Limit := 100 |} (remote s)
  = (inr result, w) ->
  loadDeviceProfiles m s
  = (Returned (profilesLoadedMsg (map profileItem result)),
     {| remote := w; events := events s |}).
Proof.
  intros Hc Hlist. unfold loadDeviceProfiles, bind, call. rewrite Hc. simpl.
  rewrite Hlist. unfold ret. now rewrite (fold_append_map profileItem).
Qed.

(** C6, as amended.  Selection-list loading: each of the three loaders, on
    its own and whenever its list call succeeds, with a response of K
    records produces exactly K items in the order of the response, the k-th
    item made from the k-th record with title = description = name for
    tenants and device profiles, title = name and description = description
    for applications, and id = the record's id as it came, which is
    non-empty where the record's id is. *)
Theorem selection_lists_follow_response (m : model) (s : Sys) :
  (forall (c : Conn) (tenants : list TenantListItem) (w : World),
      tenantClient m = Some c ->
      TenantService_List c (outgoingContext m) {| ListTenants_Limit := 100 |}
        (remote s)
      = (inr tenants, w) ->
      exists items,
        loadTenants m s
        = (Returned (tenantsLoadedMsg items), {| remote := w; events := events s |})
        /\ List.length items = List.length tenants
        /\ (forall k t, nth_error tenants k = Some t ->
                        nth_error items k
                        = Some {| title := Tenant_Name t;
                                  desc := Tenant_Name t;
                                  id := Tenant_Id t |})
        /\ (Forall (fun t => Tenant_Id t <> "") tenants ->
            Forall (fun it => id it <> "") items))
  /\ (forall (c : Conn) (apps : list ApplicationListItem) (w : World),
         appClient m = Some c ->
         ApplicationService_List c (outgoingContext m)
           {| ListApplications_TenantId := selectedTenant m;
              ListApplications_Limit := 100 |} (remote s)
         = (inr apps, w) ->
         exists items,
           loadApplications m s
           = (Returned (appsLoadedMsg items), {| remote := w; events := events s |})
           /\ List.length items = List.length apps
           /\ (forall k a, nth_error apps k = Some a ->
                           nth_error items k
                           = Some {| title := Application_Name a;
                                     desc := Application_Description a;
                                     id := Application_Id a |})
           /\ (Forall (fun a => Application_Id a <> "") apps ->
               Forall (fun it => id it <> "") items))
  /\ (forall (c : Conn) (profiles : list DeviceProfileListItem) (w : World),
         profileClient m = Some c ->
         DeviceProfileService_List c (outgoingContext m)
           {| ListDeviceProfiles_TenantId := selectedTenant m;
              ListDeviceProfiles_Limit := 100 |} (remote s)
         = (inr profiles, w) ->
         exists items,
           loadDeviceProfiles m s
           = (Returned (profilesLoadedMsg items), {| remote := w; events := events s |})
           /\ List.length items = List.length profiles
           /\ (forall k d, nth_error profiles k = Some d ->
                           nth_error items k
                           = Some {| title := DeviceProfile_Name d;
                                     desc := DeviceProfile_Name d;
                                     id := DeviceProfile_Id d |})
           /\ (Forall (fun d => DeviceProfile_Id d <> "") profiles ->
               Forall (fun it => id it <> "") items)).
Proof.
  split; [|split].
  - intros c tenants w Hc Hlist. exists (map tenantItem tenants).
    split; [now apply loadTenants_items with (c := c)|].
    split; [apply length_map|].
    split; [intros k t Hk; now apply (map_nth_error tenantItem)|].
    intro Hids. apply Forall_map. exact Hids.
  - intros c apps w Hc Hlist. exists (map applicationItem apps).
    split; [now apply loadApplications_items with (c := c)|].
    split; [apply length_map|].
    split; [intros k a Hk; now apply (map_nth_error applicationItem)|].
    intro Hids. apply Forall_map. exact Hids.
  - intros c profiles w Hc Hlist. exists (map profileItem profiles).
    split; [now apply loadDeviceProfiles_items with (c := c)|].
    split; [apply length_map|].
    split; [intros k d Hk; now apply (map_nth_error profileItem)|].
    intro Hids. apply Forall_map. exact Hids.
Qed.

End Loaders.

(** ** Runs of the program *)

Section Runs.
Context {P : Platform} {W : Widgets} {Svc : Services}.

Lemma current_feed (p : Program) (msg : Msg) :
  current (feed p msg) = current p
  \/ exists cmd s, Update (current p) msg (system p)
                   = (Returned (current (feed p msg), cmd), s).
Proof.
  unfold feed.
  destruct (Update (current p) msg (system p)) as [[[m cmd]|e] s]; cbn.
  - right. now exists cmd, s.
  - now left.
Qed.

Lemma current_returned (p : Program) (rest : list Cmd) (run : M Msg) :
  let q :=
    match run (system p) with
    | (Returned msg, s) =>
      feed {| current := current p; pending := rest; system := s; phase := Running |} msg
    | (Panicked e, s) =>
      {| current := current p; pending := rest; system := s; phase := Crashed e |}
    end in
  current q = current p
  \/ exists msg s cmd s',
       Update (current p) msg s = (Returned (current q, cmd), s').
Proof.
  cbv zeta. destruct (run (system p)) as [[msg|e] s]; [|now left].
  match goal with
  | |- context [feed ?q msg] => destruct (current_feed q msg) as [H|(cmd & s' & H)]
  end.
  - left. exact H.
  - right. exists msg, s, cmd, s'. exact H.
Qed.

Lemma current_complete (p : Program) (k : nat) :
  current (complete p k) = current p
  \/ exists msg s cmd s',
       Update (current p) msg s = (Returned (current (complete p k), cmd), s').
Proof.
  unfold complete. destruct (nth_error (pending p) k) as [c|]; [|now left].
  destruct c; cbn [runCmd]; try (now left); apply current_returned.
Qed.

(** A property of the model that [Update] keeps holds along every run. *)
Lemma reachable_model (Q : model -> Prop) (w : World) :
  Q initialModel ->
  (forall m msg s m' cmd s',
      Q m -> Update m msg s = (Returned (m', cmd), s') -> Q m') ->
  forall p, reachable w p -> Q (current p).
Proof.
  intros Hinit Hkeep p Hreach. induction Hreach as [|p q Hreach IH Hstep].
  - exact Hinit.
  - destruct Hstep as [p msg _ _|p k _ _].
    + destruct (current_feed p msg) as [H|(cmd & s & H)].
      * now rewrite H.
      * eapply Hkeep; eauto.
    + destruct (current_complete p k) as [H|(msg & s & cmd & s' & H)].
      * now rewrite H.
      * eapply Hkeep; eauto.
Qed.

(** No assignment in [Update] or [handleEnter] stores [stateProcessing]. *)
Lemma Update_not_Processing (m : model) (msg : Msg) (s : Sys)
  (m' : model) (cmd : Cmd) (s' : Sys) :
  mstate m <> stateProcessing ->
  Update m msg s = (Returned (m', cmd), s') ->
  mstate m' <> stateProcessing.
Proof.
  intros Hm Hupd.
  assert (Henter : mstate (fst (handleEnter m)) <> stateProcessing).
  { unfold handleEnter. destruct (mstate m) eqn:Hst; try (simpl; congruence).
    - destruct (negb _); simpl; congruence.
    - destruct (list_SelectedItem _); simpl; congruence.
    - destruct (list_SelectedItem _); simpl; congruence.
    - destruct (list_SelectedItem _); simpl; congruence. }
  assert (Hfocus : mstate (fst (updateFocused m msg)) <> stateProcessing).
  { unfold updateFocused. destruct (mstate m) eqn:Hst; try (simpl; congruence).
    - destruct (textinput_Update _ _); simpl; congruence.
    - destruct (list_Update _ _); simpl; congruence.
    - destruct (list_Update _ _); simpl; congruence.
    - destruct (list_Update _ _); simpl; congruence.
    - destruct (filepicker_Update _ _) as [fp c]. cbn [filepicker set_filepicker].
      destruct (filepicker_DidSelectFile fp msg) as [[|] path]; simpl; congruence. }
  destruct msg as [w h|k| |items|items|items|n|e|f]; cbn [Update] in Hupd;
    unfold ret in Hupd.
  - inversion Hupd; subst. simpl. exact Hm.
  - destruct ((keyString k =? "ctrl+c") || (keyString k =? "q"))%string.
    + unfold bind in Hupd. rewrite closeClient_returns in Hupd.
      inversion Hupd; subst. exact Hm.
    + destruct (keyString k =? "enter")%string;
        inversion Hupd as [[Heq Hs]]; [rewrite Heq in Henter | rewrite Heq in Hfocus];
        assumption.
  - unfold handleConnect, bind, call in Hupd.
    destruct (grpc_Dial (serverAddr m) (remote s)) as [[e|conn] w1];
      inversion Hupd; subst; simpl; exact Hm.
  - inversion Hupd; subst. simpl. discriminate.
  - inversion Hupd; subst. simpl. discriminate.
  - inversion Hupd; subst. simpl. discriminate.
  - inversion Hupd; subst. simpl. discriminate.
  - inversion Hupd; subst. simpl. discriminate.
  - destruct (foreignError f) as [e|].
    + inversion Hupd; subst. simpl. discriminate.
    + inversion Hupd as [[Heq Hs]]. rewrite Heq in Hfocus. exact Hfocus.
Qed.

(** Choosing a file starts the import and leaves the state as it is. *)
Lemma file_chosen (m : model) (msg : Msg) (path : string) :
  mstate m = stateFileSelect ->
  filepicker_DidSelectFile (fst (filepicker_Update (filepicker m) msg)) msg
  = (true, path) ->
  exists m' : model,
    updateFocused m msg = (m', CmdProcessCSV m' path)
    /\ mstate m' = stateFileSelect.
Proof.
  intros Hst Hsel. unfold updateFocused. rewrite Hst.
  destruct (filepicker_Update (filepicker m) msg) as [fp c]. simpl in Hsel.
  cbn [filepicker set_filepicker]. rewrite Hsel.
  eexists. split; [reflexivity | exact Hst].
Qed.

(** The Enter key is taken by [handleEnter], which has no case for the file
    selection: it never reaches the file picker. *)
Lemma enter_in_file_select (m : model) (k : Key) (s : Sys) :
  mstate m = stateFileSelect ->
  keyString k = "enter" ->
  Update m (KeyMsg k) s = (Returned (m, CmdNil), s).
Proof.
  intros Hst Hk. cbn [Update]. rewrite Hk. cbn.
  rewrite handleEnter_idle by tauto. reflexivity.
Qed.

End Runs.

(** ** The selections behind an import *)

Section Invariants.
Context {P : Platform} {W : Widgets} {Svc : Services}.
Context {LL : ListLaws} {SI : ServerIds} {PP : PickerPaths}.

Ltac stages :=
  do 2 (unfold sound, goodLists, stage, advanced, connected, cmdOk, named in *;
        cbn in *;
        repeat match goal with
               | H : mstate ?m = _ |- context [mstate ?m] => rewrite H
               end);
  cbn in *; intuition (try discriminate; try congruence; auto).

Lemma stage_le (n k : nat) (m : model) : (k <= n)%nat -> stage n m -> stage k m.
Proof.
  intros Hle (H1 & H2 & H3 & H4). unfold stage.
  split; [|split; [|split]]; intro Hk; apply Nat.leb_le in Hk;
    [apply H1 | apply H2 | apply H3 | apply H4]; apply Nat.leb_le; lia.
Qed.

Lemma stage_advanced (n : nat) (m m' : model) :
  advanced m m' -> stage n m -> stage n m'.
Proof. unfold advanced, stage. tauto. Qed.

Lemma advanced_refl (m : model) : advanced m m.
Proof. unfold advanced. tauto. Qed.

Lemma goodList_zero : goodList list_zero.
Proof. intros items H. rewrite list_zero_Items in H. discriminate. Qed.

Lemma goodList_newList (name : string) (items : list item) (m : model) :
  Forall named items -> goodList (newList name items m).
Proof.
  intros Hitems items' H. unfold newList in H.
  rewrite list_SetTitle_Items, list_New_Items in H. now inversion H; subst.
Qed.

Lemma goodList_resize (w h : Z) (l : ListModel) :
  goodList l -> goodList (resize w h l).
Proof.
  intros Hl items H. unfold resize in H.
  destruct (list_Items l) eqn:Hitems.
  - rewrite list_SetSize_Items in H. now apply Hl.
  - now apply Hl.
Qed.

Lemma goodList_Update (l : ListModel) (msg : Msg) :
  goodList l -> goodList (fst (list_Update l msg)).
Proof. intros Hl items H. rewrite list_Update_Items in H. now apply Hl. Qed.

Lemma selected_named (l : ListModel) (it : item) :
  goodList l -> list_SelectedItem l = Some it -> id it <> "".
Proof.
  intros Hl Hsel.
  destruct (list_SelectedItem_Items l it Hsel) as (items & Hitems & Hin).
  pose proof (Hl items Hitems) as Hall. rewrite Forall_forall in Hall.
  now apply Hall.
Qed.

Lemma handleEnter_sound (m : model) :
  sound m ->
  sound (fst (handleEnter m))
  /\ advanced m (fst (handleEnter m))
  /\ cmdOk (snd (handleEnter m))
  /\ stage (cmdStage (snd (handleEnter m))) (fst (handleEnter m)).
Proof.
  intros Hm. unfold handleEnter.
  destruct (mstate m) eqn:Hst; unfold sound in Hm; rewrite Hst in Hm.
  - destruct (negb _); stages.
  - destruct (list_SelectedItem (tenantList m)) as [it|] eqn:Hsel; [|stages].
    assert (id it <> "") by (eapply selected_named; [|exact Hsel]; apply Hm).
    rewrite ?Hst. stages.
  - destruct (list_SelectedItem (appList m)) as [it|] eqn:Hsel; [|stages].
    assert (id it <> "") by (eapply selected_named; [|exact Hsel]; apply Hm).
    rewrite ?Hst. stages.
  - destruct (list_SelectedItem (profileList m)) as [it|] eqn:Hsel; [|stages].
    assert (id it <> "") by (eapply selected_named; [|exact Hsel]; apply Hm).
    destruct (filepicker_Init _); stages.
  - stages.
  - stages.
  - stages.
  - stages.
Qed.

Lemma updateFocused_sound (m : model) (msg : Msg) :
  sound m ->
  sound (fst (updateFocused m msg))
  /\ advanced m (fst (updateFocused m msg))
  /\ cmdOk (snd (updateFocused m msg))
  /\ stage (cmdStage (snd (updateFocused m msg))) (fst (updateFocused m msg)).
Proof.
  intros Hm. unfold updateFocused.
  destruct (mstate m) eqn:Hst; unfold sound in Hm; rewrite Hst in Hm.
  - destruct (textinput_Update (tokenInput m) msg) as [w [c|]]; stages.
  - pose proof (goodList_Update (tenantList m) msg) as Hl.
    destruct (list_Update (tenantList m) msg) as [w [c|]]; stages.
  - pose proof (goodList_Update (appList m) msg) as Hl.
    destruct (list_Update (appList m) msg) as [w [c|]]; stages.
  - pose proof (goodList_Update (profileList m) msg) as Hl.
    destruct (list_Update (profileList m) msg) as [w [c|]]; stages.
  - destruct (filepicker_Update (filepicker m) msg) as [fp c].
    cbn [filepicker set_filepicker].
    destruct (filepicker_DidSelectFile fp msg) as [[|] path] eqn:Hsel.
    + apply picked_path in Hsel. stages.
    + destruct c; stages.
  - stages.
  - stages.
  - stages.
Qed.

(** One step of [Update] on a message that fits the model. *)
Lemma Update_sound (m : model) (msg : Msg) (s : Sys)
  (m' : model) (cmd : Cmd) (s' : Sys) :
  sound m ->
  goodMsg msg ->
  stage (msgStage msg) m ->
  Update m msg s = (Returned (m', cmd), s') ->
  sound m' /\ advanced m m' /\ cmdOk cmd /\ stage (cmdStage cmd) m'.
Proof.
  intros Hm Hmsg Hstage Hupd.
  destruct msg as [w h|k| |items|items|items|n|e|f]; cbn [Update] in Hupd;
    unfold ret in Hupd.
  - inversion Hupd; subst; clear Hupd.
    destruct Hm as ((Ht & Ha & Hp) & Hst).
    pose proof (goodList_resize w h _ Ht). pose proof (goodList_resize w h _ Ha).
    pose proof (goodList_resize w h _ Hp).
    stages.
  - destruct ((keyString k =? "ctrl+c") || (keyString k =? "q"))%string.
    + unfold bind in Hupd. rewrite closeClient_returns in Hupd.
      inversion Hupd; subst. stages.
    + destruct (keyString k =? "enter")%string; inversion Hupd as [[Heq Hs]].
      * pose proof (handleEnter_sound m Hm) as H. now rewrite Heq in H.
      * pose proof (updateFocused_sound m (KeyMsg k) Hm) as H. now rewrite Heq in H.
  - unfold handleConnect, bind, call in Hupd.
    destruct (grpc_Dial (serverAddr m) (remote s)) as [[e|conn] w1];
      inversion Hupd; subst; clear Hupd; stages.
  - inversion Hupd; subst; clear Hupd.
    pose proof (goodList_newList "Select Tenant" items m Hmsg). stages.
  - inversion Hupd; subst; clear Hupd.
    pose proof (goodList_newList "Select Application" items m Hmsg). stages.
  - inversion Hupd; subst; clear Hupd.
    pose proof (goodList_newList "Select Device Profile" items m Hmsg). stages.
  - inversion Hupd; subst; clear Hupd. stages.
  - inversion Hupd; subst; clear Hupd. stages.
  - destruct (foreignError f) as [e|].
    + inversion Hupd; subst; clear Hupd. stages.
    + inversion Hupd as [[Heq Hs]].
      pose proof (updateFocused_sound m (ForeignMsg f) Hm) as H. now rewrite Heq in H.
Qed.

Lemma processCSV_msg (m : model) (path : string) (s : Sys) (msg : Msg) (s' : Sys) :
  processCSV m path s = (Returned msg, s') ->
  (exists e, msg = errorMsg e) \/ (exists n, msg = devicesCreatedMsg n).
Proof.
  unfold processCSV, bind, peek, ret. intro H.
  destruct (os_Open path (remote s)) as [e|file].
  { left. exists e. now inversion H. }
  destruct (csv_ReadAll file) as [e|records].
  { left. exists e. now inversion H. }
  destruct (headerStart records s) as [[start|e] s1]; [|discriminate].
  destruct (rowsLoop _ m _ records start 0 s1) as [[created|e] s2]; [|discriminate].
  right. exists created. now inversion H.
Qed.

(** What a completed command sends fits what the command had captured. *)
Lemma runCmd_msg (cmd : Cmd) (run : M Msg) (s : Sys) (msg : Msg) (s' : Sys) :
  runCmd cmd = Some run ->
  run s = (Returned msg, s') ->
  goodMsg msg /\ (msgStage msg <= cmdStage cmd)%nat.
Proof.
  intros Hcmd Hrun.
  destruct cmd as [| | |addr e|m|m|m|m path|c]; cbn [runCmd] in Hcmd;
    inversion Hcmd; subst; clear Hcmd; cbn [cmdStage].
  - inversion Hrun; subst. simpl. split; [exact I | lia].
  - inversion Hrun; subst. simpl. split; [exact I | lia].
  - unfold loadTenants, bind, call, stub in Hrun.
    destruct (tenantClient m) as [c|]; [|discriminate]. cbn in Hrun.
    destruct (TenantService_List c _ _ (remote s)) as [[e|result] w] eqn:Hlist;
      inversion Hrun; subst; simpl; [split; [exact I | lia]|].
    split; [|lia]. rewrite (fold_append_map tenantItem). simpl.
    apply Forall_map. unfold named. simpl. eapply tenant_ids; exact Hlist.
  - unfold loadApplications, bind, call, stub in Hrun.
    destruct (appClient m) as [c|]; [|discriminate]. cbn in Hrun.
    destruct (ApplicationService_List c _ _ (remote s)) as [[e|result] w] eqn:Hlist;
      inversion Hrun; subst; simpl; [split; [exact I | lia]|].
    split; [|lia]. rewrite (fold_append_map applicationItem). simpl.
    apply Forall_map. unfold named. simpl. eapply application_ids; exact Hlist.
  - unfold loadDeviceProfiles, bind, call, stub in Hrun.
    destruct (profileClient m) as [c|]; [|discriminate]. cbn in Hrun.
    destruct (DeviceProfileService_List c _ _ (remote s)) as [[e|result] w] eqn:Hlist;
      inversion Hrun; subst; simpl; [split; [exact I | lia]|].
    split; [|lia]. rewrite (fold_append_map profileItem). simpl.
    apply Forall_map. unfold named. simpl. eapply profile_ids; exact Hlist.
  - destruct (processCSV_msg _ _ _ _ _ Hrun) as [[e ->]|[n ->]];
      simpl; (split; [exact I | lia]).
Qed.

Lemma Inv_start (w : World) : Inv (start w).
Proof.
  split.
  - split; [|stages]. repeat split; apply goodList_zero.
  - repeat constructor; stages.
Qed.

Lemma Inv_feed (p : Program) (msg : Msg) :
  Inv p -> goodMsg msg -> stage (msgStage msg) (current p) -> Inv (feed p msg).
Proof.
  intros [Hm Hpending] Hmsg Hstage. unfold feed.
  destruct (Update (current p) msg (system p)) as [[[m cmd]|e] s] eqn:Hupd.
  - destruct (Update_sound _ _ _ _ _ _ Hm Hmsg Hstage Hupd)
      as (Hm' & Hadv & Hcmd & Hcur).
    split; [exact Hm'|]. cbn [current pending].
    assert (Hold : Forall (fun c => cmdOk c /\ stage (cmdStage c) m) (pending p)).
    { eapply Forall_impl; [|exact Hpending].
      intros c [Hok Hst]. split; [exact Hok|].
      eapply stage_advanced; eassumption. }
    destruct cmd; cbn [enqueue]; try exact Hold;
      (apply Forall_app; split; [exact Hold | constructor; [now split | constructor]]).
  - split; assumption.
Qed.

Lemma Inv_complete (p : Program) (k : nat) : Inv p -> Inv (complete p k).
Proof.
  intros [Hm Hpending]. unfold complete.
  destruct (nth_error (pending p) k) as [cmd|] eqn:Hk; [|now split].
  pose proof (firstn_skipn_middle _ _ Hk) as Hsplit.
  rewrite <- Hsplit in Hpending.
  apply Forall_app in Hpending. destruct Hpending as [Hpre Hpost].
  inversion Hpost as [|? ? [Hok Hst] Hpost']; subst.
  assert (Hrest : Forall (fun c => cmdOk c /\ stage (cmdStage c) (current p))
                         (firstn k (pending p) ++ skipn (S k) (pending p))).
  { apply Forall_app. now split. }
  assert (Hidle : forall ph,
             Inv {| current := current p;
                    pending := (firstn k (pending p) ++ skipn (S k) (pending p))%list;
                    system := system p; phase := ph |}).
  { intro ph. split; assumption. }
  destruct (runCmd cmd) as [run|] eqn:Hrun.
  - assert (Hgo :
      Inv match run (system p) with
          | (Returned msg, s) =>
            feed {| current := current p;
                    pending := (firstn k (pending p) ++ skipn (S k) (pending p))%list;
                    system := s; phase := Running |} msg
          | (Panicked e, s) =>
            {| current := current p;
               pending := (firstn k (pending p) ++ skipn (S k) (pending p))%list;
               system := s; phase := Crashed e |}
          end).
    { destruct (run (system p)) as [[msg|e] s] eqn:Hres.
      - destruct (runCmd_msg _ _ _ _ _ Hrun Hres) as [Hgood Hle].
        apply Inv_feed; [split; assumption | exact Hgood |].
        cbn [current]. eapply stage_le; eassumption.
      - split; assumption. }
    destruct cmd; try discriminate; exact Hgo.
  - destruct cmd; try discriminate; apply Hidle.
Qed.

Lemma reachable_Inv (w : World) (p : Program) : reachable w p -> Inv p.
Proof.
  induction 1 as [|p q Hreach IH Hstep].
  - apply Inv_start.
  - destruct Hstep as [p msg _ Hext|p k _ _].
    + apply Inv_feed; [exact IH | |];
        destruct msg; try discriminate; try exact I; stages.
    + now apply Inv_complete.
Qed.

End Invariants.

Section Schedules.
Context {P : Platform} {W : Widgets} {Svc : Services}.

Lemma run_reachable (w : World) (schedule : list Action) :
  forall p q : Program,
    reachable w p -> run p schedule = Some q -> reachable w q.
Proof.
  induction schedule as [|a schedule IH]; intros p q Hp Hrun; simpl in Hrun.
  - now inversion Hrun; subst.
  - destruct (permitted p a) eqn:Hok; [|discriminate].
    apply (IH (act p a)); [|exact Hrun].
    apply reach_step with (p := p); [exact Hp|].
    unfold permitted in Hok.
    destruct (phase p) eqn:Hphase; try discriminate.
    destruct a as [msg|k]; cbn [act].
    + now apply step_input.
    + apply step_complete; [exact Hphase | now apply Nat.ltb_lt].
Qed.

End Schedules.

(** ** The program with the file picker as shipped *)

Section Shipped.
Context {P : Platform} {W : Widgets} {Svc : Services} {SP : StockPicker}.

Lemma handleEnter_starts_nothing (m : model) :
  isImport (snd (handleEnter m)) = false
  /\ (mstate m <> stateComplete -> mstate (fst (handleEnter m)) <> stateComplete).
Proof.
  unfold handleEnter. destruct (mstate m) eqn:Hst.
  - destruct (negb _); cbn; rewrite ?Hst; split; (reflexivity || congruence).
  - destruct (list_SelectedItem _); cbn; rewrite ?Hst; split; (reflexivity || congruence).
  - destruct (list_SelectedItem _); cbn; rewrite ?Hst; split; (reflexivity || congruence).
  - destruct (list_SelectedItem _); [destruct (filepicker_Init _)|];
      cbn; rewrite ?Hst; split; (reflexivity || congruence).
  - cbn; rewrite ?Hst; split; (reflexivity || congruence).
  - cbn; rewrite ?Hst; split; (reflexivity || congruence).
  - cbn; rewrite ?Hst; split; [reflexivity | intro H; now elim H].
  - cbn; rewrite ?Hst; split; (reflexivity || congruence).
Qed.

(** A message that is not the key "enter" selects no file. *)
Lemma updateFocused_starts_nothing (m : model) (msg : Msg) :
  (forall k, msg = KeyMsg k -> keyString k <> "enter") ->
  isImport (snd (updateFocused m msg)) = false
  /\ mstate (fst (updateFocused m msg)) = mstate m.
Proof.
  intro Hkey. unfold updateFocused. destruct (mstate m) eqn:Hst.
  - destruct (textinput_Update _ _) as [t [c|]]; cbn; rewrite ?Hst; split; reflexivity.
  - destruct (list_Update _ _) as [l [c|]]; cbn; rewrite ?Hst; split; reflexivity.
  - destruct (list_Update _ _) as [l [c|]]; cbn; rewrite ?Hst; split; reflexivity.
  - destruct (list_Update _ _) as [l [c|]]; cbn; rewrite ?Hst; split; reflexivity.
  - destruct (filepicker_Update (filepicker m) msg) as [fp c].
    cbn [filepicker set_filepicker].
    destruct (filepicker_DidSelectFile fp msg) as [[|] path] eqn:Hsel.
    + destruct (select_on_enter _ _ _ Hsel) as (k & Hmsg & Hk).
      now elim (Hkey k Hmsg).
    + destruct c; cbn; rewrite ?Hst; split; reflexivity.
  - cbn; rewrite ?Hst; split; reflexivity.
  - cbn; rewrite ?Hst; split; reflexivity.
  - cbn; rewrite ?Hst; split; reflexivity.
Qed.

(** Only [devicesCreatedMsg] leads to Complete, and no message starts an
    import: the key "enter" goes to [handleEnter], which starts none, and
    the picker selects on no other message. *)
Lemma Update_starts_nothing (m : model) (msg : Msg) (s : Sys)
  (m' : model) (cmd : Cmd) (s' : Sys) :
  (forall n, msg <> devicesCreatedMsg n) ->
  mstate m <> stateComplete ->
  Update m msg s = (Returned (m', cmd), s') ->
  mstate m' <> stateComplete /\ isImport cmd = false.
Proof.
  intros Hmsg Hm Hupd.
  destruct msg as [w h|k| |items|items|items|n|e|f]; cbn [Update] in Hupd;
    unfold ret in Hupd.
  - inversion Hupd; subst. split; [exact Hm | reflexivity].
  - destruct ((keyString k =? "ctrl+c") || (keyString k =? "q"))%string.
    + unfold bind in Hupd. rewrite closeClient_returns in Hupd.
      inversion Hupd; subst. split; [exact Hm | reflexivity].
    + destruct (keyString k =? "enter")%string eqn:Henter;
        inversion Hupd as [[Heq Hs]].
      * destruct (handleEnter_starts_nothing m) as [Hcmd Hst].
        rewrite Heq in Hcmd, Hst. split; [now apply Hst | exact Hcmd].
      * destruct (updateFocused_starts_nothing m (KeyMsg k)) as [Hcmd Hst].
        { intros k' Hk'. inversion Hk'; subst. now apply String.eqb_neq. }
        rewrite Heq in Hcmd, Hst. cbn in Hst. split; [congruence | exact Hcmd].
  - unfold handleConnect, bind, call in Hupd.
    destruct (grpc_Dial (serverAddr m) (remote s)) as [[e|conn] w1];
      inversion Hupd; subst; (split; [exact Hm | reflexivity]).
  - inversion Hupd; subst. split; [discriminate | reflexivity].
  - inversion Hupd; subst. split; [discriminate | reflexivity].
  - inversion Hupd; subst. split; [discriminate | reflexivity].
  - now elim (Hmsg n).
  - inversion Hupd; subst. split; [discriminate | reflexivity].
  - destruct (foreignError f) as [e|].
    + inversion Hupd; subst. split; [discriminate | reflexivity].
    + inversion Hupd as [[Heq Hs]].
      destruct (updateFocused_starts_nothing m (ForeignMsg f)) as [Hcmd Hst].
      { intros k' Hk'. discriminate. }
      rewrite Heq in Hcmd, Hst. cbn in Hst. split; [congruence | exact Hcmd].
Qed.

(** Only an import sends [devicesCreatedMsg]. *)
Lemma runCmd_sends (cmd : Cmd) (run : M Msg) (s : Sys) (msg : Msg) (s' : Sys) :
  isImport cmd = false ->
  runCmd cmd = Some run ->
  run s = (Returned msg, s') ->
  forall n, msg <> devicesCreatedMsg n.
Proof.
  intros Hcmd Hrun Hres n.
  destruct cmd as [| | |addr e|m|m|m|m path|c]; cbn [runCmd] in Hrun;
    try discriminate; inversion Hrun; subst; clear Hrun.
  - inversion Hres; subst. discriminate.
  - inversion Hres; subst. discriminate.
  - unfold loadTenants, bind, call, stub, ret in Hres.
    destruct (tenantClient m); [|discriminate]. cbv beta iota zeta in Hres.
    destruct (TenantService_List _ _ _ _) as [[e|r] w1];
      inversion Hres; subst; discriminate.
  - unfold loadApplications, bind, call, stub, ret in Hres.
    destruct (appClient m); [|discriminate]. cbv beta iota zeta in Hres.
    destruct (ApplicationService_List _ _ _ _) as [[e|r] w1];
      inversion Hres; subst; discriminate.
  - unfold loadDeviceProfiles, bind, call, stub, ret in Hres.
    destruct (profileClient m); [|discriminate]. cbv beta iota zeta in Hres.
    destruct (DeviceProfileService_List _ _ _ _) as [[e|r] w1];
      inversion Hres; subst; discriminate.
Qed.

Lemma Idle_start (w : World) : Idle (start w).
Proof. split; [discriminate | repeat constructor]. Qed.

Lemma Idle_feed (p : Program) (msg : Msg) :
  Idle p -> (forall n, msg <> devicesCreatedMsg n) -> Idle (feed p msg).
Proof.
  intros [Hm Hpending] Hmsg. unfold feed.
  destruct (Update (current p) msg (system p)) as [[[m cmd]|e] s] eqn:Hupd.
  - destruct (Update_starts_nothing _ _ _ _ _ _ Hmsg Hm Hupd) as [Hst Hcmd].
    split; [exact Hst|]. cbn [pending].
    destruct cmd; cbn [enqueue]; try exact Hpending;
      (apply Forall_app; split; [exact Hpending | repeat constructor; exact Hcmd]).
  - split; assumption.
Qed.

Lemma Idle_complete (p : Program) (k : nat) : Idle p -> Idle (complete p k).
Proof.
  intros [Hm Hpending]. unfold complete.
  destruct (nth_error (pending p) k) as [cmd|] eqn:Hk; [|now split].
  pose proof (firstn_skipn_middle _ _ Hk) as Hsplit.
  rewrite <- Hsplit in Hpending.
  apply Forall_app in Hpending. destruct Hpending as [Hpre Hpost].
  inversion Hpost as [|? ? Hcmd Hpost']; subst.
  assert (Hrest : Forall (fun c => isImport c = false)
                         (firstn k (pending p) ++ skipn (S k) (pending p))).
  { apply Forall_app. now split. }
  assert (Hidle : forall s ph,
             Idle {| current := current p;
                     pending := (firstn k (pending p) ++ skipn (S k) (pending p))%list;
                     system := s; phase := ph |}).
  { intros s ph. split; assumption. }
  destruct (runCmd cmd) as [run|] eqn:Hrun.
  - assert (Hgo :
      Idle match run (system p) with
           | (Returned msg, s) =>
             feed {| current := current p;
                     pending := (firstn k (pending p) ++ skipn (S k) (pending p))%list;
                     system := s; phase := Running |} msg
           | (Panicked e, s) =>
             {| current := current p;
                pending := (firstn k (pending p) ++ skipn (S k) (pending p))%list;
                system := s; phase := Crashed e |}
           end).
    { destruct (run (system p)) as [[msg|e] s] eqn:Hres; [|apply Hidle].
      apply Idle_feed; [apply Hidle|].
      exact (runCmd_sends cmd run (system p) msg s Hcmd Hrun Hres). }
    destruct cmd; try discriminate; exact Hgo.
  - destruct cmd; try discriminate; apply Hidle.
Qed.

(** With the picker as shipped no run imports anything or is about to. *)
Lemma reachable_Idle (w : World) (p : Program) : reachable w p -> Idle p.
Proof.
  induction 1 as [|p q Hreach IH Hstep].
  - apply Idle_start.
  - destruct Hstep as [p msg _ Hext|p k _ _].
    + apply Idle_feed; [exact IH|].
      intros n Hn. subst msg. discriminate.
    + now apply Idle_complete.
Qed.


(** C8. The state Processing is never entered, and neither is Complete: no
    run of the program puts the model in [stateProcessing], so the screen
    [View] has for that state is never shown.  With the file picker as
    [initialModel] builds it no run starts an import either: in the file
    selection the key "enter", the one key that selects a file, is given to
    [handleEnter], which returns the model as it is with no command; so the
    wizard stays in the file selection and never reaches Complete. *)
Theorem processing_never_entered (w : World) (p : Program) :
  reachable w p ->
  mstate (current p) <> stateProcessing
  /\ heading (View (current p)) <> "Processing..."
  /\ mstate (current p) <> stateComplete
  /\ Forall (fun cmd => isImport cmd = false) (pending p)
  /\ (mstate (current p) = stateFileSelect ->
      forall (k : Key) (s : Sys),
        keyString k = "enter" ->
        Update (current p) (KeyMsg k) s = (Returned (current p, CmdNil), s)).
Proof.
  intro Hreach.
  assert (Hstate : mstate (current p) <> stateProcessing).
  { apply (reachable_model (fun m => mstate m <> stateProcessing) w);
      [discriminate | | exact Hreach].
    intros m msg s m' cmd s' Hm Hupd. eapply Update_not_Processing; eassumption. }
  destruct (reachable_Idle w p Hreach) as [Hcomplete Hpending].
  split; [exact Hstate|]. split; [|split; [exact Hcomplete|split; [exact Hpending|]]].
  - unfold View. destruct (mstate (current p)); try discriminate. now elim Hstate.
  - intros Hst k s Hk. now apply enter_in_file_select.
Qed.

End Shipped.

(** * Further properties of the import *)

Section ImportEdges.
Context {P : Platform} {W : Widgets} {Svc : Services}.

Lemma forRows_all_short (m : model) (ctx : string) (rows : list (list string)) :
  Forall (fun row => (List.length row < 2)%nat) rows ->
  forall (created : Z) (s : Sys),
    forRows m ctx rows created s = (Returned created, s).
Proof.
  induction 1 as [|row rows Hrow _ IH]; intros created s; cbn [forRows].
  - reflexivity.
  - unfold bind. rewrite createRow_short by exact Hrow. apply IH.
Qed.

Lemma forRows_app (m : model) (ctx : string) (a b : list (list string)) :
  forall (created : Z) (s : Sys),
    forRows m ctx (a ++ b) created s
    = (created' <- forRows m ctx a created ;; forRows m ctx b created') s.
Proof.
  induction a as [|row a IH]; intros created s; simpl.
  - reflexivity.
  - unfold bind.
    destruct (createRow m ctx row created s) as [[created'|e] s']; [|reflexivity].
    rewrite IH. reflexivity.
Qed.

(** An import in which no row from the start index on has 2 cells (an empty
    file, a header alone, a file of single-cell rows) reports 0 devices and
    does nothing to the outside; it does not even need a device client. *)
Theorem import_without_rows (m : model) (path : string) (s : Sys) (file : File)
  (records : list (list string)) (start : nat) :
  os_Open path (remote s) = inr file ->
  csv_ReadAll file = inr records ->
  headerStart records s = (Returned start, s) ->
  Forall (fun row => (List.length row < 2)%nat) (skipn start records) ->
  processCSV m path s = (Returned (devicesCreatedMsg 0), s).
Proof.
  intros Hopen Hread Hstart Hshort.
  rewrite (processCSV_read _ _ _ _ _ Hopen Hread).
  unfold bind at 1. rewrite Hstart. unfold bind.
  now rewrite forRows_all_short by exact Hshort.
Qed.

(** Without a device client the import panics at the first row with 2 cells
    or more, before any call is made: the rows before it were skipped and the
    outside is as it was. *)
Theorem import_without_client (m : model) (path : string) (s : Sys) (file : File)
  (records : list (list string)) (start : nat) (record : list string)
  (pre post : list (list string)) :
  os_Open path (remote s) = inr file ->
  csv_ReadAll file = inr records ->
  headerStart records s = (Returned start, s) ->
  skipn start records = (pre ++ record :: post)%list ->
  Forall (fun row => (List.length row < 2)%nat) pre ->
  (2 <= List.length record)%nat ->
  deviceClient m = None ->
  processCSV m path s = (Panicked NilDereference, s).
Proof.
  intros Hopen Hread Hstart Hsplit Hpre Hrecord Hnil.
  rewrite (processCSV_read _ _ _ _ _ Hopen Hread).
  unfold bind at 1. rewrite Hstart, Hsplit. unfold bind at 1.
  rewrite forRows_app. unfold bind at 1.
  rewrite forRows_all_short by exact Hpre.
  cbn [forRows]. unfold bind.
  now rewrite createRow_nil by assumption.
Qed.

Lemma filter_length {A : Type} (f : A -> bool) (l : list A) :
  (List.length (filter f l) <= List.length l)%nat.
Proof.
  induction l as [|a l IH]; simpl; [lia|]. destruct (f a); simpl; lia.
Qed.

Lemma failures_length (calls : list (Device * option Err)) :
  List.length (failures calls)
  = (List.length calls - List.length (filter succeeded calls))%nat.
Proof. pose proof (calls_split calls). lia. Qed.

(** The account of an import: every row with 2 cells or more from the start
    index on is either counted as created or reported in the log, never
    both and never neither; so the count is between 0 and the number of
    rows of the file. *)
Theorem import_account (m : model) (path : string) (s : Sys) (file : File)
  (records : list (list string)) (conn : Conn) :
  os_Open path (remote s) = inr file ->
  csv_ReadAll file = inr records ->
  headerInBounds records ->
  deviceClient m = Some conn ->
  Z.of_nat (List.length records) <= GoInt.max ->
  exists (start : nat) (created : Z) (w : World) (es : list Event),
    headerStart records s = (Returned start, s)
    /\ processCSV m path s
       = (Returned (devicesCreatedMsg created),
          {| remote := w; events := (events s ++ es)%list |})
    /\ created + Z.of_nat (List.length (logLines es))
       = Z.of_nat (List.length (filter qualifies (skipn start records)))
    /\ 0 <= created <= Z.of_nat (List.length records - start).
Proof.
  intros Hopen Hread Hbounds Hconn Hfits.
  destruct (processCSV_trace m path s file records conn Hopen Hread Hbounds Hconn Hfits)
    as (start & created & w & es & Hstart & Hrun & Hcalls & Hcount & Hlog & _).
  exists start, created, w, es.
  split; [exact Hstart|]. split; [exact Hrun|].
  apply (f_equal (@List.length _)) in Hcalls. rewrite !length_map in Hcalls.
  pose proof (calls_split (createCalls es)) as Hsplit.
  pose proof (filter_length qualifies (skipn start records)) as Hle.
  rewrite length_skipn in Hle. rewrite Hlog. lia.
Qed.

(** The loop over a list of rows is the loop over its first rows followed by
    the loop over the rest, the counter and the outside carried from one to
    the other: the rows are handled strictly one after the other. *)
Theorem rows_in_two_parts (m : model) (ctx : string) (a b : list (list string))
  (created : Z) (s : Sys) :
  rowsLoop (List.length (a ++ b)) m ctx (a ++ b) 0 created s
  = (created' <- rowsLoop (List.length a) m ctx a 0 created ;;
     rowsLoop (List.length b) m ctx b 0 created') s.
Proof.
  rewrite rowsLoop_forRows by lia. cbn [skipn]. rewrite forRows_app.
  unfold bind. rewrite rowsLoop_forRows by lia. cbn [skipn].
  destruct (forRows m ctx a created s) as [[created'|e] s']; [|reflexivity].
  rewrite rowsLoop_forRows by lia. reflexivity.
Qed.

End ImportEdges.


(** * Further properties of the hexadecimal test *)

Lemma bytes_app (a b : string) :
  Utf8.bytes (a ++ b) = (Utf8.bytes a ++ Utf8.bytes b)%list.
Proof.
  unfold Utf8.bytes. induction a as [|c a IH]; simpl; [reflexivity|].
  now rewrite IH.
Qed.

Lemma length_zero_iff (s : string) : (String.length s =? 0)%nat = true <-> s = "".
Proof. destruct s; simpl; split; intro H; try reflexivity; discriminate. Qed.

(** [isHexString] is a test on bytes: a string passes exactly when it is not
    empty and each of its bytes is one of the 22 ASCII hexadecimal digits.
    No character outside ASCII and no ill-formed UTF-8 passes, however
    [range] decodes it. *)
Theorem hex_strings_by_bytes (s : string) :
  isHexString s = true
  <-> s <> "" /\ Forall (fun b => In b hexDigits) (Utf8.bytes s).
Proof.
  rewrite isHexString_bytes, andb_true_iff, negb_true_iff.
  rewrite forallb_forall, Forall_forall.
  split; intros [Hlen Hall]; split.
  - intro Hs. apply length_zero_iff in Hs. congruence.
  - intros b Hb. apply isHexRune_hexDigits. now apply Hall.
  - destruct (String.length s =? 0)%nat eqn:Hs; [|reflexivity].
    apply length_zero_iff in Hs. contradiction.
  - intros b Hb. apply isHexRune_hexDigits. now apply Hall.
Qed.

(** The test on a string made of two non-empty parts is the test on both
    parts: one character that is not a hexadecimal digit (a colon, a dash, a
    space, the x of a 0x prefix) anywhere in the string fails it. *)
Theorem hex_strings_by_parts (a b : string) :
  a <> "" ->
  b <> "" ->
  isHexString (a ++ b) = isHexString a && isHexString b.
Proof.
  intros Ha Hb. rewrite !isHexString_bytes, bytes_app, forallb_app.
  destruct a as [|c a]; [contradiction|].
  destruct b as [|d b]; [contradiction|].
  reflexivity.
Qed.


(** * Further properties of the wizard's steps *)

Section WizardSteps.
Context {P : Platform} {W : Widgets} {Svc : Services}.

Lemma enter_key (m : model) (k : Key) (s : Sys) :
  keyString k = "enter" ->
  Update m (KeyMsg k) s = (Returned (handleEnter m), s).
Proof. intro Hk. cbn [Update]. rewrite Hk. reflexivity. Qed.

(** Enter with nothing to submit changes nothing: an empty token field in
    Connecting, no item under the cursor in one of the three selections.  The
    model, its state included, comes back as it was and no command is
    issued. *)
Theorem enter_without_choice (m : model) (k : Key) (s : Sys) :
  keyString k = "enter" ->
  (mstate m = stateConnecting /\ textinput_Value (tokenInput m) = "")
  \/ (mstate m = stateTenantSelect /\ list_SelectedItem (tenantList m) = None)
  \/ (mstate m = stateApplicationSelect /\ list_SelectedItem (appList m) = None)
  \/ (mstate m = stateDeviceProfileSelect
      /\ list_SelectedItem (profileList m) = None) ->
  Update m (KeyMsg k) s = (Returned (m, CmdNil), s).
Proof.
  intros Hk Hidle. rewrite enter_key by exact Hk. unfold handleEnter.
  destruct Hidle as [[Hst Hv]|[[Hst Hv]|[[Hst Hv]|[Hst Hv]]]];
    rewrite Hst, Hv; reflexivity.
Qed.

(** Enter on a non-empty token field stores that token and asks for the
    connection; the state is still Connecting, and from then on the
    authorization of every call of this model is "Bearer " followed by the
    token. *)
Theorem enter_submits_token (m : model) (k : Key) (s : Sys) :
  keyString k = "enter" ->
  mstate m = stateConnecting ->
  textinput_Value (tokenInput m) <> "" ->
  exists m' : model,
    Update m (KeyMsg k) s = (Returned (m', CmdConnect), s)
    /\ mstate m' = stateConnecting
    /\ apiToken m' = textinput_Value (tokenInput m)
    /\ outgoingContext m' = "Bearer " ++ textinput_Value (tokenInput m)
    /\ runCmd CmdConnect = Some (ret connectMsg).
Proof.
  intros Hk Hst Hv. rewrite enter_key by exact Hk. unfold handleEnter.
  rewrite Hst.
  destruct (String.eqb_spec (textinput_Value (tokenInput m)) ""); [contradiction|].
  cbn [negb]. eexists. split; [reflexivity|]. cbn. now rewrite Hst.
Qed.

(** Choosing a tenant stores its id and asks for the applications of that
    tenant: one list call, scoped to the chosen id, with a limit of 100 and
    no second page.  The state stays TenantSelect until the list arrives. *)
Theorem tenant_scopes_applications (m : model) (k : Key) (s : Sys)
  (it : item) (c : Conn) :
  keyString k = "enter" ->
  mstate m = stateTenantSelect ->
  list_SelectedItem (tenantList m) = Some it ->
  appClient m = Some c ->
  exists m' : model,
    Update m (KeyMsg k) s = (Returned (m', CmdLoadApplications m'), s)
    /\ mstate m' = stateTenantSelect
    /\ selectedTenant m' = id it
    /\ forall s1 : Sys,
         loadApplications m' s1
         = match ApplicationService_List c ("Bearer " ++ apiToken m)
                   {| ListApplications_TenantId := id it;
                      ListApplications_Limit := 100 |} (remote s1) with
           | (inl e, w) =>
             (Returned (errorMsg e), {| remote := w; events := events s1 |})
           | (inr result, w) =>
             (Returned (appsLoadedMsg (map applicationItem result)),
              {| remote := w; events := events s1 |})
           end.
Proof.
  intros Hk Hst Hsel Hc. rewrite enter_key by exact Hk. unfold handleEnter.
  rewrite Hst, Hsel. eexists. split; [reflexivity|].
  split; [exact Hst|]. split; [reflexivity|].
  intro s1. unfold loadApplications, bind, call, stub, outgoingContext.
  cbn [appClient set_selectedTenant apiToken selectedTenant]. rewrite Hc. cbn [ret].
  unfold ret.
  destruct (ApplicationService_List c _ _ (remote s1)) as [[e|result] w];
    [reflexivity|].
  now rewrite (fold_append_map applicationItem).
Qed.

(** Choosing an application stores its id and asks for the device profiles
    of the tenant chosen before: the request does not mention the
    application, so the profiles offered are the same whichever application
    is chosen. *)
Theorem profiles_follow_tenant (m : model) (k : Key) (s : Sys)
  (it : item) (c : Conn) :
  keyString k = "enter" ->
  mstate m = stateApplicationSelect ->
  list_SelectedItem (appList m) = Some it ->
  profileClient m = Some c ->
  exists m' : model,
    Update m (KeyMsg k) s = (Returned (m', CmdLoadDeviceProfiles m'), s)
    /\ mstate m' = stateApplicationSelect
    /\ selectedApp m' = id it
    /\ selectedTenant m' = selectedTenant m
    /\ forall s1 : Sys,
         loadDeviceProfiles m' s1
         = match DeviceProfileService_List c ("Bearer " ++ apiToken m)
                   {| ListDeviceProfiles_TenantId := selectedTenant m;
                      ListDeviceProfiles_Limit := 100 |} (remote s1) with
           | (inl e, w) =>
             (Returned (errorMsg e), {| remote := w; events := events s1 |})
           | (inr result, w) =>
             (Returned (profilesLoadedMsg (map profileItem result)),
              {| remote := w; events := events s1 |})
           end.
Proof.
  intros Hk Hst Hsel Hc. rewrite enter_key by exact Hk. unfold handleEnter.
  rewrite Hst, Hsel. eexists. split; [reflexivity|].
  split; [exact Hst|]. split; [reflexivity|]. split; [reflexivity|].
  intro s1. unfold loadDeviceProfiles, bind, call, stub, outgoingContext.
  cbn [profileClient set_selectedApp apiToken selectedTenant]. rewrite Hc.
  unfold ret.
  destruct (DeviceProfileService_List c _ _ (remote s1)) as [[e|result] w];
    [reflexivity|].
  now rewrite (fold_append_map profileItem).
Qed.

(** Choosing a device profile stores its id and opens the file selection at
    once, with no call to the server. *)
Theorem profile_opens_file_select (m : model) (k : Key) (s : Sys) (it : item) :
  keyString k = "enter" ->
  mstate m = stateDeviceProfileSelect ->
  list_SelectedItem (profileList m) = Some it ->
  exists m' : model,
    Update m (KeyMsg k) s
    = (Returned (m', widgetCmd (filepicker_Init (filepicker m))), s)
    /\ mstate m' = stateFileSelect
    /\ selectedProfile m' = id it
    /\ selectedTenant m' = selectedTenant m
    /\ selectedApp m' = selectedApp m
    /\ runCmd (widgetCmd (filepicker_Init (filepicker m))) = None.
Proof.
  intros Hk Hst Hsel. rewrite enter_key by exact Hk. unfold handleEnter.
  rewrite Hst, Hsel. eexists. split; [reflexivity|].
  repeat split. now destruct (filepicker_Init (filepicker m)).
Qed.

End WizardSteps.


(** * Further properties of the messages *)

Section Arrivals.
Context {P : Platform} {W : Widgets} {Svc : Services}.

(** In Complete and in Error a message from outside that is not an error
    of a widget changes at most the size of the window. *)
Lemma Update_final_fields (m : model) (msg : Msg) (s : Sys) :
  mstate m = stateError \/ mstate m = stateComplete ->
  external msg = true ->
  widgetError msg = None ->
  exists (m' : model) (cmd : Cmd) (s' : Sys),
    Update m msg s = (Returned (m', cmd), s')
    /\ mstate m' = mstate m
    /\ devicesCreated m' = devicesCreated m
    /\ err m' = err m.
Proof.
  intros Hstate Hext Hquiet.
  assert (Henter : handleEnter m = (m, CmdNil)) by (apply handleEnter_idle; tauto).
  assert (Hfocus : updateFocused m msg = (m, CmdNil)) by (apply updateFocused_idle; tauto).
  destruct msg as [w h|k| |items|items|items|n|e|f]; try discriminate; cbn [Update].
  - do 3 eexists. repeat split.
  - destruct ((keyString k =? "ctrl+c") || (keyString k =? "q"))%string.
    + unfold bind. rewrite closeClient_returns. do 3 eexists. repeat split.
    + destruct (keyString k =? "enter")%string.
      * rewrite Henter. do 3 eexists. repeat split.
      * rewrite Hfocus. do 3 eexists. repeat split.
  - cbn [widgetError] in Hquiet. rewrite Hquiet, Hfocus. do 3 eexists. repeat split.
Qed.

(** A widget message that is an error is taken by [case errorMsg], in every
    state. *)
Lemma Update_widgetError (m : model) (msg : Msg) (e : Err) (s : Sys) :
  widgetError msg = Some e ->
  Update m msg s = (Returned (set_mstate stateError (set_err e m), CmdNil), s).
Proof.
  intro Herr. destruct msg; try discriminate.
  cbn [widgetError] in Herr. cbn [Update]. now rewrite Herr.
Qed.

(** When the import reports [n] devices the screen reads "Complete!" with
    that number, and it keeps reading so whatever key is pressed, however the
    window is resized and whatever a widget sends that is not an error.  A
    widget message that is an error is taken for the program's own
    [errorMsg]: the screen then reads "Error" with that error, so Complete is
    not the end for every message. *)
Theorem complete_screen (m : model) (n : Z) (s : Sys) :
  exists m' : model,
    Update m (devicesCreatedMsg n) s = (Returned (m', CmdNil), s)
    /\ View m' = {| heading := "Complete!";
                    body := CreatedText n;
                    help := "Press q to quit" |}
    /\ (forall (msg : Msg) (s1 : Sys),
           external msg = true ->
           widgetError msg = None ->
           exists (m'' : model) (cmd : Cmd) (s2 : Sys),
             Update m' msg s1 = (Returned (m'', cmd), s2) /\ View m'' = View m')
    /\ (forall (msg : Msg) (e : Err) (s1 : Sys),
           widgetError msg = Some e ->
           exists m'' : model,
             Update m' msg s1 = (Returned (m'', CmdNil), s1)
             /\ View m'' = {| heading := "Error";
                              body := ErrorText (Some e);
                              help := "Press q to quit" |}).
Proof.
  eexists. split; [reflexivity|]. split; [reflexivity|]. split.
  - intros msg s1 Hext Hquiet.
    destruct (Update_final_fields
                (set_mstate stateComplete (set_devicesCreated n m)) msg s1
                (or_intror eq_refl) Hext Hquiet)
      as (m'' & cmd & s2 & Hupd & Hst & Hn & He).
    exists m'', cmd, s2. split; [exact Hupd|].
    unfold View. rewrite Hst, Hn. reflexivity.
  - intros msg e s1 Herr. eexists.
    split; [apply Update_widgetError; exact Herr | reflexivity].
Qed.

(** When an error arrives the screen reads "Error" with that error as it
    came, and it keeps reading so whatever key is pressed, however the window
    is resized and whatever a widget sends that is not an error.  A widget
    message that is an error replaces the error shown. *)
Theorem error_screen (m : model) (e : Err) (s : Sys) :
  exists m' : model,
    Update m (errorMsg e) s = (Returned (m', CmdNil), s)
    /\ View m' = {| heading := "Error";
                    body := ErrorText (Some e);
                    help := "Press q to quit" |}
    /\ (forall (msg : Msg) (s1 : Sys),
           external msg = true ->
           widgetError msg = None ->
           exists (m'' : model) (cmd : Cmd) (s2 : Sys),
             Update m' msg s1 = (Returned (m'', cmd), s2) /\ View m'' = View m')
    /\ (forall (msg : Msg) (e' : Err) (s1 : Sys),
           widgetError msg = Some e' ->
           exists m'' : model,
             Update m' msg s1 = (Returned (m'', CmdNil), s1)
             /\ View m'' = {| heading := "Error";
                              body := ErrorText (Some e');
                              help := "Press q to quit" |}).
Proof.
  eexists. split; [reflexivity|]. split; [reflexivity|]. split.
  - intros msg s1 Hext Hquiet.
    destruct (Update_final_fields
                (set_mstate stateError (set_err e m)) msg s1
                (or_introl eq_refl) Hext Hquiet)
      as (m'' & cmd & s2 & Hupd & Hst & Hn & He).
    exists m'', cmd, s2. split; [exact Hupd|].
    unfold View. rewrite Hst, He. reflexivity.
  - intros msg e' s1 Herr. eexists.
    split; [apply Update_widgetError; exact Herr | reflexivity].
Qed.

(** A new window size is stored and passed on to the lists that have been
    built; a list that was never built is left alone, and the progress of
    the wizard (state, token, clients, selections, result) is untouched. *)
Theorem resize_keeps_progress (m : model) (w h : Z) (s : Sys) :
  exists m' : model,
    Update m (WindowSizeMsg w h) s = (Returned (m', CmdNil), s)
    /\ width m' = w /\ height m' = h
    /\ mstate m' = mstate m
    /\ apiToken m' = apiToken m
    /\ client m' = client m /\ deviceClient m' = deviceClient m
    /\ tenantClient m' = tenantClient m /\ appClient m' = appClient m
    /\ profileClient m' = profileClient m
    /\ selectedTenant m' = selectedTenant m
    /\ selectedApp m' = selectedApp m
    /\ selectedProfile m' = selectedProfile m
    /\ devicesCreated m' = devicesCreated m
    /\ (list_Items (tenantList m) = None -> tenantList m' = tenantList m)
    /\ (list_Items (appList m) = None -> appList m' = appList m)
    /\ (list_Items (profileList m) = None -> profileList m' = profileList m)
    /\ (list_Items (tenantList m) <> None ->
        tenantList m' = list_SetSize (GoInt.sub w 4) (GoInt.sub h 8) (tenantList m)).
Proof.
  eexists. split; [reflexivity|]. cbn.
  repeat split.
  - intro H. unfold resize. now rewrite H.
  - intro H. unfold resize. now rewrite H.
  - intro H. unfold resize. now rewrite H.
  - intro H. unfold resize. destruct (list_Items (tenantList m)); [reflexivity | contradiction].
Qed.

(** A dial that fails leaves the model without clients; the command that
    comes back reports the failure, with the address, and the wizard goes
    to Error.  No list call is made. *)
Theorem dial_failure (p : Program) (e : Err) (w : World) :
  grpc_Dial (serverAddr (current p)) (remote (system p)) = (inl e, w) ->
  feed p connectMsg
  = {| current := current p;
       pending := (pending p ++ [CmdConnectFailed (serverAddr (current p)) e])%list;
       system := {| remote := w; events := events (system p) |};
       phase := Running |}
  /\ complete (feed p connectMsg) (List.length (pending p))
     = {| current := set_mstate stateError
                       (set_err (connectError (serverAddr (current p)) e) (current p));
          pending := pending p;
          system := {| remote := w; events := events (system p) |};
          phase := Running |}.
Proof.
  intro Hdial.
  assert (Hfeed : feed p connectMsg
                  = {| current := current p;
                       pending := (pending p ++ [CmdConnectFailed (serverAddr (current p)) e])%list;
                       system := {| remote := w; events := events (system p) |};
                       phase := Running |}).
  { unfold feed. cbn [Update]. unfold handleConnect, bind, call.
    rewrite Hdial. reflexivity. }
  split; [exact Hfeed|].
  rewrite Hfeed. unfold complete. cbn [pending].
  rewrite nth_error_app2, Nat.sub_diag by lia. cbn [nth_error runCmd].
  rewrite firstn_app, Nat.sub_diag, firstn_all, firstn_O, app_nil_r.
  rewrite skipn_all2 by (rewrite length_app; simpl; lia).
  rewrite app_nil_r. reflexivity.
Qed.

(** A dial that succeeds sets the five clients to the new connection and
    asks for the tenants with it, under the token of the model. *)
Theorem dial_success (m : model) (conn : Conn) (w : World) (s : Sys) :
  grpc_Dial (serverAddr m) (remote s) = (inr conn, w) ->
  exists m' : model,
    Update m connectMsg s
    = (Returned (m', CmdLoadTenants m'), {| remote := w; events := events s |})
    /\ client m' = Some conn /\ tenantClient m' = Some conn
    /\ appClient m' = Some conn /\ deviceClient m' = Some conn
    /\ profileClient m' = Some conn
    /\ mstate m' = mstate m
    /\ forall s1 : Sys,
         loadTenants m' s1
         = match TenantService_List conn ("Bearer " ++ apiToken m)
                   {| ListTenants_Limit := 100 |} (remote s1) with
           | (inl e, w1) =>
             (Returned (errorMsg e), {| remote := w1; events := events s1 |})
           | (inr result, w1) =>
             (Returned (tenantsLoadedMsg (map tenantItem result)),
              {| remote := w1; events := events s1 |})
           end.
Proof.
  intro Hdial. eexists. split.
  - cbn [Update]. unfold handleConnect, bind, call. rewrite Hdial. reflexivity.
  - cbn. repeat split.
    intro s1. unfold loadTenants, bind, call, stub, outgoingContext, ret. cbn.
    destruct (TenantService_List conn _ _ (remote s1)) as [[e|result] w1];
      [reflexivity|].
    now rewrite (fold_append_map tenantItem).
Qed.

End Arrivals.


(** * Further properties of the runs *)

Section Completions.
Context {P : Platform} {W : Widgets} {Svc : Services}.

(** What the completion of a pending command does once it is known what the
    command sends. *)
Lemma complete_sends (p : Program) (k : nat) (cmd : Cmd) (run : M Msg)
  (msg : Msg) (s : Sys) :
  nth_error (pending p) k = Some cmd ->
  runCmd cmd = Some run ->
  run (system p) = (Returned msg, s) ->
  complete p k
  = feed {| current := current p;
            pending := (firstn k (pending p) ++ skipn (S k) (pending p))%list;
            system := s;
            phase := Running |} msg.
Proof.
  intros Hk Hcmd Hrun. unfold complete. rewrite Hk.
  destruct cmd; cbn [runCmd] in Hcmd; try discriminate;
    inversion Hcmd; subst; cbn [runCmd]; now rewrite Hrun.
Qed.

(** A list call that fails fails the whole load: whichever of the three
    lists was asked for, the wizard goes to Error with the error of the call,
    no list is replaced and no selection is touched. *)
Theorem load_failure (p : Program) (k : nat) (cmd : Cmd) (m : model)
  (c : Conn) (e : Err) (w : World) :
  nth_error (pending p) k = Some cmd ->
  (cmd = CmdLoadTenants m
   /\ tenantClient m = Some c
   /\ TenantService_List c (outgoingContext m) {| ListTenants_Limit := 100 |}
        (remote (system p)) = (inl e, w))
  \/ (cmd = CmdLoadApplications m
      /\ appClient m = Some c
      /\ ApplicationService_List c (outgoingContext m)
           {| ListApplications_TenantId := selectedTenant m;
              ListApplications_Limit := 100 |} (remote (system p)) = (inl e, w))
  \/ (cmd = CmdLoadDeviceProfiles m
      /\ profileClient m = Some c
      /\ DeviceProfileService_List c (outgoingContext m)
           {| ListDeviceProfiles_TenantId := selectedTenant m;
              ListDeviceProfiles_Limit := 100 |} (remote (system p)) = (inl e, w)) ->
  complete p k
  = {| current := set_mstate stateError (set_err e (current p));
       pending := (firstn k (pending p) ++ skipn (S k) (pending p))%list;
       system := {| remote := w; events := events (system p) |};
       phase := Running |}.
Proof.
  intros Hk Hcase.
  assert (Hsend : exists run,
             runCmd cmd = Some run
             /\ run (system p)
                = (Returned (errorMsg e),
                   {| remote := w; events := events (system p) |})).
  { destruct Hcase as [(-> & Hc & Hcall)|[(-> & Hc & Hcall)|(-> & Hc & Hcall)]];
      eexists; (split; [reflexivity|]).
    - unfold loadTenants, bind, call, stub, ret. rewrite Hc.
      cbv beta iota zeta. now rewrite Hcall.
    - unfold loadApplications, bind, call, stub, ret. rewrite Hc.
      cbv beta iota zeta. now rewrite Hcall.
    - unfold loadDeviceProfiles, bind, call, stub, ret. rewrite Hc.
      cbv beta iota zeta. now rewrite Hcall. }
  destruct Hsend as (run & Hcmd & Hrun).
  rewrite (complete_sends p k cmd run _ _ Hk Hcmd Hrun). reflexivity.
Qed.

(** [Update] does not look at the state when a list arrives: the tenants of
    a load that completes late replace the list and take the wizard to the
    tenant selection from wherever it is, Error and Complete included. *)
Theorem late_list_reopens_selection (p : Program) (k : nat) (m : model)
  (c : Conn) (result : list TenantListItem) (w : World) :
  nth_error (pending p) k = Some (CmdLoadTenants m) ->
  tenantClient m = Some c ->
  TenantService_List c (outgoingContext m) {| ListTenants_Limit := 100 |}
    (remote (system p)) = (inr result, w) ->
  mstate (current (complete p k)) = stateTenantSelect
  /\ tenantList (current (complete p k))
     = newList "Select Tenant" (map tenantItem result) (current p)
  /\ err (current (complete p k)) = err (current p)
  /\ devicesCreated (current (complete p k)) = devicesCreated (current p)
  /\ phase (complete p k) = Running.
Proof.
  intros Hk Hc Hcall.
  rewrite (complete_sends p k _ (loadTenants m)
             (tenantsLoadedMsg (map tenantItem result))
             {| remote := w; events := events (system p) |} Hk eq_refl).
  - repeat split.
  - now apply loadTenants_items with (c := c).
Qed.

Lemma Update_serverAddr (m : model) (msg : Msg) (s : Sys)
  (m' : model) (cmd : Cmd) (s' : Sys) :
  Update m msg s = (Returned (m', cmd), s') -> serverAddr m' = serverAddr m.
Proof.
  intro Hupd.
  assert (Henter : serverAddr (fst (handleEnter m)) = serverAddr m).
  { unfold handleEnter. destruct (mstate m); try reflexivity.
    - now destruct (negb _).
    - now destruct (list_SelectedItem _).
    - now destruct (list_SelectedItem _).
    - now destruct (list_SelectedItem _). }
  assert (Hfocus : serverAddr (fst (updateFocused m msg)) = serverAddr m).
  { unfold updateFocused. destruct (mstate m); try reflexivity.
    - now destruct (textinput_Update _ _).
    - now destruct (list_Update _ _).
    - now destruct (list_Update _ _).
    - now destruct (list_Update _ _).
    - destruct (filepicker_Update _ _) as [fp c]. cbn [filepicker set_filepicker].
      now destruct (filepicker_DidSelectFile fp msg) as [[|] path]. }
  destruct msg as [w h|k| |items|items|items|n|e|f]; cbn [Update] in Hupd;
    unfold ret in Hupd.
  - now inversion Hupd; subst.
  - destruct ((keyString k =? "ctrl+c") || (keyString k =? "q"))%string.
    + unfold bind in Hupd. rewrite closeClient_returns in Hupd.
      now inversion Hupd; subst.
    + destruct (keyString k =? "enter")%string;
        inversion Hupd as [[Heq Hs]]; [rewrite Heq in Henter | rewrite Heq in Hfocus];
        assumption.
  - unfold handleConnect, bind, call in Hupd.
    destruct (grpc_Dial (serverAddr m) (remote s)) as [[e|conn] w1];
      now inversion Hupd; subst.
  - now inversion Hupd; subst.
  - now inversion Hupd; subst.
  - now inversion Hupd; subst.
  - now inversion Hupd; subst.
  - now inversion Hupd; subst.
  - destruct (foreignError f) as [e|].
    + now inversion Hupd; subst.
    + inversion Hupd as [[Heq Hs]]. rewrite Heq in Hfocus. exact Hfocus.
Qed.

(** The server address is never assigned after [initialModel]: on every run
    each connection attempt dials "localhost:8081" and nothing else. *)
Theorem dials_localhost (w : World) (p : Program) :
  reachable w p ->
  serverAddr (current p) = "localhost:8081"
  /\ forall s : Sys,
       Update (current p) connectMsg s
       = match grpc_Dial "localhost:8081" (remote s) with
         | (inl e, w') =>
           (Returned (current p, CmdConnectFailed "localhost:8081" e),
            {| remote := w'; events := events s |})
         | (inr conn, w') =>
           (Returned (set_clients conn (current p),
                      CmdLoadTenants (set_clients conn (current p))),
            {| remote := w'; events := events s |})
         end.
Proof.
  intro Hreach.
  assert (Haddr : serverAddr (current p) = "localhost:8081").
  { apply (reachable_model (fun m => serverAddr m = "localhost:8081") w);
      [reflexivity | | exact Hreach].
    intros m msg s m' cmd s' Hm Hupd.
    rewrite (Update_serverAddr _ _ _ _ _ _ Hupd). exact Hm. }
  split; [exact Haddr|].
  intro s. cbn [Update]. unfold handleConnect, bind, call. rewrite Haddr.
  now destruct (grpc_Dial "localhost:8081" (remote s)) as [[e|conn] w'].
Qed.

End Completions.


(** * Calls and crashes along the runs *)

Section Wirings.
Context {P : Platform} {W : Widgets} {Svc : Services}.

Ltac levels :=
  do 2 (unfold level, keeps, connected, cmdWired in *;
        cbn in *;
        repeat match goal with
               | H : mstate ?m = _ |- context [mstate ?m] => rewrite H
               end);
  cbn in *; intuition (try discriminate; try congruence; auto).

Lemma level_le (n k : nat) (m : model) : (k <= n)%nat -> level n m -> level k m.
Proof.
  intros Hle (H1 & H2). unfold level.
  split; intro Hk; apply Nat.leb_le in Hk; [apply H1 | apply H2];
    apply Nat.leb_le; lia.
Qed.

Lemma level_keeps (n : nat) (m m' : model) : keeps m m' -> level n m -> level n m'.
Proof. unfold keeps, level. tauto. Qed.

Lemma handleEnter_wired (m : model) :
  level (stateLevel (mstate m)) m ->
  level (stateLevel (mstate (fst (handleEnter m)))) (fst (handleEnter m))
  /\ keeps m (fst (handleEnter m))
  /\ cmdWired (snd (handleEnter m))
  /\ level (cmdLevel (snd (handleEnter m))) (fst (handleEnter m)).
Proof.
  intro Hm. unfold handleEnter.
  destruct (mstate m) eqn:Hst; cbn [stateLevel] in Hm.
  - destruct (String.eqb_spec (textinput_Value (tokenInput m)) "") as [Hv|Hv];
      cbn [negb]; levels.
  - destruct (list_SelectedItem (tenantList m)); levels.
  - destruct (list_SelectedItem (appList m)); levels.
  - destruct (list_SelectedItem (profileList m)); [|levels].
    destruct (filepicker_Init _); levels.
  - levels.
  - levels.
  - levels.
  - levels.
Qed.

Lemma updateFocused_wired (m : model) (msg : Msg) :
  level (stateLevel (mstate m)) m ->
  level (stateLevel (mstate (fst (updateFocused m msg)))) (fst (updateFocused m msg))
  /\ keeps m (fst (updateFocused m msg))
  /\ cmdWired (snd (updateFocused m msg))
  /\ level (cmdLevel (snd (updateFocused m msg))) (fst (updateFocused m msg)).
Proof.
  intro Hm. unfold updateFocused.
  destruct (mstate m) eqn:Hst; cbn [stateLevel] in Hm.
  - destruct (textinput_Update (tokenInput m) msg) as [w [c|]]; levels.
  - destruct (list_Update (tenantList m) msg) as [w [c|]]; levels.
  - destruct (list_Update (appList m) msg) as [w [c|]]; levels.
  - destruct (list_Update (profileList m) msg) as [w [c|]]; levels.
  - destruct (filepicker_Update (filepicker m) msg) as [fp c].
    cbn [filepicker set_filepicker].
    destruct (filepicker_DidSelectFile fp msg) as [[|] path]; [levels|].
    destruct c; levels.
  - levels.
  - levels.
  - levels.
Qed.

(** [Update] has no index expression and calls no client: it returns. *)
Lemma Update_returns (m : model) (msg : Msg) (s : Sys) :
  exists (m' : model) (cmd : Cmd) (s' : Sys),
    Update m msg s = (Returned (m', cmd), s').
Proof.
  destruct msg as [w h|k| |items|items|items|n|e|f]; cbn [Update]; unfold ret;
    try (do 3 eexists; reflexivity).
  - destruct ((keyString k =? "ctrl+c") || (keyString k =? "q"))%string.
    + unfold bind. rewrite closeClient_returns. do 3 eexists. reflexivity.
    + destruct (keyString k =? "enter")%string;
        [destruct (handleEnter m) | destruct (updateFocused m (KeyMsg k))];
        do 3 eexists; reflexivity.
  - unfold handleConnect, bind, call.
    destruct (grpc_Dial (serverAddr m) (remote s)) as [[e|conn] w1];
      do 3 eexists; reflexivity.
  - destruct (foreignError f) as [e|]; [|destruct (updateFocused m (ForeignMsg f))];
      do 3 eexists; reflexivity.
Qed.

Lemma Update_wired (m : model) (msg : Msg) (s : Sys)
  (m' : model) (cmd : Cmd) (s' : Sys) :
  level (stateLevel (mstate m)) m ->
  level (msgLevel msg) m ->
  Update m msg s = (Returned (m', cmd), s') ->
  level (stateLevel (mstate m')) m'
  /\ keeps m m' /\ cmdWired cmd /\ level (cmdLevel cmd) m'.
Proof.
  intros Hm Hmsg Hupd.
  destruct msg as [w h|k| |items|items|items|n|e|f]; cbn [Update] in Hupd;
    unfold ret in Hupd; cbn [msgLevel] in Hmsg.
  - inversion Hupd; subst; clear Hupd. levels.
  - destruct ((keyString k =? "ctrl+c") || (keyString k =? "q"))%string.
    + unfold bind in Hupd. rewrite closeClient_returns in Hupd.
      inversion Hupd; subst. levels.
    + destruct (keyString k =? "enter")%string; inversion Hupd as [[Heq Hs]].
      * pose proof (handleEnter_wired m Hm) as H. now rewrite Heq in H.
      * pose proof (updateFocused_wired m (KeyMsg k) Hm) as H. now rewrite Heq in H.
  - unfold handleConnect, bind, call in Hupd.
    destruct (grpc_Dial (serverAddr m) (remote s)) as [[e|conn] w1];
      inversion Hupd; subst; clear Hupd; levels.
  - inversion Hupd; subst; clear Hupd. levels.
  - inversion Hupd; subst; clear Hupd. levels.
  - inversion Hupd; subst; clear Hupd. levels.
  - inversion Hupd; subst; clear Hupd. levels.
  - inversion Hupd; subst; clear Hupd. levels.
  - destruct (foreignError f) as [e|].
    + inversion Hupd; subst; clear Hupd. levels.
    + inversion Hupd as [[Heq Hs]].
      pose proof (updateFocused_wired m (ForeignMsg f) Hm) as H. now rewrite Heq in H.
Qed.

(** With a device client the loop over the rows returns. *)
Lemma forRows_returns (m : model) (ctx : string) (conn : Conn)
  (rows : list (list string)) :
  deviceClient m = Some conn ->
  forall (created : Z) (s : Sys),
    exists (created' : Z) (s' : Sys),
      forRows m ctx rows created s = (Returned created', s').
Proof.
  intro Hconn. induction rows as [|record rows IH]; intros created s; cbn [forRows].
  - do 2 eexists. reflexivity.
  - unfold bind.
    destruct (Nat.lt_ge_cases (List.length record) 2) as [Hshort|Hlong].
    + rewrite createRow_short by exact Hshort. apply IH.
    + rewrite (createRow_call _ _ _ _ _ conn Hconn Hlong). cbv zeta.
      match goal with
      | |- context [DeviceService_Create ?c ?x ?d ?w] =>
        destruct (DeviceService_Create c x d w) as [[e|] w1]
      end; apply IH.
Qed.

(** What a command of a wired model does not do and what it sends. *)
Lemma runCmd_wired (cmd : Cmd) (run : M Msg) (s : Sys) :
  cmdWired cmd ->
  runCmd cmd = Some run ->
  fst (run s) <> Panicked NilDereference
  /\ forall msg, fst (run s) = Returned msg -> (msgLevel msg <= cmdLevel cmd)%nat.
Proof.
  intros Hwired Hcmd.
  destruct cmd as [| | |addr e|m|m|m|m path|c]; cbn [runCmd] in Hcmd;
    inversion Hcmd; subst; clear Hcmd; cbn [cmdLevel cmdWired] in *.
  - split; [discriminate|]. intros msg H. inversion H; subst. simpl. lia.
  - split; [discriminate|]. intros msg H. inversion H; subst. simpl. lia.
  - destruct Hwired as [_ Hconn]. destruct (Hconn eq_refl) as (_ & Hc & _).
    unfold loadTenants, bind, call, stub, ret.
    destruct (tenantClient m) as [c|]; [|contradiction]. cbv beta iota zeta.
    destruct (TenantService_List c _ _ (remote s)) as [[e|result] w];
      (split; [discriminate|]); intros msg H; inversion H; subst; simpl; lia.
  - destruct Hwired as [_ Hconn]. destruct (Hconn eq_refl) as (_ & _ & Hc & _).
    unfold loadApplications, bind, call, stub, ret.
    destruct (appClient m) as [c|]; [|contradiction]. cbv beta iota zeta.
    destruct (ApplicationService_List c _ _ (remote s)) as [[e|result] w];
      (split; [discriminate|]); intros msg H; inversion H; subst; simpl; lia.
  - destruct Hwired as [_ Hconn]. destruct (Hconn eq_refl) as (_ & _ & _ & _ & Hc).
    unfold loadDeviceProfiles, bind, call, stub, ret.
    destruct (profileClient m) as [c|]; [|contradiction]. cbv beta iota zeta.
    destruct (DeviceProfileService_List c _ _ (remote s)) as [[e|result] w];
      (split; [discriminate|]); intros msg H; inversion H; subst; simpl; lia.
  - destruct Hwired as [_ Hconn]. destruct (Hconn eq_refl) as (_ & _ & _ & Hc & _).
    destruct (deviceClient m) as [conn|] eqn:Hdev; [|contradiction].
    split.
    + unfold processCSV, bind, peek, ret.
      destruct (os_Open path (remote s)) as [e|file]; [discriminate|].
      destruct (csv_ReadAll file) as [e|records]; [discriminate|].
      destruct (headerStart records s) as [[start|e] s1] eqn:Hstart.
      * rewrite rowsLoop_forRows by lia.
        destruct (forRows_returns m (outgoingContext m) conn (skipn start records)
                    Hdev 0 s1) as (created & s2 & Hrows).
        rewrite Hrows. discriminate.
      * simpl. intro H. inversion H; subst.
        destruct records as [|[|cell row] rest]; try discriminate.
        rewrite headerStart_cell in Hstart. discriminate.
    + intros msg H.
      destruct (processCSV m path s) as [out s'] eqn:Hrun. simpl in H. subst out.
      destruct (processCSV_msg _ _ _ _ _ Hrun) as [[e ->]|[n ->]]; simpl; lia.
Qed.

Lemma Wired_start (w : World) : Wired (start w).
Proof. split; [levels | repeat constructor; levels]. Qed.

Lemma Wired_feed (p : Program) (msg : Msg) :
  Wired p -> level (msgLevel msg) (current p) -> Wired (feed p msg).
Proof.
  intros [Hm Hpending] Hmsg. unfold feed.
  destruct (Update (current p) msg (system p)) as [[[m cmd]|e] s] eqn:Hupd.
  - destruct (Update_wired _ _ _ _ _ _ Hm Hmsg Hupd) as (Hm' & Hkeep & Hcmd & Hcur).
    split; [exact Hm'|]. cbn [current pending].
    assert (Hold : Forall (fun c => cmdWired c /\ level (cmdLevel c) m) (pending p)).
    { eapply Forall_impl; [|exact Hpending].
      intros c [Hok Hst]. split; [exact Hok|].
      eapply level_keeps; eassumption. }
    destruct cmd; cbn [enqueue]; try exact Hold;
      (apply Forall_app; split; [exact Hold | constructor; [now split | constructor]]).
  - split; assumption.
Qed.

Lemma Wired_complete (p : Program) (k : nat) : Wired p -> Wired (complete p k).
Proof.
  intros [Hm Hpending]. unfold complete.
  destruct (nth_error (pending p) k) as [cmd|] eqn:Hk; [|now split].
  pose proof (firstn_skipn_middle _ _ Hk) as Hsplit.
  rewrite <- Hsplit in Hpending.
  apply Forall_app in Hpending. destruct Hpending as [Hpre Hpost].
  inversion Hpost as [|? ? [Hok Hst] Hpost']; subst.
  assert (Hrest : Forall (fun c => cmdWired c /\ level (cmdLevel c) (current p))
                         (firstn k (pending p) ++ skipn (S k) (pending p))).
  { apply Forall_app. now split. }
  assert (Hidle : forall s ph,
             Wired {| current := current p;
                      pending := (firstn k (pending p) ++ skipn (S k) (pending p))%list;
                      system := s; phase := ph |}).
  { intros s ph. split; assumption. }
  destruct (runCmd cmd) as [run|] eqn:Hrun.
  - assert (Hgo :
      Wired match run (system p) with
            | (Returned msg, s) =>
              feed {| current := current p;
                      pending := (firstn k (pending p) ++ skipn (S k) (pending p))%list;
                      system := s; phase := Running |} msg
            | (Panicked e, s) =>
              {| current := current p;
                 pending := (firstn k (pending p) ++ skipn (S k) (pending p))%list;
                 system := s; phase := Crashed e |}
            end).
    { destruct (runCmd_wired cmd run (system p) Hok Hrun) as [_ Hle].
      destruct (run (system p)) as [[msg|e] s] eqn:Hres; [|apply Hidle].
      apply Wired_feed; [apply Hidle|].
      cbn [current]. eapply level_le; [apply Hle; reflexivity | exact Hst]. }
    destruct cmd; try discriminate; exact Hgo.
  - destruct cmd; try discriminate; apply Hidle.
Qed.

Lemma reachable_Wired (w : World) (p : Program) : reachable w p -> Wired p.
Proof.
  induction 1 as [|p q Hreach IH Hstep].
  - apply Wired_start.
  - destruct Hstep as [p msg _ Hext|p k _ _].
    + apply Wired_feed; [exact IH|].
      destruct msg; try discriminate; levels.
    + now apply Wired_complete.
Qed.

(** How a step can end in a crash: only by a pending command that panics. *)
Lemma step_crash (p q : Program) (e : Panic) :
  step p q ->
  phase q = Crashed e ->
  exists (k : nat) (cmd : Cmd) (run : M Msg),
    nth_error (pending p) k = Some cmd
    /\ runCmd cmd = Some run
    /\ fst (run (system p)) = Panicked e.
Proof.
  intros Hstep Hq. destruct Hstep as [p msg Hrun _|p k Hrun Hk].
  - unfold feed in Hq.
    destruct (Update_returns (current p) msg (system p)) as (m' & cmd & s' & Hupd).
    rewrite Hupd in Hq. discriminate.
  - unfold complete in Hq.
    destruct (nth_error (pending p) k) as [cmd|] eqn:Hcmd; [|congruence].
    exists k, cmd.
    destruct cmd; cbn [runCmd] in *; try discriminate Hq;
      (eexists; split; [exact Hcmd|]; split; [reflexivity|];
       match goal with
       | |- fst (?r ?s) = _ => destruct (r s) as [[msg|e0] s0]
       end;
       [ unfold feed in Hq; cbn [current system] in Hq;
         destruct (Update_returns (current p) msg s0) as (m' & c' & s' & Hupd);
         rewrite Hupd in Hq; discriminate
       | cbn in *; congruence ]).
Qed.

Lemma reachable_clients (w : World) (p : Program) :
  reachable w p -> phase p <> Crashed NilDereference.
Proof.
  induction 1 as [|p q Hreach IH Hstep].
  - discriminate.
  - intro Hq.
    destruct (step_crash p q _ Hstep Hq) as (k & cmd & run & Hk & Hcmd & Hpanic).
    destruct (reachable_Wired w p Hreach) as [_ Hpending].
    rewrite Forall_forall in Hpending.
    destruct (Hpending cmd (nth_error_In _ _ Hk)) as [Hwired _].
    destruct (runCmd_wired cmd run (system p) Hwired Hcmd) as [Hno _].
    contradiction.
Qed.

(** No run dereferences a nil client: whatever the order in which keys are
    pressed and commands complete, the program has not panicked on a nil
    client, and no command that is pending can, whenever it runs and whatever
    the outside is then: a loader or an import is only issued on a model
    whose clients [handleConnect] has set. *)
Theorem no_nil_dereference (w : World) (p : Program) :
  reachable w p ->
  phase p <> Crashed NilDereference
  /\ forall (cmd : Cmd) (run : M Msg) (s : Sys),
       In cmd (pending p) ->
       runCmd cmd = Some run ->
       fst (run s) <> Panicked NilDereference.
Proof.
  intro Hreach. split; [now apply (reachable_clients w)|].
  intros cmd run s Hin Hcmd.
  destruct (reachable_Wired w p Hreach) as [_ Hpending].
  rewrite Forall_forall in Hpending.
  destruct (Hpending cmd Hin) as [Hwired _].
  now destruct (runCmd_wired cmd run s Hwired Hcmd).
Qed.

(** On rows as [encoding/csv] returns them, with a cell each, no run panics
    at all: the program is running or has quit. *)
Theorem never_crashes (w : World) (p : Program) :
  (forall file records,
      csv_ReadAll file = inr records -> Forall (fun row => row <> []) records) ->
  reachable w p ->
  phase p = Running \/ phase p = Exited.
Proof.
  intros Hcsv Hreach.
  destruct (phase p) as [| |e] eqn:Hphase; [now left | now right | exfalso].
  destruct e.
  - destruct Hreach as [|p q Hreach Hstep]; [discriminate|].
    destruct (step_crash p q _ Hstep Hphase) as (k & cmd & run & Hk & Hcmd & Hpanic).
    destruct cmd as [| | |addr e|m|m|m|m path|c]; cbn [runCmd] in Hcmd;
      inversion Hcmd; subst; clear Hcmd.
    + discriminate.
    + discriminate.
    + unfold loadTenants, bind, call, stub, ret in Hpanic.
      destruct (tenantClient m); [|discriminate]. cbv beta iota zeta in Hpanic.
      now destruct (TenantService_List _ _ _ _) as [[e|r] w1].
    + unfold loadApplications, bind, call, stub, ret in Hpanic.
      destruct (appClient m); [|discriminate]. cbv beta iota zeta in Hpanic.
      now destruct (ApplicationService_List _ _ _ _) as [[e|r] w1].
    + unfold loadDeviceProfiles, bind, call, stub, ret in Hpanic.
      destruct (profileClient m); [|discriminate]. cbv beta iota zeta in Hpanic.
      now destruct (DeviceProfileService_List _ _ _ _) as [[e|r] w1].
    + now apply (processCSV_in_bounds m path (system p) Hcsv).
  - now apply (reachable_clients w p Hreach).
Qed.



(** ** The calls a run makes *)

Definition closing (e : Event) : Prop :=
  match e with
  | EvClose _ => True
  | _ => False
  end.

Lemma createRow_events (m : model) (ctx : string) (record : list string)
  (created : Z) (s : Sys) :
  exists es : list Event,
    events (snd (createRow m ctx record created s)) = (events s ++ es)%list
    /\ Forall (rowEvent m ctx) es.
Proof.
  destruct (Nat.lt_ge_cases (List.length record) 2) as [Hshort|Hlong].
  - rewrite createRow_short by exact Hshort. exists []. simpl.
    now rewrite app_nil_r.
  - destruct (deviceClient m) as [conn|] eqn:Hconn.
    + rewrite (createRow_call _ _ _ _ _ conn Hconn Hlong). cbv zeta.
      assert (Hdev : rowEvent m ctx
                (EvCreate ctx (specDevice (selectedApp m) (selectedProfile m) record) None)
              /\ forall e, rowEvent m ctx
                (EvCreate ctx (specDevice (selectedApp m) (selectedProfile m) record) (Some e))).
      { destruct record as [|devEui [|name [|description rest]]];
          simpl in Hlong; try lia; repeat split. }
      destruct Hdev as [Hnone Hsome].
      match goal with
      | |- context [DeviceService_Create ?c ?x ?d ?w] =>
        destruct (DeviceService_Create c x d w) as [[e|] w1]
      end; eexists; (split; [reflexivity|]); repeat constructor; auto.
    + rewrite createRow_nil by assumption. exists []. simpl.
      now rewrite app_nil_r.
Qed.

(** Whatever the loop over the rows comes to, it leaves create calls and log
    lines only, each call under the context and the two ids of its model. *)
Lemma forRows_events (m : model) (ctx : string) (rows : list (list string)) :
  forall (created : Z) (s : Sys),
    exists es : list Event,
      events (snd (forRows m ctx rows created s)) = (events s ++ es)%list
      /\ Forall (rowEvent m ctx) es.
Proof.
  induction rows as [|record rows IH]; intros created s; cbn [forRows].
  - exists []. simpl. now rewrite app_nil_r.
  - unfold bind.
    destruct (createRow_events m ctx record created s) as (es1 & H1 & Hes1).
    destruct (createRow m ctx record created s) as [[created'|e] s1]; simpl in H1.
    + destruct (IH created' s1) as (es2 & H2 & Hes2).
      exists (es1 ++ es2)%list. rewrite H2, H1, app_assoc.
      split; [reflexivity|]. apply Forall_app. now split.
    + exists es1. now split.
Qed.

Lemma processCSV_events (m : model) (path : string) (s : Sys) :
  exists es : list Event,
    events (snd (processCSV m path s)) = (events s ++ es)%list
    /\ Forall (rowEvent m (outgoingContext m)) es.
Proof.
  assert (Hidle : exists es : list Event,
             events s = (events s ++ es)%list
             /\ Forall (rowEvent m (outgoingContext m)) es).
  { exists []. now rewrite app_nil_r. }
  unfold processCSV, bind, peek, ret.
  destruct (os_Open path (remote s)) as [e|file]; [exact Hidle|].
  destruct (csv_ReadAll file) as [e|records]; [exact Hidle|].
  destruct records as [|[|cell row] rest].
  - exact Hidle.
  - exact Hidle.
  - rewrite headerStart_cell. rewrite rowsLoop_forRows by lia.
    destruct (forRows_events m (outgoingContext m)
                (skipn (if isHexString cell then 0%nat else 1%nat)
                       ((cell :: row) :: rest)) 0 s) as (es & Hes & Hall).
    destruct (forRows m (outgoingContext m) _ 0 s) as [[created|e] s'];
      exists es; now split.
Qed.

(** [Update] makes no call of its own: it only closes the connection. *)
Lemma Update_events (m : model) (msg : Msg) (s : Sys) :
  exists es : list Event,
    events (snd (Update m msg s)) = (events s ++ es)%list /\ Forall closing es.
Proof.
  assert (Hidle : exists es : list Event,
             events s = (events s ++ es)%list /\ Forall closing es).
  { exists []. now rewrite app_nil_r. }
  destruct msg as [w h|k| |items|items|items|n|e|f]; cbn [Update]; unfold ret;
    try exact Hidle.
  - destruct ((keyString k =? "ctrl+c") || (keyString k =? "q"))%string.
    + unfold bind. rewrite closeClient_returns.
      destruct (client m) as [c|]; [|exact Hidle].
      exists [EvClose c]. split; [reflexivity | repeat constructor].
    + destruct (keyString k =? "enter")%string; exact Hidle.
  - unfold handleConnect, bind, call.
    destruct (grpc_Dial (serverAddr m) (remote s)) as [[e|conn] w1]; exact Hidle.
  - destruct (foreignError f); exact Hidle.
Qed.

Lemma feed_events (p : Program) (msg : Msg) :
  exists es : list Event,
    events (system (feed p msg)) = (events (system p) ++ es)%list
    /\ Forall closing es.
Proof.
  unfold feed.
  destruct (Update_events (current p) msg (system p)) as (es & Hes & Hall).
  destruct (Update (current p) msg (system p)) as [[[m cmd]|e] s];
    exists es; now split.
Qed.

(** The events of one step: the closing of the connection, or the calls and
    log lines of an import that was pending. *)
Lemma step_events (p q : Program) :
  step p q ->
  exists es : list Event,
    events (system q) = (events (system p) ++ es)%list
    /\ Forall (fun e =>
                 closing e
                 \/ exists m path,
                     In (CmdProcessCSV m path) (pending p)
                     /\ rowEvent m (outgoingContext m) e) es.
Proof.
  intro Hstep. destruct Hstep as [p msg _ _|p k _ _].
  - destruct (feed_events p msg) as (es & Hes & Hall).
    exists es. split; [exact Hes|].
    eapply Forall_impl; [|exact Hall]. intros e He. now left.
  - unfold complete.
    assert (Hidle : exists es : list Event,
               events (system p) = (events (system p) ++ es)%list
               /\ Forall (fun e =>
                            closing e
                            \/ exists m path,
                                In (CmdProcessCSV m path) (pending p)
                                /\ rowEvent m (outgoingContext m) e) es).
    { exists []. now rewrite app_nil_r. }
    destruct (nth_error (pending p) k) as [cmd|] eqn:Hk; [|exact Hidle].
    pose proof (nth_error_In _ _ Hk) as Hin.
    assert (Hgo : forall (run : M Msg) (es1 : list Event),
               events (snd (run (system p))) = (events (system p) ++ es1)%list ->
               Forall (fun e =>
                         closing e
                         \/ exists m path,
                             In (CmdProcessCSV m path) (pending p)
                             /\ rowEvent m (outgoingContext m) e) es1 ->
               exists es : list Event,
                 events (system
                   match run (system p) with
                   | (Returned msg, s) =>
                     feed {| current := current p;
                             pending := (firstn k (pending p) ++ skipn (S k) (pending p))%list;
                             system := s; phase := Running |} msg
                   | (Panicked e, s) =>
                     {| current := current p;
                        pending := (firstn k (pending p) ++ skipn (S k) (pending p))%list;
                        system := s; phase := Crashed e |}
                   end) = (events (system p) ++ es)%list
                 /\ Forall (fun e =>
                              closing e
                              \/ exists m path,
                                  In (CmdProcessCSV m path) (pending p)
                                  /\ rowEvent m (outgoingContext m) e) es).
    { intros run es1 H1 Hall1.
      destruct (run (system p)) as [[msg|e] s]; simpl in H1.
      - match goal with
        | |- context [feed ?p0 msg] =>
          destruct (feed_events p0 msg) as (es2 & H2 & Hall2)
        end.
        cbn [system] in H2. exists (es1 ++ es2)%list.
        rewrite H2, H1, app_assoc. split; [reflexivity|].
        apply Forall_app. split; [exact Hall1|].
        eapply Forall_impl; [|exact Hall2]. intros e He. now left.
      - exists es1. now split. }
    destruct cmd as [| | |addr e|m|m|m|m path|c]; cbn [runCmd system];
      try exact Hidle.
    + apply (Hgo _ []); [simpl; now rewrite app_nil_r | constructor].
    + apply (Hgo _ []); [|constructor].
      unfold loadTenants, bind, call, stub, ret.
      destruct (tenantClient m) as [c|]; [|simpl; now rewrite app_nil_r].
      cbv beta iota zeta.
      destruct (TenantService_List c _ _ (remote (system p))) as [[e|r] w1];
        simpl; now rewrite app_nil_r.
    + apply (Hgo _ []); [|constructor].
      unfold loadApplications, bind, call, stub, ret.
      destruct (appClient m) as [c|]; [|simpl; now rewrite app_nil_r].
      cbv beta iota zeta.
      destruct (ApplicationService_List c _ _ (remote (system p))) as [[e|r] w1];
        simpl; now rewrite app_nil_r.
    + apply (Hgo _ []); [|constructor].
      unfold loadDeviceProfiles, bind, call, stub, ret.
      destruct (profileClient m) as [c|]; [|simpl; now rewrite app_nil_r].
      cbv beta iota zeta.
      destruct (DeviceProfileService_List c _ _ (remote (system p))) as [[e|r] w1];
        simpl; now rewrite app_nil_r.
    + destruct (processCSV_events m path (system p)) as (es1 & H1 & Hall1).
      apply (Hgo _ es1 H1).
      eapply Forall_impl; [|exact Hall1]. intros e He. right. now exists m, path.
Qed.

(** Every create call of every run carries a bearer token that is not empty
    and asks for an enabled device: the connection is only made after the
    token was checked, and the import only starts on a connected model. *)
Theorem calls_are_authorised (w : World) (p : Program) :
  reachable w p -> Forall authorised (events (system p)).
Proof.
  induction 1 as [|p q Hreach IH Hstep].
  - constructor.
  - destruct (step_events p q Hstep) as (es & Hes & Hall).
    rewrite Hes. apply Forall_app. split; [exact IH|].
    destruct (reachable_Wired w p Hreach) as [_ Hpending].
    rewrite Forall_forall in Hpending.
    eapply Forall_impl; [|exact Hall].
    intros e [He|(m & path & Hin & He)].
    + destruct e; simpl in He; try contradiction. exact I.
    + destruct (Hpending _ Hin) as [[Htoken _] _].
      destruct e as [c d r| |]; simpl in *; [|exact I|exact I].
      destruct He as (Hc & _ & _ & Hd). split; [|exact Hd].
      exists (apiToken m). split; [now apply Htoken | exact Hc].
Qed.

End Wirings.

Section Addresses.
Context {P : Platform} {W : Widgets} {Svc : Services}.
Context {LL : ListLaws} {SI : ServerIds} {PP : PickerPaths}.

(** With a server that returns no empty id and a list that selects among its
    items, every create call of every run names an application and a device
    profile. *)
Theorem calls_name_the_selection (w : World) (p : Program) :
  reachable w p -> Forall addressed (events (system p)).
Proof.
  induction 1 as [|p q Hreach IH Hstep].
  - constructor.
  - destruct (step_events p q Hstep) as (es & Hes & Hall).
    rewrite Hes. apply Forall_app. split; [exact IH|].
    destruct (reachable_Inv w p Hreach) as [_ Hpending].
    rewrite Forall_forall in Hpending.
    eapply Forall_impl; [|exact Hall].
    intros e [He|(m & path & Hin & He)].
    + destruct e; simpl in He; try contradiction. exact I.
    + destruct (Hpending _ Hin) as [[(_ & _ & Happ & Hprofile) _] _].
      destruct e as [c d r| |]; simpl in *; [|exact I|exact I].
      destruct He as (_ & Ha & Hp & _). rewrite Ha, Hp.
      split; [now apply Happ | now apply Hprofile].
Qed.

End Addresses.

(** * The installation at work *)

#[local] Existing Instance Demo.platform.
#[local] Existing Instance Demo.widgets.
#[local] Existing Instance Demo.officeServices.

Lemma demo_ListLaws : @ListLaws Demo.platform Demo.widgets.
Proof.
  constructor; try reflexivity.
  - intros l msg. cbn. unfold Demo.moved.
    destruct msg as [w h|k| |items|items|items|n|e|f]; try reflexivity.
    destruct (k =? "down")%string; [reflexivity|].
    destruct (k =? "up")%string; reflexivity.
  - intros [items k] it Hsel. cbn in Hsel. unfold Demo.selected in Hsel. cbn in Hsel.
    destruct items as [items|]; [|discriminate].
    exists items. split; [reflexivity|]. eapply nth_error_In. exact Hsel.
Qed.

Lemma demo_PickerPaths : @PickerPaths Demo.platform Demo.widgets.
Proof.
  constructor. intros fp msg path H. cbn in H. unfold Demo.picked in H.
  destruct msg as [w h|k| |items|items|items|n|e|f]; try discriminate.
  destruct (String.eqb_spec f ""); [discriminate|].
  inversion H; subst. assumption.
Qed.

Lemma owned_Forall {A : Type} (Q : A -> Prop) (tenant : string)
  (l : list (string * A)) :
  Forall (fun e => Q (snd e)) l -> Forall Q (Demo.owned tenant l).
Proof.
  intro H. unfold Demo.owned. apply Forall_map.
  rewrite Forall_forall in *. intros e He. apply filter_In in He. now apply H.
Qed.

Lemma office_ServerIds : @ServerIds Demo.platform Demo.officeServices.
Proof.
  constructor; intros c ctx req w result w' H; inversion H; subst; clear H.
  - repeat constructor. discriminate.
  - apply owned_Forall. repeat constructor. discriminate.
  - apply owned_Forall. repeat constructor. discriminate.
Qed.

Lemma devices_in_bounds : headerInBounds Demo.devices.
Proof. intros rest H. discriminate. Qed.

Lemma names_in_bounds : headerInBounds Demo.names.
Proof. intros rest H. discriminate. Qed.

(** The import of [devices.csv]: five calls, the third refused, four devices
    created. *)
Lemma best_effort_batch_witness :
  exists (w : World) (es : list Event),
    processCSV Demo.ready "/home/op/devices.csv" Demo.fresh
    = (Returned (devicesCreatedMsg 4), {| remote := w; events := es |})
    /\ List.length (createCalls es) = 5%nat
    /\ logLines es = [("0102030405060701", "object already exists")]
    /\ exists m' : model,
         Update Demo.ready (devicesCreatedMsg 4) Demo.fresh
         = (Returned (m', CmdNil), Demo.fresh)
         /\ mstate m' = stateComplete
         /\ devicesCreated m' = 4.
Proof.
  destruct (best_effort_batch (Svc := Demo.officeServices)
              Demo.ready "/home/op/devices.csv" Demo.fresh
              (Some Demo.devices) Demo.devices "localhost:8081"
              eq_refl eq_refl devices_in_bounds eq_refl)
    as (start & created & w & es & Hstart & Hrun & Hcalls & Hcount & Hlog & Hfive & Hdone).
  - vm_compute. discriminate.
  - assert (Hval := Hrun). vm_compute in Hval.
    injection Hval as Hcreated Hw Hes. subst created w es.
    eexists. eexists. split; [exact Hrun|].
    split; [reflexivity|]. split; [reflexivity|].
    exact (Hdone Demo.ready Demo.fresh).
Defined.

(** The header of [devices.csv] is skipped. *)
Lemma header_detection_witness :
  headerStart Demo.devices Demo.fresh = (Returned 1%nat, Demo.fresh).
Proof.
  destruct (header_detection (Svc := Demo.officeServices) Demo.ready "/home/op/devices.csv" Demo.fresh
              (Some Demo.devices) Demo.devices eq_refl eq_refl devices_in_bounds)
    as (start & Hstart & Hrun & Hcases & Hiff & Hheader & Hdata).
  rewrite (Hheader _ _ eq_refl) in Hstart. exact Hstart.
Defined.

(** The rows of [names.csv] have two cells: the descriptions are empty. *)
Lemma create_call_fields_witness :
  exists (msg : Msg) (w : World) (es : list Event),
    processCSV Demo.ready "/home/op/names.csv" Demo.fresh
    = (Returned msg, {| remote := w; events := es |})
    /\ map fst (createCalls es)
       = [ {| DevEui := "04ABEF0123456789"; Name := "sensor-1"; Description := "";
              ApplicationId := Demo.applicationId;
              DeviceProfileId := Demo.profileId; IsDisabled := false |};
           {| DevEui := "04ABEF012345678A"; Name := "sensor-2"; Description := "";
              ApplicationId := Demo.applicationId;
              DeviceProfileId := Demo.profileId; IsDisabled := false |} ]
    /\ Demo.registered w = ["04ABEF0123456789"; "04ABEF012345678A"].
Proof.
  destruct (create_call_fields (Svc := Demo.officeServices) Demo.ready "/home/op/names.csv" Demo.fresh
              (Some Demo.names) Demo.names "localhost:8081"
              eq_refl eq_refl names_in_bounds eq_refl)
    as (start & msg & w & es & Hstart & Hrun & Hcalls & Hfields & Hserved).
  - vm_compute. discriminate.
  - assert (Hval := Hrun). vm_compute in Hval.
    injection Hval as Hmsg Hw Hes. subst msg w es.
    eexists. eexists. eexists.
    split; [exact Hrun | split; reflexivity].
Defined.

(** The rows of [euis.csv] have one cell: nothing is created, nothing is
    logged, and the import completes. *)
Lemma short_rows_skipped_witness :
  processCSV Demo.ready "/home/op/euis.csv" Demo.fresh
  = (Returned (devicesCreatedMsg 0), Demo.fresh).
Proof.
  destruct (short_rows_skipped (Svc := Demo.officeServices) Demo.ready "/home/op/euis.csv" Demo.fresh
              (Some [["04ABEF0123456789"]; ["04ABEF012345678A"]])
              [["04ABEF0123456789"]; ["04ABEF012345678A"]] 0
              ["04ABEF0123456789"] [] [["04ABEF012345678A"]]
              eq_refl eq_refl eq_refl eq_refl)
    as [Hrow Hrun].
  - simpl. lia.
  - rewrite Hrun. reflexivity.
Defined.

(** A path that is not on the disk, and a file that is not CSV. *)
Lemma read_failure_is_fatal_witness :
  processCSV Demo.ready "/home/op/missing.csv" Demo.fresh
  = (Returned (errorMsg "open: no such file or directory"), Demo.fresh)
  /\ processCSV Demo.ready "/home/op/notes.csv" Demo.fresh
     = (Returned (errorMsg "record on line 1: wrong number of fields"), Demo.fresh).
Proof.
  split.
  - apply (read_failure_is_fatal (Svc := Demo.officeServices) Demo.ready "/home/op/missing.csv" Demo.fresh
             "open: no such file or directory").
    left. reflexivity.
  - apply (read_failure_is_fatal (Svc := Demo.officeServices) Demo.ready "/home/op/notes.csv" Demo.fresh
             "record on line 1: wrong number of fields").
    right. exists None. split; reflexivity.
Defined.

(** The tenants as the office's server returns them to a model that has
    only just connected, and the two other lists once a tenant is chosen. *)
Lemma selection_lists_follow_response_witness :
  loadTenants (@set_clients Demo.platform Demo.widgets "localhost:8081"
                 (set_apiToken "secret" initialModel)) Demo.fresh
  = (Returned (tenantsLoadedMsg
                 [{| title := "ChirpStack"; desc := "ChirpStack";
                     id := Demo.tenantId |}]), Demo.fresh)
  /\ loadApplications Demo.ready Demo.fresh
     = (Returned (appsLoadedMsg
                    [{| title := "office"; desc := "sensors of the office";
                        id := Demo.applicationId |}]), Demo.fresh)
  /\ loadDeviceProfiles Demo.ready Demo.fresh
     = (Returned (profilesLoadedMsg
                    [{| title := "EU868 class A"; desc := "EU868 class A";
                        id := Demo.profileId |}]), Demo.fresh).
Proof.
  destruct (selection_lists_follow_response (Svc := Demo.officeServices)
              (@set_clients Demo.platform Demo.widgets "localhost:8081"
                 (set_apiToken "secret" initialModel)) Demo.fresh)
    as (Htenants & _ & _).
  destruct (selection_lists_follow_response (Svc := Demo.officeServices)
              Demo.ready Demo.fresh)
    as (_ & Happs & Hprofiles).
  destruct (Htenants "localhost:8081" (Demo.tenants Demo.office) Demo.home
              eq_refl eq_refl) as (ts & Hts & _).
  destruct (Happs "localhost:8081"
              (Demo.owned Demo.tenantId (Demo.applications Demo.office)) Demo.home
              eq_refl eq_refl) as (apps & Has & _).
  destruct (Hprofiles "localhost:8081"
              (Demo.owned Demo.tenantId (Demo.profiles Demo.office)) Demo.home
              eq_refl eq_refl) as (ps & Hps & _).
  assert (H1 := Hts). vm_compute in H1. injection H1 as H1. subst ts.
  assert (H2 := Has). vm_compute in H2. injection H2 as H2. subst apps.
  assert (H3 := Hps). vm_compute in H3. injection H3 as H3. subst ps.
  split; [exact Hts | split; [exact Has | exact Hps]].
Defined.

(** C6 as stated fails: a record that comes without an id becomes an item
    without an id. *)
Lemma loader_keeps_empty_id :
  loadTenants (Svc := Demo.sloppyServices) Demo.ready Demo.fresh
  = (Returned (tenantsLoadedMsg
                 [{| title := "ChirpStack"; desc := "ChirpStack"; id := "" |}]),
     Demo.fresh)
  /\ ~ Forall (fun it => id it <> "")
         [{| title := "ChirpStack"; desc := "ChirpStack"; id := "" |}].
Proof.
  split; [reflexivity|].
  intro H. inversion H as [|? ? Hid _]; subst. now apply Hid.
Qed.

Lemma stock_StockPicker : @StockPicker Demo.platform Stock.widgets.
Proof.
  constructor. intros fp msg path H.
  destruct msg as [w h|k| |items|items|items|n|e|f]; try discriminate.
  exists k. split; [reflexivity|].
  simpl in H. destruct (String.eqb_spec k "enter"); [assumption | discriminate].
Qed.

Lemma stock_reachable :
  @reachable Demo.platform Stock.widgets Demo.officeServices Demo.home Stock.left.
Proof.
  apply (run_reachable (P := Demo.platform) (W := Stock.widgets)
           (Svc := Demo.officeServices) Demo.home Stock.session Stock.boot);
    [exact (@reach_start Demo.platform Stock.widgets _ Demo.home)
    | vm_compute; reflexivity].
Defined.


(** The states of the session, message by message: after the file
    selection opens, Enter on the file changes nothing. *)
Example session_states :
  statesAlong (W := Stock.widgets) (Svc := Demo.officeServices)
    Stock.boot Stock.session
  = [ stateConnecting; stateConnecting; stateConnecting; stateConnecting;
      stateConnecting; stateTenantSelect; stateTenantSelect;
      stateApplicationSelect; stateApplicationSelect;
      stateDeviceProfileSelect; stateFileSelect; stateFileSelect;
      stateFileSelect ].
Proof. vm_compute. reflexivity. Qed.

(** At the end of the session the wizard is in the file selection with
    [devices.csv] under the cursor; Enter leaves the program exactly as it
    is, and it is neither in Processing nor in Complete. *)
Lemma processing_never_entered_witness :
  mstate (current Stock.left) = stateFileSelect
  /\ filepicker_DidSelectFile (filepicker (current Stock.left)) (Demo.key "enter")
     = (true, "/home/op/devices.csv")
  /\ feed (Svc := Demo.officeServices) Stock.left (Demo.key "enter") = Stock.left
  /\ events (system Stock.left) = []
  /\ mstate (current Stock.left) <> stateProcessing
  /\ mstate (current Stock.left) <> stateComplete
  /\ Update (Svc := Demo.officeServices) (current Stock.left) (Demo.key "enter")
       Demo.fresh
     = (Returned (current Stock.left, @CmdNil Demo.platform Stock.widgets),
        Demo.fresh).
Proof.
  destruct (processing_never_entered (P := Demo.platform) (W := Stock.widgets)
              (Svc := Demo.officeServices) (SP := stock_StockPicker)
              Demo.home Stock.left stock_reachable)
    as (Hprocessing & _ & Hcomplete & _ & Henter).
  assert (Hstate : mstate (current Stock.left) = stateFileSelect)
    by (vm_compute; reflexivity).
  split; [exact Hstate|].
  split; [vm_compute; reflexivity|]. split; [vm_compute; reflexivity|].
  split; [vm_compute; reflexivity|].
  split; [exact Hprocessing|]. split; [exact Hcomplete|].
  exact (Henter Hstate "enter" Demo.fresh eq_refl).
Defined.

(** [devices.csv] is indexed in bounds; a file whose first row is blank is
    not. *)
Lemma header_index_safety_witness :
  fst (processCSV Demo.ready "/home/op/devices.csv" Demo.fresh)
  <> Panicked IndexOutOfRange
  /\ fst (processCSV Demo.ready "/home/op/blank.csv" Demo.fresh)
     = Panicked IndexOutOfRange.
Proof.
  split.
  - intro H.
    apply (header_index_safety (Svc := Demo.officeServices)
             Demo.ready "/home/op/devices.csv" Demo.fresh
             (Some Demo.devices) Demo.devices eq_refl eq_refl) in H.
    destruct H as [rest H]. discriminate.
  - apply (header_index_safety (Svc := Demo.officeServices)
             Demo.ready "/home/op/blank.csv" Demo.fresh
             (Some [[]; ["04ABEF0123456789"; "sensor-1"]])
             [[]; ["04ABEF0123456789"; "sensor-1"]] eq_refl eq_refl).
    now exists [["04ABEF0123456789"; "sensor-1"]].
Defined.

(** "q" while the token is being typed: the program quits and the token
    field is as it was. *)
Lemma quit_is_global_witness :
  exists s' : Sys,
    Update Demo.typing (Demo.key "q") Demo.fresh
    = (Returned (Demo.typing, CmdQuit), s')
    /\ s' = Demo.fresh.
Proof.
  destruct (quit_is_global (P := Demo.platform) (Svc := Demo.officeServices)
              Demo.typing "q" Demo.fresh
              (or_introl eq_refl))
    as (s' & Hupd & Hopen & Hnone & Hrun).
  exists s'. split; [exact Hupd|]. now apply Hnone.
Defined.


(** ** The further properties at work *)

(** [euis.csv] is imported without a client: its rows have one cell. *)
Lemma import_without_rows_witness :
  processCSV initialModel "/home/op/euis.csv" Demo.fresh
  = (Returned (devicesCreatedMsg 0), Demo.fresh).
Proof.
  apply (import_without_rows (Svc := Demo.officeServices)
           initialModel "/home/op/euis.csv" Demo.fresh
           (Some [["04ABEF0123456789"]; ["04ABEF012345678A"]])
           [["04ABEF0123456789"]; ["04ABEF012345678A"]] 0%nat
           eq_refl eq_refl eq_refl).
  repeat constructor.
Defined.

(** [names.csv] is not: its first row has two cells. *)
Lemma import_without_client_witness :
  processCSV initialModel "/home/op/names.csv" Demo.fresh
  = (Panicked NilDereference, Demo.fresh).
Proof.
  apply (import_without_client (Svc := Demo.officeServices)
           initialModel "/home/op/names.csv" Demo.fresh
           (Some Demo.names) Demo.names 0%nat
           ["04ABEF0123456789"; "sensor-1"] []
           [["04ABEF012345678A"; "sensor-2"]]
           eq_refl eq_refl eq_refl eq_refl).
  - constructor.
  - simpl. lia.
  - reflexivity.
Defined.

(** The five data rows of [devices.csv]: four created, one in the log. *)
Lemma import_account_witness :
  exists (w : World) (es : list Event),
    processCSV Demo.ready "/home/op/devices.csv" Demo.fresh
    = (Returned (devicesCreatedMsg 4), {| remote := w; events := es |})
    /\ 4 + Z.of_nat (List.length (logLines es)) = 5.
Proof.
  destruct (import_account (Svc := Demo.officeServices)
              Demo.ready "/home/op/devices.csv" Demo.fresh
              (Some Demo.devices) Demo.devices "localhost:8081"
              eq_refl eq_refl devices_in_bounds eq_refl)
    as (start & created & w & es & Hstart & Hrun & Haccount & Hrange).
  - vm_compute. discriminate.
  - assert (Hval := Hrun). vm_compute in Hval.
    injection Hval as Hcreated Hw Hes. subst created w es.
    assert (Hone := Hstart). vm_compute in Hone.
    injection Hone as Hone. subst start.
    eexists. eexists. split; [exact Hrun | exact Haccount].
Defined.

(** A DevEUI written with a colon is not a hexadecimal string. *)
Lemma hex_strings_by_parts_witness :
  isHexString ("04AB" ++ "EF:01") = isHexString "04AB" && isHexString "EF:01".
Proof. apply (hex_strings_by_parts "04AB" "EF:01"); discriminate. Defined.

(** Enter on the empty token field of the start. *)
Lemma enter_without_choice_witness :
  Update initialModel (Demo.key "enter") Demo.fresh
  = (Returned (initialModel, CmdNil), Demo.fresh).
Proof.
  apply (enter_without_choice (P := Demo.platform) (Svc := Demo.officeServices)
           initialModel "enter" Demo.fresh eq_refl).
  left. split; reflexivity.
Defined.

(** Enter on the token typed so far. *)
Lemma enter_submits_token_witness :
  exists m' : model,
    Update Demo.typing (Demo.key "enter") Demo.fresh
    = (Returned (m', CmdConnect), Demo.fresh)
    /\ apiToken m' = "secre"
    /\ outgoingContext m' = "Bearer secre".
Proof.
  destruct (enter_submits_token (P := Demo.platform) (Svc := Demo.officeServices)
              Demo.typing "enter" Demo.fresh eq_refl eq_refl)
    as (m' & Hupd & Hst & Htoken & Hctx & Hcmd).
  - discriminate.
  - exists m'. split; [exact Hupd|]. split; [exact Htoken | exact Hctx].
Defined.

(** Enter on the tenant of the office asks for its applications. *)
Lemma tenant_scopes_applications_witness :
  exists m' : model,
    Update (current (Outage.after 5)) (Demo.key "enter") Demo.fresh
    = (Returned (m', CmdLoadApplications m'), Demo.fresh)
    /\ selectedTenant m' = Demo.tenantId
    /\ loadApplications m' Demo.fresh
       = (Returned (appsLoadedMsg
                      [ {| title := "office"; desc := "sensors of the office";
                           id := Demo.applicationId |} ]),
          Demo.fresh).
Proof.
  destruct (tenant_scopes_applications (P := Demo.platform) (Svc := Demo.officeServices)
              (current (Outage.after 5)) "enter" Demo.fresh
              {| title := "ChirpStack"; desc := "ChirpStack"; id := Demo.tenantId |}
              "localhost:8081" eq_refl eq_refl eq_refl eq_refl)
    as (m' & Hupd & Hst & Hsel & Hload).
  exists m'. split; [exact Hupd|]. split; [exact Hsel|].
  rewrite (Hload Demo.fresh). reflexivity.
Defined.

(** Enter on the application asks for the device profiles of the tenant. *)
Lemma profiles_follow_tenant_witness :
  exists m' : model,
    Update (current (Outage.after 7)) (Demo.key "enter") Demo.fresh
    = (Returned (m', CmdLoadDeviceProfiles m'), Demo.fresh)
    /\ selectedApp m' = Demo.applicationId
    /\ loadDeviceProfiles m' Demo.fresh
       = (Returned (profilesLoadedMsg
                      [ {| title := "EU868 class A"; desc := "EU868 class A";
                           id := Demo.profileId |} ]),
          Demo.fresh).
Proof.
  destruct (profiles_follow_tenant (P := Demo.platform) (Svc := Demo.officeServices)
              (current (Outage.after 7)) "enter" Demo.fresh
              {| title := "office"; desc := "sensors of the office";
                 id := Demo.applicationId |}
              "localhost:8081" eq_refl eq_refl eq_refl eq_refl)
    as (m' & Hupd & Hst & Hsel & Htenant & Hload).
  exists m'. split; [exact Hupd|]. split; [exact Hsel|].
  rewrite (Hload Demo.fresh). reflexivity.
Defined.

(** Enter on the device profile opens the file selection. *)
Lemma profile_opens_file_select_witness :
  exists m' : model,
    Update (current (Outage.after 9)) (Demo.key "enter") Demo.fresh
    = (Returned (m', CmdWidget tt), Demo.fresh)
    /\ mstate m' = stateFileSelect
    /\ selectedProfile m' = Demo.profileId.
Proof.
  destruct (profile_opens_file_select (P := Demo.platform) (Svc := Demo.officeServices)
              (current (Outage.after 9)) "enter" Demo.fresh
              {| title := "EU868 class A"; desc := "EU868 class A";
                 id := Demo.profileId |}
              eq_refl eq_refl eq_refl)
    as (m' & Hupd & Hst & Hsel & _).
  exists m'. split; [exact Hupd|]. split; [exact Hst | exact Hsel].
Defined.

(** The server is down: the wizard ends in Error with the address. *)
Lemma dial_failure_witness :
  mstate (current (complete (Svc := Outage.unreachable)
                     (feed (Svc := Outage.unreachable) Demo.boot connectMsg) 1))
  = stateError
  /\ err (current (complete (Svc := Outage.unreachable)
                     (feed (Svc := Outage.unreachable) Demo.boot connectMsg) 1))
     = Some ("failed to connect to ChirpStack at localhost:8081: connection refused"
             ++ Demo.newline
             ++ "Make sure ChirpStack gRPC API is running on this address").
Proof.
  destruct (dial_failure (P := Demo.platform) (W := Demo.widgets)
              (Svc := Outage.unreachable)
              Demo.boot "connection refused" Demo.home eq_refl)
    as [Hfeed Hdone].
  split.
  - exact (f_equal (fun p => mstate (current p)) Hdone).
  - exact (f_equal (fun p => err (current p)) Hdone).
Defined.

(** The server is up: the clients are set and the tenants are asked for. *)
Lemma dial_success_witness :
  exists m' : model,
    Update (current (Outage.after 3)) connectMsg Demo.fresh
    = (Returned (m', CmdLoadTenants m'), Demo.fresh)
    /\ deviceClient m' = Some "localhost:8081"
    /\ loadTenants m' Demo.fresh
       = (Returned (tenantsLoadedMsg
                      [ {| title := "ChirpStack"; desc := "ChirpStack";
                           id := Demo.tenantId |} ]),
          Demo.fresh).
Proof.
  destruct (dial_success (P := Demo.platform) (W := Demo.widgets)
              (Svc := Demo.officeServices)
              (current (Outage.after 3)) "localhost:8081" Demo.home Demo.fresh eq_refl)
    as (m' & Hupd & Hc & _ & _ & Hd & _ & _ & Hload).
  exists m'. split; [exact Hupd|]. split; [exact Hd|].
  rewrite (Hload Demo.fresh). reflexivity.
Defined.

(** The server refuses the token: the load of the tenants ends in Error. *)
Lemma load_failure_witness :
  complete (Svc := Outage.unauthenticated)
    (Outage.waiting (CmdLoadTenants Demo.ready)) 0
  = {| current := set_mstate stateError (set_err "authentication failed" Demo.ready);
       pending := [];
       system := Demo.fresh;
       phase := Running |}.
Proof.
  apply (load_failure (P := Demo.platform) (W := Demo.widgets)
           (Svc := Outage.unauthenticated)
           (Outage.waiting (CmdLoadTenants Demo.ready)) 0
           (CmdLoadTenants Demo.ready) Demo.ready
           "localhost:8081" "authentication failed" Demo.home eq_refl).
  left. repeat split.
Defined.

(** Enter pressed twice on the token: the second connection completes after
    the picker has failed, and its tenants take the wizard out of Error. *)
Lemma late_list_reopens_selection_witness :
  reachable Demo.home (Outage.outcome Demo.officeServices Outage.impatient)
  /\ mstate (current (Outage.outcome Demo.officeServices Outage.impatient)) = stateError
  /\ mstate (current (complete (Outage.outcome Demo.officeServices Outage.impatient) 2))
     = stateTenantSelect.
Proof.
  split; [|split].
  - apply (run_reachable (P := Demo.platform) (W := Demo.widgets)
             (Svc := Demo.officeServices) Demo.home Outage.impatient Demo.boot);
      [exact (@reach_start Demo.platform Demo.widgets _ Demo.home)
      | vm_compute; reflexivity].
  - reflexivity.
  - apply (late_list_reopens_selection (P := Demo.platform) (W := Demo.widgets)
             (Svc := Demo.officeServices)
             (Outage.outcome Demo.officeServices Outage.impatient) 2
             (@set_clients Demo.platform Demo.widgets "localhost:8081"
                (current (Outage.outcome Demo.officeServices Outage.impatient)))
             "localhost:8081" (Demo.tenants Demo.office) Demo.home);
      reflexivity.
Defined.

(** In the file selection the address is the one of the start. *)
Lemma dials_localhost_witness :
  serverAddr (current (Outage.after 10)) = "localhost:8081".
Proof.
  apply (dials_localhost (P := Demo.platform) (W := Demo.widgets)
           (Svc := Demo.officeServices) Demo.home (Outage.after 10)).
  apply (run_reachable (P := Demo.platform) (W := Demo.widgets)
           (Svc := Demo.officeServices) Demo.home (firstn 10 Demo.session) Demo.boot);
    [exact (@reach_start Demo.platform Demo.widgets _ Demo.home)
    | vm_compute; reflexivity].
Defined.

(** The impatient operator's run ends in Error, not in a panic. *)
Lemma no_nil_dereference_witness :
  phase (Outage.outcome Demo.officeServices Outage.impatient)
  <> Crashed NilDereference.
Proof.
  apply (no_nil_dereference (P := Demo.platform) (W := Demo.widgets)
           (Svc := Demo.officeServices) Demo.home
           (Outage.outcome Demo.officeServices Outage.impatient)).
  apply (run_reachable (P := Demo.platform) (W := Demo.widgets)
           (Svc := Demo.officeServices) Demo.home Outage.impatient Demo.boot);
    [exact (@reach_start Demo.platform Demo.widgets _ Demo.home)
    | vm_compute; reflexivity].
Defined.

Lemma careful_records :
  forall file records,
    csv_ReadAll (Services := Outage.careful) file = inr records ->
    Forall (fun row => row <> []) records.
Proof.
  intros [rows|] records H; cbn [csv_ReadAll Outage.careful Outage.readRecords] in H;
    [|discriminate].
  assert (Hall : Forall (fun row => row <> [])
                   (filter (fun row => negb (List.length row =? 0)%nat) rows)).
  { apply Forall_forall. intros row Hin.
    apply filter_In in Hin. destruct Hin as [_ Hrow]. now destruct row. }
  destruct (filter _ rows) as [|first rest]; [inversion H; constructor|].
  destruct (forallb _ rest); [|discriminate].
  now inversion H; subst.
Qed.

(** With a reader that returns no record without a cell the import of
    [blank.csv] leaves the program running. *)
Lemma never_crashes_witness :
  phase (Outage.outcome Outage.careful Outage.blank) = Running
  \/ phase (Outage.outcome Outage.careful Outage.blank) = Exited.
Proof.
  apply (never_crashes (P := Demo.platform) (W := Demo.widgets)
           (Svc := Outage.careful) Demo.home _ careful_records).
  apply (run_reachable (P := Demo.platform) (W := Demo.widgets)
           (Svc := Outage.careful) Demo.home Outage.blank Demo.boot);
    [exact (@reach_start Demo.platform Demo.widgets _ Demo.home)
    | vm_compute; reflexivity].
Defined.

(** The calls of the session's import: five, each under the token typed. *)
Lemma calls_are_authorised_witness :
  List.length (createCalls (events (system (Outage.outcome Demo.officeServices Outage.through))))
  = 5%nat
  /\ Forall authorised
       (events (system (Outage.outcome Demo.officeServices Outage.through))).
Proof.
  split; [reflexivity|].
  apply (calls_are_authorised (P := Demo.platform) (W := Demo.widgets)
           (Svc := Demo.officeServices) Demo.home).
  apply (run_reachable (P := Demo.platform) (W := Demo.widgets)
           (Svc := Demo.officeServices) Demo.home Outage.through Demo.boot);
    [exact (@reach_start Demo.platform Demo.widgets _ Demo.home)
    | vm_compute; reflexivity].
Defined.

(** The same calls name the application and the profile of the office. *)
Lemma calls_name_the_selection_witness :
  Forall addressed
    (events (system (Outage.outcome Demo.officeServices Outage.through))).
Proof.
  apply (calls_name_the_selection (P := Demo.platform) (W := Demo.widgets)
           (Svc := Demo.officeServices)
           (LL := demo_ListLaws) (SI := office_ServerIds) (PP := demo_PickerPaths)
           Demo.home).
  apply (run_reachable (P := Demo.platform) (W := Demo.widgets)
           (Svc := Demo.officeServices) Demo.home Outage.through Demo.boot);
    [exact (@reach_start Demo.platform Demo.widgets _ Demo.home)
    | vm_compute; reflexivity].
Defined.

(** After an import of four devices a key press leaves the screen as it is,
    and the picker's report that it cannot read takes it to Error. *)
Lemma complete_screen_witness :
  exists m' m'' : model,
    Update Demo.ready (devicesCreatedMsg 4) Demo.fresh
    = (Returned (m', CmdNil), Demo.fresh)
    /\ heading (View m') = "Complete!"
    /\ Update m' Outage.unreadable Demo.fresh = (Returned (m'', CmdNil), Demo.fresh)
    /\ View m'' = {| heading := "Error";
                     body := ErrorText (Some "open /home/op: permission denied");
                     help := "Press q to quit" |}.
Proof.
  destruct (complete_screen (P := Demo.platform) (W := Demo.widgets)
              (Svc := Demo.officeServices) Demo.ready 4 Demo.fresh)
    as (m' & Hupd & Hview & _ & Herror).
  destruct (Herror Outage.unreadable "open /home/op: permission denied" Demo.fresh
              eq_refl) as (m'' & Hupd' & Hview').
  exists m', m''. split; [exact Hupd|].
  split; [now rewrite Hview|]. split; [exact Hupd' | exact Hview'].
Defined.

(** In Error the same report replaces the error shown. *)
Lemma error_screen_witness :
  exists m' m'' : model,
    Update Demo.ready (errorMsg "authentication failed") Demo.fresh
    = (Returned (m', CmdNil), Demo.fresh)
    /\ body (View m') = ErrorText (Some "authentication failed")
    /\ Update m' Outage.unreadable Demo.fresh = (Returned (m'', CmdNil), Demo.fresh)
    /\ body (View m'') = ErrorText (Some "open /home/op: permission denied").
Proof.
  destruct (error_screen (P := Demo.platform) (W := Demo.widgets)
              (Svc := Demo.officeServices) Demo.ready "authentication failed"
              Demo.fresh)
    as (m' & Hupd & Hview & _ & Herror).
  destruct (Herror Outage.unreadable "open /home/op: permission denied" Demo.fresh
              eq_refl) as (m'' & Hupd' & Hview').
  exists m', m''. split; [exact Hupd|].
  split; [now rewrite Hview|]. split; [exact Hupd' | now rewrite Hview'].
Defined.
